(** * h1b_statistics: alias resolution, constrained counting and top-N reports

    A shallow embedding of [src/iterators.py] ([CleanReader],
    [ExtendedCounter], [MultiFileCounter]) and of [src/h1b_counting.py]
    ([gen_counter_text], [write_output_file], [main]), followed by the
    properties the specification states about them and by further
    properties of the code.

    Conventions of the embedding.
    - A Python [str] is a [string]; each [ascii] stands for the code point of
      the same number.  Case mapping and white space are modelled on the
      ASCII range, which is all that [CleanReader.preprocess_text] lets
      through in its default mode.
    - A Python [int] is a [Z]; a Python [float] is a binary64 value of
      [SpecFloat.spec_float].
    - A Python [dict] (and a [Counter]) is an association list in insertion
      order: assigning to a present key keeps its position, assigning to a new
      key appends.  The order is observable (ties of [most_common], the alias
      that wins a shared column), so it is kept.
    - A raised exception is a value of [exn]; a computation that may raise
      returns a [result].  Code that mutates the counters before it raises
      returns the counters reached together with the exception.
    - Generators are those of Python 3.7 and later (PEP 479): a
      [StopIteration] that escapes the body of a generator leaves it as a
      [RuntimeError].
    - A csv file is the list of rows [csv.reader] yields for it, the header
      row first.
    - A row of the reader is a namedtuple, modelled by its fields.  A tuple
      also answers [count], [index] and names with a leading underscore by
      itself, with a method or another object that is no entry of the file;
      [getattr] is modelled on the fields and on the names no tuple has
      ([CleanReader.tuple_member]), and the properties that would not hold
      for a counter on such a name are stated for counters looked up by
      field ([counters_by_field]).

    The file has the model first ([Py], [CleanReader], [ExtendedCounter],
    [MultiFileCounter], [h1b_counting]), then the vocabulary of the
    properties and the concrete inputs, then the properties with their
    proofs. *)

From Stdlib Require Import List String Ascii ZArith Bool Lia Permutation Sorted.
From Stdlib Require Import DecimalString SpecFloat.
Import ListNotations.
Local Open Scope string_scope.
Local Open Scope Z_scope.

Set Implicit Arguments.

(* ================================================================== *)
(** * Python primitives used by the program *)
(* ================================================================== *)

Module Py.

(** The built-in exceptions the modelled code can raise.  [Breakpoint] is
    the [ipdb.set_trace()] call in the [except] branch of
    [CleanReader.__iter__]: the run stops there. *)
Inductive exn : Type :=
| StopIteration
| RuntimeError
| AttributeError
| KeyError
| ValueError
| TypeError
| ZeroDivisionError
| OverflowError
| UnicodeEncodeError
| Breakpoint.

Inductive result (A : Type) : Type :=
| Ok (a : A)
| Raise (e : exn).
Arguments Ok {A} a.
Arguments Raise {A} e.

Definition bind {A B : Type} (r : result A) (k : A -> result B) : result B :=
  match r with
  | Ok a => k a
  | Raise e => Raise e
  end.

(** [[f(x) for x in xs]]: evaluated left to right, the first exception
    ends the comprehension. *)
Fixpoint mapM {A B : Type} (f : A -> result B) (xs : list A) : result (list B) :=
  match xs with
  | [] => Ok []
  | x :: xs' =>
      match f x with
      | Raise e => Raise e
      | Ok y =>
          match mapM f xs' with
          | Raise e => Raise e
          | Ok ys => Ok (y :: ys)
          end
      end
  end.

(** A [for] loop that updates one variable and may raise. *)
Fixpoint foldM {A S : Type} (f : S -> A -> result S) (xs : list A) (s : S) : result S :=
  match xs with
  | [] => Ok s
  | x :: xs' =>
      match f s x with
      | Raise e => Raise e
      | Ok s' => foldM f xs' s'
      end
  end.

(** ** dict *)

Definition dict (V : Type) : Type := list (string * V).

Fixpoint dict_get {V : Type} (k : string) (d : dict V) : option V :=
  match d with
  | [] => None
  | (k', v) :: d' => if String.eqb k k' then Some v else dict_get k d'
  end.

(** [d[k] = v] *)
Fixpoint dict_set {V : Type} (k : string) (v : V) (d : dict V) : dict V :=
  match d with
  | [] => [(k, v)]
  | (k', v') :: d' =>
      if String.eqb k k' then (k, v) :: d' else (k', v') :: dict_set k v d'
  end.

Definition dict_keys {V : Type} (d : dict V) : list string := map fst d.
Definition dict_values {V : Type} (d : dict V) : list V := map snd d.

(** [{k: v for k, v in items}] *)
Definition dict_of_items {V : Type} (items : list (string * V)) : dict V :=
  fold_left (fun d kv => dict_set (fst kv) (snd kv) d) items [].

(** [d[k]], raising [KeyError] on a missing key. *)
Definition dict_item {V : Type} (k : string) (d : dict V) : result V :=
  match dict_get k d with
  | Some v => Ok v
  | None => Raise KeyError
  end.

(** [x in xs] for a list of strings. *)
Definition str_in (x : string) (xs : list string) : bool :=
  existsb (String.eqb x) xs.

(** ** str *)

Definition code (c : ascii) : N := N_of_ascii c.

Definition is_ascii_char (c : ascii) : bool := (code c <? 128)%N.

Definition upper_char (c : ascii) : ascii :=
  if ((97 <=? code c) && (code c <=? 122))%N
  then ascii_of_N (code c - 32) else c.

Definition lower_char (c : ascii) : ascii :=
  if ((65 <=? code c) && (code c <=? 90))%N
  then ascii_of_N (code c + 32) else c.

(** White space as [str.strip()] sees it below 128: TAB, LF, VT, FF, CR,
    FS, GS, RS, US and SPACE. *)
Definition is_space (c : ascii) : bool :=
  (((9 <=? code c) && (code c <=? 13)) || ((28 <=? code c) && (code c <=? 32)))%N.

Fixpoint str_map (f : ascii -> ascii) (s : string) : string :=
  match s with
  | EmptyString => EmptyString
  | String c s' => String (f c) (str_map f s')
  end.

(** [str.upper()] and [str.lower()] on 7-bit text: the letters of the ASCII
    range change case, every other character stays as it is.  Python also
    maps the cased characters beyond 127, and [upper] may lengthen the text
    there; the properties that depend on the case of such text ask for
    7-bit text. *)
Definition upper : string -> string := str_map upper_char.
Definition lower : string -> string := str_map lower_char.

Fixpoint str_forall (p : ascii -> bool) (s : string) : bool :=
  match s with
  | EmptyString => true
  | String c s' => p c && str_forall p s'
  end.

Fixpoint str_filter (p : ascii -> bool) (s : string) : string :=
  match s with
  | EmptyString => EmptyString
  | String c s' => if p c then String c (str_filter p s') else str_filter p s'
  end.

Fixpoint lstrip (s : string) : string :=
  match s with
  | EmptyString => EmptyString
  | String c s' => if is_space c then lstrip s' else s
  end.

(** [rstrip]: a trailing run of white space is dropped. *)
Fixpoint rstrip (s : string) : string :=
  match s with
  | EmptyString => EmptyString
  | String c s' =>
      match rstrip s' with
      | EmptyString => if is_space c then EmptyString else String c EmptyString
      | r => String c r
      end
  end.

Definition strip (s : string) : string := rstrip (lstrip s).

(** The line feed. *)
Definition LF : string := String "010"%char EmptyString.

(** [sep.join(parts)] *)
Definition join (sep : string) (parts : list string) : string :=
  String.concat sep parts.

(** [str(n)] for an int. *)
Definition str_of_int (n : Z) : string := NilZero.string_of_int (Z.to_int n).

(** ** sorted *)

(** [sorted] is stable; [le a b] is "the key of [a] is at most the key of
    [b]".  An element is put in front of the elements of equal key that
    followed it in the input. *)
Section Sorted.
Variable A : Type.
Variable le : A -> A -> bool.

Fixpoint insert (x : A) (l : list A) : list A :=
  match l with
  | [] => [x]
  | y :: l' => if le x y then x :: l else y :: insert x l'
  end.

Fixpoint sorted (l : list A) : list A :=
  match l with
  | [] => []
  | x :: l' => insert x (sorted l')
  end.
End Sorted.

(** ** float *)

Definition prec : Z := 53.
Definition emax : Z := 1024.

Definition float : Type := spec_float.

(** [float(n)] for an int: the nearest binary64, ties to even. *)
Definition float_of_int (n : Z) : result float :=
  match binary_normalize prec emax n 0 false with
  | S754_infinity _ => Raise OverflowError
  | f => Ok f
  end.

(** [a / b] for two ints: the correctly rounded quotient. *)
Definition int_true_div (a b : Z) : result float :=
  if b =? 0 then Raise ZeroDivisionError
  else
    let neg := xorb (a <? 0) (b <? 0) in
    if a =? 0 then Ok (S754_zero neg)
    else
      let '(mz, ez, lz) := SFdiv_core_binary prec emax (Z.abs a) 0 (Z.abs b) 0 in
      match binary_round_aux prec emax neg mz ez lz with
      | S754_infinity _ => Raise OverflowError
      | f => Ok f
      end.

(** [n * x] for an int [n] and a float [x]. *)
Definition int_mul_float (n : Z) (x : float) : result float :=
  bind (float_of_int n) (fun fn => Ok (SFmul prec emax fn x)).

(** The number of tenths nearest to [m * 2^e], ties to even. *)
Definition tenths (m : positive) (e : Z) : Z :=
  match e with
  | Zneg p =>
      let n := 10 * Zpos m in
      let d := Z.pow_pos 2 p in
      let q := n / d in
      match (2 * (n mod d)) ?= d with
      | Lt => q
      | Gt => q + 1
      | Eq => if Z.even q then q else q + 1
      end
  | _ => 10 * Zpos m * 2 ^ e
  end.

(** [f'{x:.1f}'] *)
Definition format_1f (x : float) : string :=
  match x with
  | S754_nan => "nan"
  | S754_infinity s => if s then "-inf" else "inf"
  | S754_zero s => if s then "-0.0" else "0.0"
  | S754_finite s m e =>
      let t := tenths m e in
      (if s then "-" else "") ++ str_of_int (t / 10) ++ "." ++ str_of_int (t mod 10)
  end.

End Py.

Export Py.

Declare Scope py_scope.
Notation "x <- c1 ;; c2" := (bind c1 (fun x => c2))
  (at level 61, c1 at next level, right associativity) : py_scope.
Local Open Scope py_scope.

(** A csv file as [csv.reader(f, delimiter=';')] yields it. *)
Definition csv_file : Type := list (list string).

(** The comparison operators of [MultiFileCounter.cmp_dict]: [op.eq],
    [op.le], [op.ge], [op.lt] and [op.gt]. *)
Inductive cmp_op : Type := op_eq | op_le | op_ge | op_lt | op_gt.

(** ** Library functions taken as parameters

    What [float(str)], [dateutil.parser.parse], the comparison of two
    [datetime] values and the field-name check of [namedtuple] compute is not
    part of the program; the development holds for any choice of them. *)
Class Library : Type := {
  datetime : Type;
  (** [float(s)]; [None] is a [ValueError]. *)
  float_of_str : string -> option float;
  (** [parser.parse(s)]; [None] is a [ValueError]. *)
  parser_parse : string -> option datetime;
  (** [cmp(a, b)] on two datetimes; mixing naive and aware ones may raise. *)
  datetime_cmp : cmp_op -> datetime -> datetime -> result bool;
  (** a name [namedtuple] accepts as a field: an identifier, no keyword, no
      leading underscore. *)
  valid_field : string -> bool
}.

(* ================================================================== *)
(** * iterators.CleanReader *)
(* ================================================================== *)

Module CleanReader.

(** The [errors] argument of [str.encode]. *)
Inductive errors : Type := strict | ignore | replace.

(** An instance of [namedtuple('RowTup', aliases)]: the field names with
    their values. *)
Definition RowTup : Type := list (string * string).

(** The names every tuple answers by itself, whatever its fields: the
    methods [count] and [index] and the names with a leading underscore
    ([_fields], [_asdict], [__len__], ...).  The test is generous on the
    underscore names, not all of which a tuple has; a name it rejects is
    one that a tuple answers only if it is one of its fields. *)
Definition tuple_member (name : string) : bool :=
  String.eqb name "count" || String.eqb name "index"
  || match name with
     | String "_"%char _ => true
     | _ => false
     end.

(** [getattr(row, name)]: the value of the field [name], and
    [AttributeError] for a name that is no field.  This is the code on the
    fields of the row and on the names outside [tuple_member]; for a
    [tuple_member] that is no field Python returns a method or another
    object of the tuple instead of raising, which is not modelled. *)
Definition getattr (row : RowTup) (name : string) : result string :=
  match dict_get name row with
  | Some v => Ok v
  | None => Raise AttributeError
  end.

Record t : Type := mk {
  file_path : csv_file;
  cols : list string;
  aliases : list string;
  preprocessing : errors
}.

(** [CleanReader.__init__] *)
Definition init (file : csv_file) (cols : list string)
    (alias_dict : option (dict string)) (preprocessing : errors) : result t :=
  match alias_dict with
  | Some ((_ :: _) as d) =>
      al <- mapM (fun col => dict_item col d) cols ;;
      Ok (mk file cols al preprocessing)
  | _ => Ok (mk file cols cols preprocessing)
  end.

(** [entry.encode('ascii', errors=...).decode()] *)
Definition encode_ascii (mode : errors) (entry : string) : result string :=
  match mode with
  | strict =>
      if str_forall is_ascii_char entry then Ok entry else Raise UnicodeEncodeError
  | ignore => Ok (str_filter is_ascii_char entry)
  | replace => Ok (str_map (fun c => if is_ascii_char c then c else "?"%char) entry)
  end.

(** [CleanReader.preprocess_text]; the entry is [None] where the row had no
    field for the column. *)
Definition preprocess_text (self : t) (entry : option string) : result string :=
  match entry with
  | None => Raise AttributeError
  | Some entry =>
      entry <- encode_ascii (preprocessing self) entry ;;
      let entry := strip entry in
      let entry := lower entry in
      Ok entry
  end.

(** One row of [csv.DictReader]: the header zipped with the row, a column
    the row is too short for set to [None] ([restval]).  The surplus fields
    of a long row go under the key [None] ([restkey]), which no column name
    reaches. *)
Definition DictReader_row (fieldnames row : list string) : dict (option string) :=
  let d := dict_of_items (combine fieldnames (map (@Some string) row)) in
  fold_left (fun d key => dict_set key None d)
            (skipn (List.length row) fieldnames) d.

(** [namedtuple('RowTup', names)] succeeds. *)
Fixpoint no_duplicates (names : list string) : bool :=
  match names with
  | [] => true
  | n :: names' => negb (str_in n names') && no_duplicates names'
  end.

Definition namedtuple_ok `{Library} (names : list string) : bool :=
  forallb valid_field names && no_duplicates names.

(** The body of the [for row in self.reader] loop: the cleaned entries of
    the columns of interest, as a [RowTup]. *)
Definition read_row (self : t) (fieldnames row : list string) : result RowTup :=
  let d := DictReader_row fieldnames row in
  row_data <- mapM (fun col => entry <- dict_item col d ;; preprocess_text self entry)
                   (cols self) ;;
  Ok (combine (aliases self) row_data).

(** The rows the generator yields before it ends, and the exception that
    ends it if one does.  [DictReader] passes over empty rows. *)
Fixpoint read_rows (self : t) (fieldnames : list string) (rows : list (list string))
    : list RowTup * option exn :=
  match rows with
  | [] => ([], None)
  | [] :: rows' => read_rows self fieldnames rows'
  | row :: rows' =>
      match read_row self fieldnames row with
      | Raise e => ([], Some e)
      | Ok tup =>
          let '(tups, e) := read_rows self fieldnames rows' in (tup :: tups, e)
      end
  end.

(** [CleanReader.__iter__] *)
Definition iter `{Library} (self : t) : list RowTup * option exn :=
  if namedtuple_ok (aliases self) then
    match file_path self with
    | [] => ([], None)
    | fieldnames :: rows => read_rows self fieldnames rows
    end
  else ([], Some Breakpoint).

End CleanReader.

(* ================================================================== *)
(** * iterators.ExtendedCounter *)
(* ================================================================== *)

Module ExtendedCounter.

(** A [Counter]: values with their counts, in the order they were first
    counted. *)
Definition t : Type := dict Z.

Definition empty : t := [].

(** [self[item]]: a missing item counts zero. *)
Definition get (self : t) (item : string) : Z :=
  match dict_get item self with
  | Some n => n
  | None => 0
  end.

(** [self[item] += 1] *)
Definition incr (item : string) (self : t) : t :=
  dict_set item (get self item + 1) self.

(** [sum(self.values())] *)
Definition total (self : t) : Z := fold_left Z.add (dict_values self) 0.

Definition count_ge (a b : string * Z) : bool := snd b <=? snd a.

(** [Counter.most_common(n)]: the first [n] items of the stable sort by
    decreasing count. *)
Definition most_common (n : Z) (self : t) : list (string * Z) :=
  firstn (Z.to_nat n) (sorted count_ge self).

(** [ExtendedCounter.fraction] *)
Definition fraction (self : t) (item : string) : result float :=
  let item := lower item in
  int_true_div (get self item) (total self).

(** [ExtendedCounter.percent_str] *)
Definition percent_str (self : t) (item : string) : result string :=
  let item := lower item in
  f <- fraction self item ;;
  p <- int_mul_float 100 f ;;
  Ok (format_1f p ++ "%").

End ExtendedCounter.

(* ================================================================== *)
(** * iterators.MultiFileCounter *)
(* ================================================================== *)

Module MultiFileCounter.

Import CleanReader.

Section WithLibrary.
Context {L : Library}.

(** The values a constraint compares: an int, a float, a str or a
    datetime; a row entry is a str until it is coerced. *)
Inductive pyobj : Type :=
| PInt (z : Z)
| PFloat (f : float)
| PStr (s : string)
| PDatetime (d : datetime).

Definition isinstance_int (o : pyobj) : bool :=
  match o with PInt _ => true | _ => false end.
Definition isinstance_float (o : pyobj) : bool :=
  match o with PFloat _ => true | _ => false end.
Definition isinstance_datetime (o : pyobj) : bool :=
  match o with PDatetime _ => true | _ => false end.

(** [float(o)] *)
Definition py_float (o : pyobj) : result pyobj :=
  match o with
  | PInt z => f <- float_of_int z ;; Ok (PFloat f)
  | PFloat f => Ok (PFloat f)
  | PStr s =>
      match float_of_str s with
      | Some f => Ok (PFloat f)
      | None => Raise ValueError
      end
  | PDatetime _ => Raise TypeError
  end.

(** [parser.parse(o)] *)
Definition py_parse (o : pyobj) : result pyobj :=
  match o with
  | PStr s =>
      match parser_parse s with
      | Some d => Ok (PDatetime d)
      | None => Raise ValueError
      end
  | _ => Raise TypeError
  end.

(** What an operator of [cmp_dict] answers on the outcome of a three-way
    comparison; [None] is an unordered pair (a NaN is involved). *)
Definition holds (op : cmp_op) (c : option comparison) : bool :=
  match op, c with
  | op_eq, Some Eq => true
  | op_le, Some (Lt | Eq) => true
  | op_ge, Some (Gt | Eq) => true
  | op_lt, Some Lt => true
  | op_gt, Some Gt => true
  | _, _ => false
  end.

(** A float against an int, compared exactly. *)
Definition float_compare_int (f : float) (z : Z) : option comparison :=
  match f with
  | S754_nan => None
  | S754_infinity s => Some (if s then Lt else Gt)
  | S754_zero _ => Some (0 ?= z)
  | S754_finite s m e =>
      let v := if s then Zneg m else Zpos m in
      match e with
      | Zneg p => Some (v ?= z * Z.pow_pos 2 p)
      | _ => Some (v * 2 ^ e ?= z)
      end
  end.

(** [op(a, b)] for an operator of [cmp_dict]: numbers compare with
    numbers, strings with strings by code point, datetimes with
    datetimes; across these kinds [==] is false and an ordering raises. *)
Definition apply_cmp (op : cmp_op) (a b : pyobj) : result bool :=
  match a, b with
  | PStr x, PStr y => Ok (holds op (Some (String.compare x y)))
  | PInt x, PInt y => Ok (holds op (Some (x ?= y)))
  | PFloat x, PFloat y => Ok (holds op (SFcompare x y))
  | PFloat x, PInt y => Ok (holds op (float_compare_int x y))
  | PInt x, PFloat y => Ok (holds op (option_map CompOpp (float_compare_int y x)))
  | PDatetime x, PDatetime y => datetime_cmp op x y
  | _, _ =>
      match op with
      | op_eq => Ok false
      | _ => Raise TypeError
      end
  end.

(** [MultiFileCounter.Constraint] *)
Record Constraint : Type := mkConstraint {
  alias : string;
  cmp : cmp_op;
  val : pyobj
}.

(** [MultiFileCounter.cmp_dict] *)
Definition cmp_dict : dict cmp_op :=
  [("==", op_eq); ("<=", op_le); (">=", op_ge); ("<", op_lt); (">", op_gt)].

Record t : Type := mk {
  files : list csv_file;
  colname_list_dict : option (dict (list string));
  _counters : dict ExtendedCounter.t;
  _constraints : list Constraint;
  _files_parsed : Z
}.

(** [MultiFileCounter.__init__] *)
Definition init (files : list csv_file)
    (colname_list_dict : option (dict (list string))) : t :=
  mk files colname_list_dict [] [] 0.

(** [if d:] on a dict that may be [None]. *)
Definition truthy {V : Type} (d : option (dict V)) : bool :=
  match d with
  | Some (_ :: _) => true
  | _ => false
  end.

(** [MultiFileCounter.aliases]: [self.colname_list_dict.keys()] *)
Definition aliases (self : t) : result (list string) :=
  match colname_list_dict self with
  | None => Raise AttributeError
  | Some d => Ok (dict_keys d)
  end.

(** [MultiFileCounter.add_alias] *)
Definition add_alias (alias colname : string) (self : t) : t :=
  let d :=
    match colname_list_dict self with
    | Some ((_ :: _) as d) => d
    | _ => []
    end in
  let d :=
    match dict_get alias d with
    | Some colnames => dict_set alias (colnames ++ [colname])%list d
    | None => dict_set alias [colname] d
    end in
  mk (files self) (Some d) (_counters self) (_constraints self) (_files_parsed self).

(** [MultiFileCounter.add_constraint] *)
Definition add_constraint (alias cmp : string) (val : pyobj) (self : t) : result t :=
  cmp_op <- dict_item cmp cmp_dict ;;
  let constraint := mkConstraint alias cmp_op val in
  Ok (mk (files self) (colname_list_dict self) (_counters self)
         (_constraints self ++ [constraint])%list (_files_parsed self)).

(** The body of the loop of [constraints_satisfied]: the entry of the row
    is fetched, coerced and compared. *)
Definition check_constraint (row : RowTup) (con : Constraint) : result bool :=
  entry <- getattr row (alias con) ;;
  let entry := PStr entry in
  entry <-
    (if isinstance_float (val con) || isinstance_int entry then py_float entry
     else if isinstance_datetime (val con) then py_parse entry
     else Ok entry) ;;
  apply_cmp (cmp con) entry (val con).

(** [MultiFileCounter.constraints_satisfied] *)
Definition constraints_satisfied (self : t) (row : RowTup) : result bool :=
  match _constraints self with
  | [] => Ok true
  | constraints =>
      bools <- mapM (check_constraint row) constraints ;;
      Ok (forallb (fun b => b) bools)
  end.

(** [MultiFileCounter.add_counter] *)
Definition add_counter (counter_alias : string) (self : t) : t :=
  mk (files self) (colname_list_dict self)
     (dict_set counter_alias ExtendedCounter.empty (_counters self))
     (_constraints self) (_files_parsed self).

(** [next(col for col in header if col in colname_list)] *)
Definition first_match (header colname_list : list string) : result string :=
  match find (fun col => str_in col colname_list) header with
  | Some col => Ok col
  | None => Raise StopIteration
  end.

(** [MultiFileCounter.alias_dict]: column names of the file as keys,
    aliases as values. *)
Definition alias_dict (self : t) (file : csv_file) : result (dict string) :=
  header <- match file with
            | [] => Raise StopIteration
            | header :: _ => Ok header
            end ;;
  match colname_list_dict self with
  | Some ((_ :: _) as d) =>
      aliases <- aliases self ;;
      foldM (fun alias_dict alias =>
               colname_list <- dict_item alias d ;;
               colname <- first_match header colname_list ;;
               Ok (dict_set colname alias alias_dict))
            aliases []
  | _ =>
      aliases <- aliases self ;;
      Ok (dict_of_items (map (fun alias => (alias, alias)) aliases))
  end.

(** [MultiFileCounter.colname_dict]: the opposite of [alias_dict]. *)
Definition colname_dict (self : t) (file : csv_file) : result (dict string) :=
  alias_dict <- alias_dict self file ;;
  Ok (dict_of_items (map (fun item => (snd item, fst item)) alias_dict)).

(** The head of the loop of [__iter__]: the reader of one file. *)
Definition open_reader (self : t) (file : csv_file) : result CleanReader.t :=
  alias_dict <- alias_dict self file ;;
  colname_dict <- colname_dict self file ;;
  aliases <- aliases self ;;
  colnames <- mapM (fun alias => dict_item alias colname_dict) aliases ;;
  CleanReader.init file colnames (Some alias_dict) strict.

(** [for alias in self.counters:
       self._counters[alias][getattr(row_tup, alias)] += 1] *)
Fixpoint update_counters (row_tup : RowTup) (aliases : list string)
    (counters : dict ExtendedCounter.t) : dict ExtendedCounter.t * option exn :=
  match aliases with
  | [] => (counters, None)
  | alias :: aliases' =>
      match dict_item alias counters with
      | Raise e => (counters, Some e)
      | Ok counter =>
          match getattr row_tup alias with
          | Raise e => (counters, Some e)
          | Ok item =>
              update_counters row_tup aliases'
                (dict_set alias (ExtendedCounter.incr item counter) counters)
          end
      end
  end.

(** [for row_tup in clean_reader: ...] over the rows the reader yields. *)
Fixpoint count_rows (self : t) (row_tups : list RowTup)
    (counters : dict ExtendedCounter.t) : dict ExtendedCounter.t * option exn :=
  match row_tups with
  | [] => (counters, None)
  | row_tup :: row_tups' =>
      match constraints_satisfied self row_tup with
      | Raise e => (counters, Some e)
      | Ok false => count_rows self row_tups' counters
      | Ok true =>
          match update_counters row_tup (dict_keys counters) counters with
          | (counters', Some e) => (counters', Some e)
          | (counters', None) => count_rows self row_tups' counters'
          end
      end
  end.

(** An exception leaves the generator as it is, except [StopIteration],
    which leaves it as a [RuntimeError]. *)
Definition leave_generator (e : exn) : exn :=
  match e with
  | StopIteration => RuntimeError
  | e => e
  end.

Definition with_counters (self : t) (counters : dict ExtendedCounter.t) : t :=
  mk (files self) (colname_list_dict self) counters
     (_constraints self) (_files_parsed self).

Definition file_done (self : t) : t :=
  mk (files self) (colname_list_dict self) (_counters self)
     (_constraints self) (_files_parsed self + 1).

(** [MultiFileCounter.__iter__], driven to its end over the files [fs]:
    the instance as the run leaves it, and the exception that stopped the
    run if one did. *)
Fixpoint iter (self : t) (fs : list csv_file) : t * option exn :=
  match fs with
  | [] => (self, None)
  | file :: fs' =>
      match open_reader self file with
      | Raise e => (self, Some (leave_generator e))
      | Ok clean_reader =>
          let '(row_tups, stopped) := CleanReader.iter clean_reader in
          let '(counters, raised) := count_rows self row_tups (_counters self) in
          let self := with_counters self counters in
          match raised, stopped with
          | Some e, _ => (self, Some (leave_generator e))
          | None, Some e => (self, Some (leave_generator e))
          | None, None => iter (file_done self) fs'
          end
      end
  end.

(** [MultiFileCounter.count] *)
Definition count (self : t) : t * option exn := iter self (files self).

(** [MultiFileCounter.__len__] *)
Definition len (self : t) : Z := Z.of_nat (List.length (files self)).

(** [MultiFileCounter.files_parsed]: the number of files parsed at the given
    time. *)
Definition files_parsed (self : t) : Z := _files_parsed self.

(** [MultiFileCounter.constraints] *)
Definition constraints (self : t) : list Constraint := _constraints self.

(** [MultiFileCounter.counters] *)
Definition counters (self : t) : dict ExtendedCounter.t := _counters self.

End WithLibrary.

End MultiFileCounter.

(* ================================================================== *)
(** * h1b_counting *)
(* ================================================================== *)

Module h1b_counting.

(** The sort key [(-x[1], x[0])], compared as tuples. *)
Definition rank_le (a b : string * Z) : bool :=
  (- snd a <? - snd b) || ((- snd a =? - snd b) && String.leb (fst a) (fst b)).

(** [gen_counter_text]: the lines of the report body. *)
Definition gen_counter_text (counter : ExtendedCounter.t) (n : Z) (delimiter : string)
    : result (list string) :=
  let unsorted_top_n := ExtendedCounter.most_common n counter in
  let top_n := sorted rank_le unsorted_top_n in
  let names := map (fun tup => upper (fst tup)) top_n in
  let counts := map (fun tup => str_of_int (snd tup)) top_n in
  percentage <- mapM (fun name => ExtendedCounter.percent_str counter name) names ;;
  let data := combine names (combine counts percentage) in
  Ok (map (fun row => join delimiter [fst row; fst (snd row); snd (snd row)] ++ LF) data).

(** [write_output_file]; the files on disk are a dict from paths to contents.
    The header line is joined with [;] whatever the delimiter; the body is
    generated before the file is opened, so an exception there leaves the
    disk as it was. *)
Definition write_output_file (disk : dict string) (filepath : string)
    (header : list string) (counter : ExtendedCounter.t) (n : Z) (delimiter : string)
    : result (dict string) :=
  let header_text := join ";" header ++ LF in
  body_text <- gen_counter_text counter n delimiter ;;
  Ok (dict_set filepath (header_text ++ String.concat "" body_text) disk).

Section Main.
Context {L : Library}.
Import MultiFileCounter.

Definition header_1 : list string :=
  ["TOP_OCCUPATIONS"; "NUMBER_CERTIFIED_APPLICATIONS"; "PERCENTAGE"].

Definition header_2 : list string :=
  ["TOP_STATES"; "NUMBER_CERTIFIED_APPLICATIONS"; "PERCENTAGE"].

(** The possible column name aliases of [main]. *)
Definition colname_dict : dict (list string) :=
  [("status", ["STATUS"; "CASE_STATUS"]);
   ("occupation", ["SOC_NAME"; "LCA_CASE_SOC_NAME"]);
   ("state", ["LCA_CASE_WORKLOC1_STATE"; "WORKSITE_STATE"])].

(** [main], from the point where the input files are known: the csv files
    are given by their rows (the command line and the listing of the input
    directory are left out), the output files are written on [disk].  The
    result is the disk as [main] leaves it and the exception that ended it,
    if any. *)
Definition main (input_files : list csv_file)
    (output_filepath_1 output_filepath_2 : string) (disk : dict string)
    : dict string * option exn :=
  let mfc := init input_files (Some colname_dict) in
  match add_constraint "status" "==" (PStr "certified") mfc with
  | Raise e => (disk, Some e)
  | Ok mfc =>
      let mfc := add_counter "occupation" mfc in
      let mfc := add_counter "state" mfc in
      match count mfc with
      | (_, Some e) => (disk, Some e)
      | (mfc, None) =>
          match dict_item "occupation" (counters mfc) with
          | Raise e => (disk, Some e)
          | Ok counter_1 =>
              match dict_item "state" (counters mfc) with
              | Raise e => (disk, Some e)
              | Ok counter_2 =>
                  match write_output_file disk output_filepath_1 header_1 counter_1 10 ";" with
                  | Raise e => (disk, Some e)
                  | Ok disk =>
                      match write_output_file disk output_filepath_2 header_2 counter_2 10 ";" with
                      | Raise e => (disk, Some e)
                      | Ok disk => (disk, None)
                      end
                  end
              end
          end
      end
  end.

End Main.

End h1b_counting.

(* ================================================================== *)
(** * A concrete library, for running the model *)
(* ================================================================== *)

Module Plain.

Definition is_letter (c : ascii) : bool :=
  (((65 <=? code c) && (code c <=? 90)) || ((97 <=? code c) && (code c <=? 122)))%N.

Definition is_digit (c : ascii) : bool := ((48 <=? code c) && (code c <=? 57))%N.

Definition keywords : list string :=
  ["False"; "None"; "True"; "and"; "as"; "assert"; "async"; "await"; "break";
   "class"; "continue"; "def"; "del"; "elif"; "else"; "except"; "finally";
   "for"; "from"; "global"; "if"; "import"; "in"; "is"; "lambda"; "nonlocal";
   "not"; "or"; "pass"; "raise"; "return"; "try"; "while"; "with"; "yield"].

(** Field names in ASCII: a letter, then letters, digits and underscores,
    and no keyword. *)
Definition ascii_field (name : string) : bool :=
  match name with
  | EmptyString => false
  | String c rest =>
      is_letter c
      && str_forall (fun c => is_letter c || is_digit c || Ascii.eqb c "_"%char) rest
      && negb (str_in name keywords)
  end.

(** A library without numbers and dates in the rows: [float] and
    [parser.parse] reject every entry.  It serves the runs below, whose
    constraints compare strings. *)
Definition library : Library := {|
  datetime := unit;
  float_of_str := fun _ => None;
  parser_parse := fun _ => None;
  datetime_cmp := fun op _ _ => Ok (MultiFileCounter.holds op (Some Eq));
  valid_field := ascii_field
|}.

End Plain.

(* ================================================================== *)
(** * The two-file scenario of the specification *)
(* ================================================================== *)

Module Scenario.

Import MultiFileCounter.
#[local] Existing Instance Plain.library.

Definition file_A : csv_file :=
  [["ID"; "STATUS"; "OCCUPATION"];
   ["1"; "certified"; "nurse"];
   ["2"; "denied"; "nurse"];
   ["3"; "certified"; "welder"]].

Definition file_B : csv_file :=
  [["ID"; "STATUS"; "OCCUPATION"];
   ["4"; "certified"; "nurse"];
   ["5"; "certified"; "welder"];
   ["6"; "certified"; "welder"]].

Definition registry : dict (list string) :=
  [("status", ["STATUS"; "CASE_STATUS"]); ("occupation", ["OCCUPATION"; "SOC_NAME"])].

(** The instance after [add_constraint('status', '==', 'certified')] and
    [add_counter('occupation')]. *)
Definition mfc (files : list csv_file) : MultiFileCounter.t :=
  add_counter "occupation"
    (mk files (Some registry) [] [mkConstraint "status" op_eq (PStr "certified")] 0).

(** A file whose header has no candidate for [status]. *)
Definition file_C : csv_file :=
  [["ID"; "OCCUPATION"];
   ["7"; "nurse"]].

End Scenario.

(* ================================================================== *)
(** * The vocabulary of the properties *)
(* ================================================================== *)

(** ** Sorting *)

(** [le] holds of [a] and [b]. *)
Definition le_holds (A : Type) (le : A -> A -> bool) (a b : A) : Prop := le a b = true.

(** ** The schema resolver *)

(** The first element of [header] that is in [colname_list], with what
    precedes and follows it. *)
Definition first_in (header colname_list : list string) (col : string) : Prop :=
  exists before after,
    header = (before ++ col :: after)%list
    /\ In col colname_list
    /\ forall c, In c before -> ~ In c colname_list.

(** The claim of the specification about the resolved mapping: every alias
    of the registry is the value the mapping holds at the first header name
    among the alias's candidates. *)
Definition maps_each_alias (d : dict (list string)) (header : list string)
    (ad : dict string) : Prop :=
  forall alias cands,
    dict_get alias d = Some cands ->
    exists col, first_in header cands col /\ dict_get col ad = Some alias.

(** The mapping holds that and nothing else: it has one entry for each alias
    of the registry, in the order of the registry, keyed by the first header
    name among the candidates of the alias and holding the alias. *)
Definition resolves_exactly (d : dict (list string)) (header : list string)
    (ad : dict string) : Prop :=
  Forall2 (fun kv entry => snd entry = fst kv /\ first_in header (snd kv) (fst entry)) d ad.

(** The loop of [alias_dict] over the aliases of a registry. *)
Definition resolve_step (d : dict (list string)) (header : list string)
    (alias_dict : dict string) (alias : string) : result (dict string) :=
  colname_list <- dict_item alias d ;;
  colname <- MultiFileCounter.first_match header colname_list ;;
  Ok (dict_set colname alias alias_dict).

(** ** The row reader *)

(** The header zipped with the fields of a row, and the columns of the header
    the row is too short for, as [DictReader_row] goes through them. *)
Definition zipped_items (fieldnames row : list string) : list (string * option string) :=
  combine fieldnames (map (@Some string) row).

Definition missing_fields (fieldnames row : list string) : list string :=
  skipn (List.length row) fieldnames.

(** An entry of 7-bit text. *)
Definition seven_bit (entry : string) : Prop := str_forall is_ascii_char entry = true.

(** ** The aggregator *)

Section AggregatorVocabulary.
Context {L : Library}.
Import MultiFileCounter.

(** One turn of the loop of [__iter__]: the counters after the file and the
    exception that ended the turn, if any. *)
Definition run_file (self : MultiFileCounter.t) (file : csv_file)
    : dict ExtendedCounter.t * option exn :=
  match open_reader self file with
  | Raise e => (_counters self, Some (leave_generator e))
  | Ok clean_reader =>
      let '(row_tups, stopped) := CleanReader.iter clean_reader in
      let '(counters, raised) := count_rows self row_tups (_counters self) in
      (counters,
       match raised, stopped with
       | Some e, _ => Some (leave_generator e)
       | None, Some e => Some (leave_generator e)
       | None, None => None
       end)
  end.

(** An alias the run needs: the alias of a counter or of a constraint. *)
Definition required_alias (self : MultiFileCounter.t) (name : string) : Prop :=
  In name (dict_keys (_counters self)) \/ In name (map alias (_constraints self)).

End AggregatorVocabulary.

(** The count of [item] in the counter of [alias]; zero where there is no
    such counter or no such item. *)
Definition counted (counters : dict ExtendedCounter.t) (alias item : string) : Z :=
  match dict_get alias counters with
  | Some counter => ExtendedCounter.get counter item
  | None => 0
  end.

(** [B] tracks the aliases of [A], and every count of [B] is the count of
    [A] plus [delta]. *)
Definition shifted (delta : string -> string -> Z) (A B : dict ExtendedCounter.t) : Prop :=
  dict_keys A = dict_keys B
  /\ forall alias item, counted B alias item = counted A alias item + delta alias item.

(** ** The report *)

(** A value as the counters hold it: [preprocess_text] let it through, so
    it is 7-bit and in lower case. *)
Definition case_normalized (item : string) : Prop :=
  seven_bit item /\ lower item = item.

(** [count] as a percentage of [total], to one decimal place. *)
Definition percentage (count total : Z) : result string :=
  f <- int_true_div count total ;;
  p <- int_mul_float 100 f ;;
  Ok (format_1f p ++ "%").

(** The line of one entry of the counter: NAME, COUNT and PERCENTAGE. *)
Definition report_line (delimiter : string) (total : Z) (entry : string * Z)
    : result string :=
  pct <- percentage (snd entry) total ;;
  Ok ((upper (fst entry) ++ delimiter ++ str_of_int (snd entry) ++ delimiter ++ pct) ++ LF).

(** The order of the lines: by decreasing count, and among equal counts by
    increasing value, compared as the counter holds it. *)
Definition report_order (a b : string * Z) : Prop :=
  snd b < snd a \/ (snd a = snd b /\ String.leb (fst a) (fst b) = true).

(** The order the specification states: among equal counts by increasing
    upper-cased name. *)
Definition claimed_order (a b : string * Z) : Prop :=
  snd b < snd a \/ (snd a = snd b /\ String.leb (upper (fst a)) (upper (fst b)) = true).

(** A counter as the aggregator keeps it: no value twice, every value as
    [preprocess_text] leaves it, every count positive. *)
Definition well_formed (counter : ExtendedCounter.t) : Prop :=
  NoDup (dict_keys counter)
  /\ Forall (fun kv => case_normalized (fst kv) /\ 0 < snd kv) counter.


(** ** The further properties *)



(** The rows the reader of a file yields to the loop of [__iter__]. *)
Definition rows_read {L : Library} (self : MultiFileCounter.t) (file : csv_file)
    : list CleanReader.RowTup :=
  match MultiFileCounter.open_reader self file with
  | Ok clean_reader => fst (CleanReader.iter clean_reader)
  | Raise _ => []
  end.

(** The instance [main] counts with: the registry of [main], the constraint
    on [status] and the counters of [occupation] and [state]. *)
Definition configured {L : Library} (input_files : list csv_file) : MultiFileCounter.t :=
  MultiFileCounter.mk input_files (Some h1b_counting.colname_dict)
    [("occupation", ExtendedCounter.empty); ("state", ExtendedCounter.empty)]
    [MultiFileCounter.mkConstraint "status" op_eq (MultiFileCounter.PStr "certified")] 0.

(** The text of a report: the header line, joined with [;], and the lines of
    the body. *)
Definition report_text (header body : list string) : string :=
  (join ";" header ++ LF) ++ String.concat "" body.

(** Two instances with the same registry, the same constraints, the same
    aliases tracked and the same counts. *)
Definition alike {L : Library} (s1 s2 : MultiFileCounter.t) : Prop :=
  MultiFileCounter.colname_list_dict s1 = MultiFileCounter.colname_list_dict s2
  /\ MultiFileCounter._constraints s1 = MultiFileCounter._constraints s2
  /\ shifted (fun _ _ => 0) (MultiFileCounter._counters s1) (MultiFileCounter._counters s2).

(** The registry of an instance, empty where it is unset. *)
Definition registry_of {L : Library} (self : MultiFileCounter.t) : dict (list string) :=
  match MultiFileCounter.colname_list_dict self with
  | Some d => d
  | None => []
  end.

(** The counters are looked up on the rows by field: the alias of each
    counter is an alias of the registry, which names a field of every row,
    or a name that a row answers only if it is one of its fields. *)
Definition counters_by_field {L : Library} (self : MultiFileCounter.t) : Prop :=
  Forall (fun alias =>
            In alias (dict_keys (registry_of self)) \/ CleanReader.tuple_member alias = false)
         (dict_keys (MultiFileCounter._counters self)).

(** A sequence of calls of [add_alias], one for each pair of an alias and a
    column name. *)
Definition add_aliases {L : Library} (pairs : list (string * string))
    (self : MultiFileCounter.t) : MultiFileCounter.t :=
  fold_left (fun s pair => MultiFileCounter.add_alias (fst pair) (snd pair) s) pairs self.

(** The column names the pairs give for [alias], in the order of the pairs. *)
Definition candidates_given (alias : string) (pairs : list (string * string)) : list string :=
  map snd (filter (fun pair => String.eqb (fst pair) alias) pairs).

(** Two registries with the same aliases in the same order, each alias with
    the same candidates up to their order and repetition. *)
Definition same_candidates (d d' : dict (list string)) : Prop :=
  Forall2 (fun kv kv' => fst kv = fst kv' /\ forall c, In c (snd kv) <-> In c (snd kv')) d d'.

(** ** Concrete inputs *)

(** A reader of the columns [STATUS] and [SOC_NAME] over a file whose only
    row has one column more than the header. *)
Definition long_row_reader : CleanReader.t :=
  CleanReader.mk
    [["STATUS"; "SOC_NAME"]; ["CERTIFIED"; "Nurse"; "surplus"]]
    ["STATUS"; "SOC_NAME"] ["status"; "occupation"] CleanReader.strict.

(** A registry in which two aliases have a candidate in common, and a header
    that has this candidate only. *)
Definition shared_registry : dict (list string) :=
  [("occupation", ["SOC_NAME"]); ("job_title", ["JOB_TITLE"; "SOC_NAME"])].

Definition shared_header : list string := ["STATUS"; "SOC_NAME"].

(** A counter with two values of equal count. *)
Definition tied_counter : ExtendedCounter.t := [("ab", 1); ("a_b", 1)].

(** The registry of the scenario with the candidates of each alias in the
    opposite order. *)
Definition reversed_registry : dict (list string) :=
  [("status", ["CASE_STATUS"; "STATUS"]); ("occupation", ["SOC_NAME"; "OCCUPATION"])].

(** A file whose header has both candidates of each alias of the scenario,
    the second candidate of the registry before the first. *)
Definition both_names_header : list string :=
  ["CASE_STATUS"; "SOC_NAME"; "STATUS"; "OCCUPATION"].

Definition both_names_file : csv_file :=
  [both_names_header; ["certified"; "nurse"; "denied"; "welder"]].

(** Two files as [main] reads them: the columns have the names of two
    different years, and one application is not certified. *)
Definition h1b_2014 : csv_file :=
  [["STATUS"; "LCA_CASE_SOC_NAME"; "LCA_CASE_WORKLOC1_STATE"];
   ["CERTIFIED"; "Computer Systems Analysts"; "CA"];
   ["DENIED"; "Accountants and Auditors"; "TX"];
   ["CERTIFIED"; "Accountants and Auditors"; "CA"]].

Definition h1b_2016 : csv_file :=
  [["CASE_STATUS"; "SOC_NAME"; "WORKSITE_STATE"];
   ["CERTIFIED"; "COMPUTER SYSTEMS ANALYSTS"; "FL"];
   ["CERTIFIED-WITHDRAWN"; "ACCOUNTANTS AND AUDITORS"; "FL"]].

(** No string of a concrete list occurs twice. *)
Ltac distinct := repeat (constructor; [simpl; intuition discriminate|]); constructor.

(* ================================================================== *)
(** * The model at work *)
(* ================================================================== *)

(** ** The primitives *)

Example preprocess_strips_and_lowers :
  CleanReader.preprocess_text (CleanReader.mk [] [] [] CleanReader.strict)
    (Some "  Software Developers, Applications ")
  = Ok "software developers, applications".
Proof. reflexivity. Qed.

Example one_third : int_true_div 1 3 = Ok (S754_finite false 6004799503160661 (-54)).
Proof. vm_compute. reflexivity. Qed.

(** [100 * (1 / 2000)] is a little above 0.05 in binary64, and 0.25 is exact
    and ties to even. *)
Example percentages_round_as_floats :
  percentage 1 2000 = Ok "0.1%" /\ percentage 1 400 = Ok "0.2%" /\ percentage 3 5 = Ok "60.0%".
Proof. vm_compute. auto. Qed.

(** Equal counts keep the order of first occurrence in [most_common]. *)
Example most_common_is_stable :
  ExtendedCounter.most_common 2 [("welder", 1); ("nurse", 3); ("baker", 1); ("clerk", 3)]
  = [("nurse", 3); ("clerk", 3)].
Proof. reflexivity. Qed.

(** A column name that occurs twice in the header reads the last field, and is
    [None] as soon as the row is too short for one of its occurrences. *)
Example DictReader_row_repeated_name :
  CleanReader.DictReader_row ["A"; "A"; "B"] ["1"; "2"; "3"] = [("A", Some "2"); ("B", Some "3")]
  /\ CleanReader.DictReader_row ["A"; "A"; "B"] ["x"] = [("A", None); ("B", None)].
Proof. split; reflexivity. Qed.

Example strip_drops_separators :
  strip (String "028"%char (String "009"%char ("ab " ++ String "011"%char EmptyString))) = "ab".
Proof. reflexivity. Qed.

Example long_row_reader_init :
  CleanReader.init
    [["STATUS"; "SOC_NAME"]; ["CERTIFIED"; "Nurse"; "surplus"]] ["STATUS"; "SOC_NAME"]
    (Some [("STATUS", "status"); ("SOC_NAME", "occupation")]) CleanReader.strict
  = Ok long_row_reader.
Proof. reflexivity. Qed.

(** ** The two-file scenario *)

Example scenario_setup :
  (m <- MultiFileCounter.add_constraint "status" "==" (MultiFileCounter.PStr "certified")
          (MultiFileCounter.init [Scenario.file_A; Scenario.file_B] (Some Scenario.registry)) ;;
   Ok (MultiFileCounter.add_counter "occupation" m))
  = Ok (Scenario.mfc [Scenario.file_A; Scenario.file_B]).
Proof. reflexivity. Qed.

Example scenario_counts :
  MultiFileCounter.count (Scenario.mfc [Scenario.file_A; Scenario.file_B])
  = (MultiFileCounter.mk [Scenario.file_A; Scenario.file_B] (Some Scenario.registry)
       [("occupation", [("nurse", 2); ("welder", 3)])]
       [MultiFileCounter.mkConstraint "status" op_eq (MultiFileCounter.PStr "certified")] 2,
     None).
Proof. vm_compute. reflexivity. Qed.

Example scenario_report :
  h1b_counting.gen_counter_text [("nurse", 2); ("welder", 3)] 2 ";"
  = Ok ["WELDER;3;60.0%" ++ LF; "NURSE;2;40.0%" ++ LF].
Proof. vm_compute. reflexivity. Qed.

(* ================================================================== *)
(** * Facts about the Python primitives *)
(* ================================================================== *)

Section DictFacts.
Variable V : Type.

Lemma dict_get_set (k k' : string) (v : V) (d : dict V) :
  dict_get k' (dict_set k v d) = if String.eqb k' k then Some v else dict_get k' d.
Proof.
  induction d as [|[k0 v0] d IH]; simpl.
  - reflexivity.
  - destruct (String.eqb k k0) eqn:E; simpl.
    + apply String.eqb_eq in E; subst k0.
      destruct (String.eqb k' k); reflexivity.
    + destruct (String.eqb k' k0) eqn:E'.
      * apply String.eqb_eq in E'; subst k0.
        rewrite String.eqb_sym, E. reflexivity.
      * exact IH.
Qed.

Lemma dict_get_set_same (k : string) (v : V) (d : dict V) :
  dict_get k (dict_set k v d) = Some v.
Proof. rewrite dict_get_set, String.eqb_refl. reflexivity. Qed.

Lemma dict_get_set_other (k k' : string) (v : V) (d : dict V) :
  k' <> k -> dict_get k' (dict_set k v d) = dict_get k' d.
Proof.
  intros Hne. rewrite dict_get_set.
  apply String.eqb_neq in Hne. rewrite Hne. reflexivity.
Qed.

(** Assigning to a present key leaves the keys and their order alone. *)
Lemma dict_keys_set_present (k : string) (v v0 : V) (d : dict V) :
  dict_get k d = Some v0 -> dict_keys (dict_set k v d) = dict_keys d.
Proof.
  induction d as [|[k0 w] d IH]; simpl; intros Hget.
  - discriminate.
  - destruct (String.eqb k k0) eqn:E; simpl.
    + apply String.eqb_eq in E. subst k0. reflexivity.
    + f_equal. apply IH, Hget.
Qed.

Lemma dict_get_In (k : string) (v : V) (d : dict V) :
  dict_get k d = Some v -> In (k, v) d.
Proof.
  induction d as [|[k0 w] d IH]; simpl; intros Hget.
  - discriminate.
  - destruct (String.eqb k k0) eqn:E.
    + apply String.eqb_eq in E. inversion Hget. subst. left. reflexivity.
    + right. apply IH, Hget.
Qed.

Lemma dict_get_keys (k : string) (d : dict V) :
  In k (dict_keys d) -> exists v, dict_get k d = Some v.
Proof.
  induction d as [|[k0 w] d IH]; simpl; intros Hin.
  - contradiction.
  - destruct (String.eqb k k0) eqn:E.
    + eauto.
    + destruct Hin as [Heq|Hin].
      * subst k0. rewrite String.eqb_refl in E. discriminate.
      * apply IH, Hin.
Qed.

(** In a dict (no key twice) an item is what the lookup of its key finds. *)
Lemma In_dict_get (k : string) (v : V) (d : dict V) :
  NoDup (dict_keys d) -> In (k, v) d -> dict_get k d = Some v.
Proof.
  induction d as [|[k0 w] d IH]; simpl; intros Hnd Hin.
  - contradiction.
  - inversion Hnd as [|? ? Hnotin Hnd']; subst.
    destruct Hin as [Heq|Hin].
    + inversion Heq; subst. rewrite String.eqb_refl. reflexivity.
    + destruct (String.eqb k k0) eqn:E.
      * apply String.eqb_eq in E. subst k0.
        exfalso. apply Hnotin. change k with (fst (k, v)).
        apply in_map, Hin.
      * apply IH; assumption.
Qed.
End DictFacts.

Lemma str_in_In (x : string) (xs : list string) : str_in x xs = true <-> In x xs.
Proof.
  unfold str_in. rewrite existsb_exists. split.
  - intros [y [Hin Heq]]. apply String.eqb_eq in Heq. subst. exact Hin.
  - intros Hin. exists x. split; [exact Hin | apply String.eqb_refl].
Qed.

Section MapMFacts.
Variables A B : Type.
Variable f : A -> result B.

Lemma mapM_Ok_Forall2 (xs : list A) (ys : list B) :
  mapM f xs = Ok ys <-> Forall2 (fun x y => f x = Ok y) xs ys.
Proof.
  revert ys. induction xs as [|x xs IH]; intros ys; simpl.
  - split.
    + intros Heq. inversion Heq. constructor.
    + intros HF. inversion HF. reflexivity.
  - destruct (f x) as [y|e] eqn:Efx.
    + destruct (mapM f xs) as [ys'|e] eqn:Em.
      * split.
        -- intros Heq. inversion Heq; subst. constructor; [exact Efx | apply IH; reflexivity].
        -- intros HF. inversion HF as [|? y0 ? ys0 Hy Hys]; subst.
           rewrite Efx in Hy. inversion Hy; subst.
           apply IH in Hys. inversion Hys. reflexivity.
      * split.
        -- discriminate.
        -- intros HF. inversion HF as [|? y0 ? ys0 Hy Hys]; subst.
           apply IH in Hys. discriminate.
    + split.
      * discriminate.
      * intros HF. inversion HF as [|? y0 ? ys0 Hy Hys]; subst.
        rewrite Efx in Hy. discriminate.
Qed.

(** A comprehension with a failing element raises. *)
Lemma mapM_raises (xs : list A) (x : A) (e : exn) :
  In x xs -> f x = Raise e -> exists e', mapM f xs = Raise e'.
Proof.
  induction xs as [|x0 xs IH]; simpl; intros Hin Hfx.
  - contradiction.
  - destruct (f x0) as [y|e0] eqn:Efx0.
    + destruct Hin as [Heq|Hin].
      * subst x0. rewrite Hfx in Efx0. discriminate.
      * destruct (IH Hin Hfx) as [e' He']. rewrite He'. eauto.
    + eauto.
Qed.

Lemma mapM_ext (g : A -> result B) (xs : list A) :
  (forall x, In x xs -> f x = g x) -> mapM f xs = mapM g xs.
Proof.
  induction xs as [|x xs IH]; simpl; intros Hext.
  - reflexivity.
  - rewrite <- (Hext x) by (left; reflexivity).
    rewrite IH by (intros y Hy; apply Hext; right; exact Hy).
    reflexivity.
Qed.
End MapMFacts.

(* ================================================================== *)
(** * The constraint evaluator *)
(* ================================================================== *)

Section ConstraintEvaluator.
Context {L : Library}.
Import MultiFileCounter.

Lemma all_true_iff (row : CleanReader.RowTup) (cons : list Constraint) :
  (exists bools, mapM (check_constraint row) cons = Ok bools
                 /\ forallb (fun b => b) bools = true)
  <-> Forall (fun con => check_constraint row con = Ok true) cons.
Proof.
  induction cons as [|con cons IH]; simpl.
  - split.
    + intros _. constructor.
    + intros _. exists []. split; reflexivity.
  - split.
    + intros [bools [Hm Hall]].
      destruct (check_constraint row con) as [b|e] eqn:Ec; [|discriminate].
      destruct (mapM (check_constraint row) cons) as [bs|e] eqn:Em; [|discriminate].
      inversion Hm; subst bools. simpl in Hall.
      apply andb_true_iff in Hall. destruct Hall as [Hb Hbs]. subst b.
      constructor; [exact Ec|]. apply IH. exists bs. split; [reflexivity | exact Hbs].
    + intros HF. inversion HF as [|? ? Hcon Hcons]; subst.
      apply IH in Hcons. destruct Hcons as [bs [Hm Hall]].
      rewrite Hcon, Hm. exists (true :: bs). split; [reflexivity | exact Hall].
Qed.

(** C1. [constraints_satisfied] answers [True] exactly when every
    constraint of the list holds for the row (the check of each constraint
    ends and gives [True]); with no constraint it answers [True] for every
    row. *)
Theorem constraints_satisfied_is_conjunction :
  forall (self : MultiFileCounter.t) (row : CleanReader.RowTup),
    (constraints_satisfied self row = Ok true
     <-> Forall (fun con => check_constraint row con = Ok true) (_constraints self))
    /\ (forall files registry counters parsed,
           constraints_satisfied (mk files registry counters [] parsed) row = Ok true).
Proof.
  intros self row. split; [|reflexivity].
  unfold constraints_satisfied.
  destruct (_constraints self) as [|con cons] eqn:Econs.
  - split; [intros _; constructor | reflexivity].
  - rewrite <- all_true_iff. unfold bind.
    destruct (mapM (check_constraint row) (con :: cons)) as [bools|e].
    + split.
      * intros Heq. inversion Heq as [Hall]. exists bools. rewrite Hall. split; reflexivity.
      * intros [bools' [Heq Hall]]. inversion Heq; subst. rewrite Hall. reflexivity.
    + split; [discriminate | intros [bools' [Heq _]]; discriminate].
Qed.

(** C2. A comparison value that is an int does not make the evaluator
    coerce the entry: the entry stays a str, so [==] against the int is
    false and an ordering against it raises [TypeError].  The entry is
    coerced only for a float (or datetime) comparison value. *)
Theorem int_comparison_value_is_not_coerced :
  forall (alias entry : string) (op : cmp_op) (z : Z),
    check_constraint [(alias, entry)] (mkConstraint alias op (PInt z))
    = match op with
      | op_eq => Ok false
      | _ => Raise TypeError
      end.
Proof.
  intros alias entry op z.
  unfold check_constraint, CleanReader.getattr. simpl.
  rewrite String.eqb_refl. simpl. destruct op; reflexivity.
Qed.

End ConstraintEvaluator.

(* ================================================================== *)
(** * The schema resolver *)
(* ================================================================== *)

Section FirstMatch.

Lemma first_in_unique (header colname_list : list string) (c1 c2 : string) :
  first_in header colname_list c1 -> first_in header colname_list c2 -> c1 = c2.
Proof.
  revert c1 c2. induction header as [|h header IH]; intros c1 c2 H1 H2.
  - destruct H1 as [b [a [Heq _]]]. destruct b; discriminate.
  - destruct H1 as [b1 [a1 [Heq1 [Hin1 Hb1]]]].
    destruct H2 as [b2 [a2 [Heq2 [Hin2 Hb2]]]].
    destruct b1 as [|x1 b1]; destruct b2 as [|x2 b2]; simpl in *;
      injection Heq1 as Hh1 Ht1; injection Heq2 as Hh2 Ht2.
    + congruence.
    + exfalso. apply (Hb2 x2); [left; reflexivity | congruence].
    + exfalso. apply (Hb1 x1); [left; reflexivity | congruence].
    + apply IH.
      * exists b1, a1. repeat split; auto.
      * exists b2, a2. repeat split; auto.
Qed.

Lemma first_match_Ok (header colname_list : list string) (col : string) :
  MultiFileCounter.first_match header colname_list = Ok col
  <-> first_in header colname_list col.
Proof.
  unfold MultiFileCounter.first_match.
  induction header as [|h header IH]; simpl.
  - split; [discriminate|].
    intros [b [a [Heq _]]]. destruct b; discriminate.
  - destruct (str_in h colname_list) eqn:Eh.
    + apply str_in_In in Eh. split.
      * intros Heq. inversion Heq; subst.
        exists [], header. repeat split; [exact Eh | intros c []].
      * intros [b [a [Heq [Hin Hb]]]].
        destruct b as [|x b]; simpl in Heq; inversion Heq; subst.
        -- reflexivity.
        -- exfalso. apply (Hb x); [left; reflexivity | exact Eh].
    + assert (Hnot : ~ In h colname_list).
      { intros Hin. apply str_in_In in Hin. rewrite Hin in Eh. discriminate. }
      split.
      * intros Hf. apply IH in Hf. destruct Hf as [b [a [Heq [Hin Hb]]]].
        exists (h :: b), a. subst header. repeat split; [exact Hin|].
        intros c [Hc|Hc]; [subst c; exact Hnot | apply Hb, Hc].
      * intros [b [a [Heq [Hin Hb]]]]. apply IH.
        destruct b as [|x b]; simpl in Heq; inversion Heq; subst.
        -- contradiction.
        -- exists b, a. repeat split; [exact Hin|].
           intros c Hc. apply Hb. right. exact Hc.
Qed.

Lemma first_match_cases (header colname_list : list string) :
  (exists col, MultiFileCounter.first_match header colname_list = Ok col)
  \/ MultiFileCounter.first_match header colname_list = Raise StopIteration.
Proof.
  unfold MultiFileCounter.first_match.
  destruct (find _ header); [left; eauto | right; reflexivity].
Qed.

Lemma first_match_none (header colname_list : list string) :
  (forall col, In col header -> ~ In col colname_list) ->
  MultiFileCounter.first_match header colname_list = Raise StopIteration.
Proof.
  intros Hnone.
  destruct (first_match_cases header colname_list) as [[col Hcol]|Hr]; [|exact Hr].
  apply first_match_Ok in Hcol. destruct Hcol as [b [a [Heq [Hin _]]]].
  exfalso. apply (Hnone col); [|exact Hin].
  subst header. apply in_or_app. right. left. reflexivity.
Qed.

Lemma first_match_some (header colname_list : list string) (col : string) :
  In col header -> In col colname_list ->
  exists col', MultiFileCounter.first_match header colname_list = Ok col'.
Proof.
  intros Hh Hc. unfold MultiFileCounter.first_match.
  destruct (find (fun col0 => str_in col0 colname_list) header) as [c|] eqn:Ef.
  - eauto.
  - exfalso. pose proof (find_none _ _ Ef col Hh) as Hf. simpl in Hf.
    apply str_in_In in Hc. rewrite Hc in Hf. discriminate.
Qed.

End FirstMatch.

Section SchemaResolver.
Context {L : Library}.
Import MultiFileCounter.

Lemma alias_dict_registry (self : MultiFileCounter.t) (d : dict (list string))
    (header : list string) (rows : list (list string)) :
  colname_list_dict self = Some d ->
  alias_dict self (header :: rows) = foldM (resolve_step d header) (dict_keys d) [].
Proof.
  intros Hd. unfold alias_dict, aliases. rewrite Hd. simpl.
  destruct d as [|kv d']; reflexivity.
Qed.

(** What the loop builds when every alias has a column and no two aliases
    share one. *)
Lemma resolve_loop (d : dict (list string)) (header : list string) :
  forall (als : list string) (acc : dict string),
    NoDup als ->
    (forall a, In a als ->
       exists cands col, dict_get a d = Some cands /\ first_match header cands = Ok col) ->
    (forall a b ca cb, In a als -> In b als ->
       dict_get a d = Some ca -> dict_get b d = Some cb -> a <> b ->
       first_match header ca <> first_match header cb) ->
    exists ad,
      foldM (resolve_step d header) als acc = Ok ad
      /\ (forall a cands col, In a als -> dict_get a d = Some cands ->
            first_match header cands = Ok col -> dict_get col ad = Some a)
      /\ (forall col,
            (forall a cands, In a als -> dict_get a d = Some cands ->
               first_match header cands <> Ok col) ->
            dict_get col ad = dict_get col acc).
Proof.
  induction als as [|a als IH]; intros acc Hnd Hres Hinj.
  - exists acc. simpl. repeat split; auto. intros a cands col [].
  - inversion Hnd as [|? ? Hnotin Hnd']; subst.
    destruct (Hres a (or_introl eq_refl)) as [ca [cola [Hga Hfa]]].
    destruct (IH (dict_set cola a acc) Hnd') as [ad [Hfold [Hmaps Hrest]]].
    { intros b Hb. apply Hres. right. exact Hb. }
    { intros b c cb cc Hb Hc. apply Hinj; right; assumption. }
    exists ad. split; [|split].
    + simpl. unfold resolve_step at 1, dict_item. rewrite Hga. simpl.
      rewrite Hfa. simpl. exact Hfold.
    + intros b cands col [Hb|Hb] Hgb Hfb.
      * subst b. rewrite Hga in Hgb. inversion Hgb; subst cands.
        rewrite Hfa in Hfb. inversion Hfb; subst col.
        rewrite Hrest.
        -- apply dict_get_set_same.
        -- intros c cc Hc Hgc Hfc.
           apply (Hinj a c ca cc); auto.
           ++ left; reflexivity.
           ++ right; exact Hc.
           ++ intros Heq. subst c. contradiction.
           ++ rewrite Hfa, Hfc. reflexivity.
      * apply (Hmaps b cands col Hb Hgb Hfb).
    + intros col Hcol. rewrite Hrest.
      * apply dict_get_set_other. intros Heq. subst col.
        apply (Hcol a ca (or_introl eq_refl) Hga Hfa).
      * intros b cb Hb. apply Hcol. right. exact Hb.
Qed.

(** The loop raises [StopIteration] as soon as one alias of the registry has
    no candidate among the header names. *)
Lemma resolve_loop_raises (d : dict (list string)) (header : list string) :
  forall (als : list string) (acc : dict string) (a : string) (cands : list string),
    (forall b, In b als -> In b (dict_keys d)) ->
    In a als ->
    dict_get a d = Some cands ->
    (forall col, In col header -> ~ In col cands) ->
    foldM (resolve_step d header) als acc = Raise StopIteration.
Proof.
  induction als as [|b als IH]; intros acc a cands Hkeys Hin Hget Hnone.
  - contradiction.
  - simpl. unfold resolve_step at 1, dict_item.
    destruct (dict_get_keys b d (Hkeys b (or_introl eq_refl))) as [cb Hcb].
    rewrite Hcb. simpl.
    destruct (first_match_cases header cb) as [[col Hcol]|Hr].
    + rewrite Hcol. simpl.
      destruct Hin as [Heq|Hin].
      * subst b. rewrite Hget in Hcb. inversion Hcb; subst cb.
        rewrite (first_match_none _ _ Hnone) in Hcol. discriminate.
      * apply (IH _ a cands); auto. intros c Hc. apply Hkeys. right. exact Hc.
    + rewrite Hr. reflexivity.
Qed.

(** C8. With the registry unset ([None]) [alias_dict] raises: [aliases]
    reads the keys of the registry, and [None] has none.  With an empty
    registry it returns the empty mapping, in which no alias of a counter or
    constraint is found. *)
Theorem unset_registry_resolves_nothing :
  forall files counters constraints parsed (header : list string) (rows : list (list string)),
    alias_dict (mk files None counters constraints parsed) (header :: rows)
    = Raise AttributeError
    /\ alias_dict (mk files (Some []) counters constraints parsed) (header :: rows)
       = Ok [].
Proof. intros. split; reflexivity. Qed.

End SchemaResolver.

(* ================================================================== *)
(** * The aggregator *)
(* ================================================================== *)

Section Aggregator.
Context {L : Library}.
Import MultiFileCounter.

(** ** One file at a time *)

Lemma iter_cons (self : MultiFileCounter.t) (file : csv_file) (fs : list csv_file) :
  iter self (file :: fs)
  = match run_file self file with
    | (counters, Some e) => (with_counters self counters, Some e)
    | (counters, None) => iter (file_done (with_counters self counters)) fs
    end.
Proof.
  simpl. unfold run_file.
  destruct (open_reader self file) as [r|e].
  - destruct (CleanReader.iter r) as [tups stopped].
    destruct (count_rows self tups (_counters self)) as [cs raised].
    destruct raised, stopped; reflexivity.
  - destruct self; reflexivity.
Qed.

Lemma iter_app (fs1 fs2 : list csv_file) :
  forall self : MultiFileCounter.t,
    iter self (fs1 ++ fs2)
    = match iter self fs1 with
      | (self', None) => iter self' fs2
      | (self', Some e) => (self', Some e)
      end.
Proof.
  induction fs1 as [|f fs1 IH]; intros self.
  - reflexivity.
  - rewrite <- app_comm_cons, !iter_cons.
    destruct (run_file self f) as [cs [e|]]; [reflexivity | apply IH].
Qed.

(** A run changes neither the registry nor the constraints. *)
Lemma iter_keeps_configuration (fs : list csv_file) :
  forall self : MultiFileCounter.t,
    colname_list_dict (fst (iter self fs)) = colname_list_dict self
    /\ _constraints (fst (iter self fs)) = _constraints self
    /\ files (fst (iter self fs)) = files self.
Proof.
  induction fs as [|f fs IH]; intros self.
  - simpl. auto.
  - rewrite iter_cons. destruct (run_file self f) as [cs [e|]].
    + simpl. auto.
    + destruct (IH (file_done (with_counters self cs))) as [H1 [H2 H3]].
      rewrite H1, H2, H3. simpl. auto.
Qed.

Lemma open_reader_registry (s1 s2 : MultiFileCounter.t) (file : csv_file) :
  colname_list_dict s1 = colname_list_dict s2 ->
  open_reader s1 file = open_reader s2 file.
Proof.
  intros Heq. unfold open_reader, colname_dict, alias_dict, aliases.
  rewrite Heq. reflexivity.
Qed.

Lemma constraints_satisfied_constraints (s1 s2 : MultiFileCounter.t) (row : CleanReader.RowTup) :
  _constraints s1 = _constraints s2 ->
  constraints_satisfied s1 row = constraints_satisfied s2 row.
Proof. intros Heq. unfold constraints_satisfied. rewrite Heq. reflexivity. Qed.


(** ** A header without a candidate *)

Lemma open_reader_raises (self : MultiFileCounter.t) (d : dict (list string))
    (header : list string) (rows : list (list string)) (alias : string)
    (cands : list string) :
  colname_list_dict self = Some d ->
  dict_get alias d = Some cands ->
  (forall col, In col header -> ~ In col cands) ->
  open_reader self (header :: rows) = Raise StopIteration.
Proof.
  intros Hd Hget Hnone. unfold open_reader.
  rewrite (alias_dict_registry self header rows Hd).
  rewrite (@resolve_loop_raises d header (dict_keys d) [] alias cands); auto.
  apply dict_get_In in Hget. change alias with (fst (alias, cands)).
  apply in_map, Hget.
Qed.

(** C3, as amended.  When the header of a file has no candidate for an alias
    of the registry, whether or not a counter or a constraint uses the
    alias, the run fails at that file: it ends with the instance as the
    files before it left it, so no row of the file (or of a later file) is
    counted.  The exception is a [RuntimeError]: the code has no exception
    of its own for a header without a candidate, the [StopIteration] of the
    failed [next(...)] leaves the generator as a [RuntimeError], as it does
    for an empty file.  A run that an earlier file had already stopped
    keeps that file's exception. *)
Theorem missing_candidate_stops_the_run :
  forall (self : MultiFileCounter.t) (before after : list csv_file)
         (header : list string) (rows : list (list string))
         (d : dict (list string)) (alias : string) (cands : list string),
    files self = (before ++ (header :: rows) :: after)%list ->
    colname_list_dict self = Some d ->
    dict_get alias d = Some cands ->
    (forall col, In col header -> ~ In col cands) ->
    count self
    = (fst (iter self before),
       Some match snd (iter self before) with
            | Some e => e
            | None => RuntimeError
            end).
Proof.
  intros self before after header rows d alias cands Hfiles Hd Hget Hnone.
  unfold count. rewrite Hfiles, iter_app.
  destruct (iter_keeps_configuration before self) as [Hreg _].
  destruct (iter self before) as [self' [e|]]; cbn [fst snd] in *.
  - reflexivity.
  - rewrite iter_cons. unfold run_file.
    rewrite (@open_reader_raises self' d header rows alias cands); auto.
    + destruct self'; reflexivity.
    + rewrite Hreg. exact Hd.
Qed.

(** ** Splitting a file *)



Lemma count_rows_app (self : MultiFileCounter.t) (t1 t2 : list CleanReader.RowTup) :
  forall cs,
    count_rows self (t1 ++ t2) cs
    = match count_rows self t1 cs with
      | (cs1, Some e) => (cs1, Some e)
      | (cs1, None) => count_rows self t2 cs1
      end.
Proof.
  induction t1 as [|row t1 IH]; intros cs; simpl.
  - reflexivity.
  - destruct (constraints_satisfied self row) as [[|]|e]; try reflexivity.
    + destruct (update_counters row (dict_keys cs) cs) as [cs' [e|]]; [reflexivity | apply IH].
    + apply IH.
Qed.





(** ** Running twice *)

Lemma get_incr (counter : ExtendedCounter.t) (item item' : string) :
  ExtendedCounter.get (ExtendedCounter.incr item counter) item'
  = ExtendedCounter.get counter item' + (if String.eqb item' item then 1 else 0).
Proof.
  unfold ExtendedCounter.incr, ExtendedCounter.get at 1.
  rewrite dict_get_set. destruct (String.eqb item' item) eqn:E.
  - apply String.eqb_eq in E. subst item'. reflexivity.
  - unfold ExtendedCounter.get. lia.
Qed.

Lemma counted_set (counters : dict ExtendedCounter.t) (alias item : string)
    (counter : ExtendedCounter.t) (alias' item' : string) :
  dict_get alias counters = Some counter ->
  counted (dict_set alias (ExtendedCounter.incr item counter) counters) alias' item'
  = counted counters alias' item'
    + (if String.eqb alias' alias && String.eqb item' item then 1 else 0).
Proof.
  intros Hget. unfold counted. rewrite dict_get_set.
  destruct (String.eqb alias' alias) eqn:E; simpl.
  - apply String.eqb_eq in E. subst alias'. rewrite Hget. apply get_incr.
  - lia.
Qed.

Lemma same_keys_get (A B : dict ExtendedCounter.t) (alias : string) :
  dict_keys A = dict_keys B ->
  (exists a b, dict_get alias A = Some a /\ dict_get alias B = Some b)
  \/ (dict_get alias A = None /\ dict_get alias B = None).
Proof.
  intros Hkeys.
  destruct (dict_get alias A) as [a|] eqn:EA; destruct (dict_get alias B) as [b|] eqn:EB.
  - left. eauto.
  - exfalso. apply dict_get_In in EA.
    assert (Hin : In alias (dict_keys B)).
    { rewrite <- Hkeys. change alias with (fst (alias, a)). apply in_map, EA. }
    destruct (dict_get_keys alias B Hin) as [b Hb]. congruence.
  - exfalso. apply dict_get_In in EB.
    assert (Hin : In alias (dict_keys A)).
    { rewrite Hkeys. change alias with (fst (alias, b)). apply in_map, EB. }
    destruct (dict_get_keys alias A Hin) as [a Ha]. congruence.
  - right. auto.
Qed.

Lemma update_counters_keys (row : CleanReader.RowTup) (als : list string) :
  forall C, dict_keys (fst (update_counters row als C)) = dict_keys C.
Proof.
  induction als as [|alias als IH]; intros C; simpl; [reflexivity|].
  unfold dict_item. destruct (dict_get alias C) as [c|] eqn:Ec; [|reflexivity].
  destruct (CleanReader.getattr row alias) as [item|e]; [|reflexivity].
  rewrite IH. apply (dict_keys_set_present _ _ _ Ec).
Qed.

Lemma update_counters_shifted (delta : string -> string -> Z)
    (row : CleanReader.RowTup) (als : list string) :
  forall A B,
    shifted delta A B ->
    snd (update_counters row als B) = snd (update_counters row als A)
    /\ shifted delta (fst (update_counters row als A)) (fst (update_counters row als B)).
Proof.
  induction als as [|alias als IH]; intros A B Hs; simpl; [auto|].
  destruct Hs as [Hkeys Hcount]. unfold dict_item.
  destruct (same_keys_get A B alias Hkeys) as [[a [b [Ha Hb]]]|[Ha Hb]];
    rewrite Ha, Hb; [|split; [reflexivity | split; assumption]].
  destruct (CleanReader.getattr row alias) as [item|e];
    [|split; [reflexivity | split; assumption]].
  apply IH. split.
  - rewrite (dict_keys_set_present _ _ _ Ha), (dict_keys_set_present _ _ _ Hb). exact Hkeys.
  - intros alias' item'.
    rewrite (counted_set _ _ item alias' item' Ha), (counted_set _ _ item alias' item' Hb), Hcount.
    lia.
Qed.

Lemma count_rows_keys (self : MultiFileCounter.t) (rows : list CleanReader.RowTup) :
  forall C, dict_keys (fst (count_rows self rows C)) = dict_keys C.
Proof.
  induction rows as [|row rows IH]; intros C; simpl; [reflexivity|].
  destruct (constraints_satisfied self row) as [[|]|e]; [| apply IH | reflexivity].
  pose proof (update_counters_keys row (dict_keys C) C) as Hk.
  destruct (update_counters row (dict_keys C) C) as [C' [e|]]; simpl in *; [exact Hk|].
  rewrite IH. exact Hk.
Qed.

Lemma count_rows_shifted (delta : string -> string -> Z) (s1 s2 : MultiFileCounter.t)
    (rows : list CleanReader.RowTup) :
  _constraints s1 = _constraints s2 ->
  forall A B,
    shifted delta A B ->
    snd (count_rows s2 rows B) = snd (count_rows s1 rows A)
    /\ shifted delta (fst (count_rows s1 rows A)) (fst (count_rows s2 rows B)).
Proof.
  intros Hcons. induction rows as [|row rows IH]; intros A B Hs; simpl; [auto|].
  rewrite (constraints_satisfied_constraints s1 s2 row Hcons).
  destruct (constraints_satisfied s2 row) as [[|]|e]; [| apply IH, Hs | auto].
  destruct Hs as [Hkeys Hcount]. rewrite <- Hkeys.
  destruct (update_counters_shifted row (dict_keys A) (conj Hkeys Hcount)) as [He Hs'].
  destruct (update_counters row (dict_keys A) A) as [A' eA].
  destruct (update_counters row (dict_keys A) B) as [B' eB].
  simpl in He, Hs'. subst eB. destruct eA as [e|]; [auto | apply IH, Hs'].
Qed.

Lemma run_file_keys (self : MultiFileCounter.t) (file : csv_file) :
  dict_keys (fst (run_file self file)) = dict_keys (_counters self).
Proof.
  unfold run_file. destruct (open_reader self file) as [r|e]; [|reflexivity].
  destruct (CleanReader.iter r) as [tups stopped].
  pose proof (count_rows_keys self tups (_counters self)) as Hk.
  destruct (count_rows self tups (_counters self)) as [cs raised]. exact Hk.
Qed.

Lemma run_file_shifted (delta : string -> string -> Z) (s1 s2 : MultiFileCounter.t)
    (file : csv_file) :
  colname_list_dict s1 = colname_list_dict s2 ->
  _constraints s1 = _constraints s2 ->
  shifted delta (_counters s1) (_counters s2) ->
  snd (run_file s2 file) = snd (run_file s1 file)
  /\ shifted delta (fst (run_file s1 file)) (fst (run_file s2 file)).
Proof.
  intros Hreg Hcons Hs. unfold run_file.
  rewrite (open_reader_registry s1 s2 file Hreg).
  destruct (open_reader s2 file) as [r|e]; [|auto].
  destruct (CleanReader.iter r) as [tups stopped].
  destruct (count_rows_shifted s1 s2 tups Hcons Hs) as [He Hs'].
  destruct (count_rows s1 tups (_counters s1)) as [A' eA].
  destruct (count_rows s2 tups (_counters s2)) as [B' eB].
  simpl in He, Hs'. subst eB. auto.
Qed.

Lemma iter_keys (fs : list csv_file) :
  forall self : MultiFileCounter.t,
    dict_keys (_counters (fst (iter self fs))) = dict_keys (_counters self).
Proof.
  induction fs as [|f fs IH]; intros self; [reflexivity|].
  rewrite iter_cons. pose proof (run_file_keys self f) as Hk.
  destruct (run_file self f) as [cs [e|]]; simpl in Hk.
  - exact Hk.
  - rewrite IH. exact Hk.
Qed.

(** Two runs over the same files, from instances with the same registry
    and constraints whose counters differ by [delta], end alike, with
    counters that still differ by [delta]. *)
Lemma iter_shifted (delta : string -> string -> Z) (fs : list csv_file) :
  forall s1 s2 : MultiFileCounter.t,
    colname_list_dict s1 = colname_list_dict s2 ->
    _constraints s1 = _constraints s2 ->
    shifted delta (_counters s1) (_counters s2) ->
    snd (iter s2 fs) = snd (iter s1 fs)
    /\ shifted delta (_counters (fst (iter s1 fs))) (_counters (fst (iter s2 fs))).
Proof.
  induction fs as [|f fs IH]; intros s1 s2 Hreg Hcons Hs; [simpl; auto|].
  rewrite !iter_cons.
  destruct (run_file_shifted s1 s2 f Hreg Hcons Hs) as [He Hs'].
  destruct (run_file s1 f) as [A' eA]. destruct (run_file s2 f) as [B' eB].
  simpl in He, Hs'. subst eB. destruct eA as [e|]; [simpl; auto|].
  apply IH; auto.
Qed.



(** C10. [add_counter] leaves an empty counter at the alias, whatever the
    instance held there before, and touches nothing else: the counters of
    the other aliases, the registry, the constraints and the number of
    files parsed stay as they were. *)
Theorem add_counter_registers_an_empty_counter :
  forall (alias : string) (self : MultiFileCounter.t),
    dict_get alias (_counters (add_counter alias self)) = Some ExtendedCounter.empty
    /\ (forall other, other <> alias ->
          dict_get other (_counters (add_counter alias self))
          = dict_get other (_counters self))
    /\ colname_list_dict (add_counter alias self) = colname_list_dict self
    /\ _constraints (add_counter alias self) = _constraints self
    /\ _files_parsed (add_counter alias self) = _files_parsed self
    /\ files (add_counter alias self) = files self.
Proof.
  intros alias self. unfold add_counter. simpl.
  split; [apply dict_get_set_same|].
  split; [intros other Hne; apply dict_get_set_other, Hne|].
  auto.
Qed.

End Aggregator.

(* ================================================================== *)
(** * The row reader *)
(* ================================================================== *)

Section FoldFacts.
Variables A B : Type.
Variable f : A -> B -> A.

Lemma fold_left_invariant (P : A -> Prop) (l : list B) :
  forall a, P a -> (forall a b, In b l -> P a -> P (f a b)) -> P (fold_left f l a).
Proof.
  induction l as [|b l IH]; intros a Ha Hstep; simpl.
  - exact Ha.
  - apply IH.
    + apply Hstep; [left; reflexivity | exact Ha].
    + intros a' b' Hb'. apply Hstep. right. exact Hb'.
Qed.
End FoldFacts.

Section MapMResults.
Variables A B : Type.
Variable f : A -> result B.

Lemma mapM_all_Ok (xs : list A) :
  (forall x, In x xs -> exists y, f x = Ok y) -> exists ys, mapM f xs = Ok ys.
Proof.
  induction xs as [|x xs IH]; intros Hall; simpl.
  - eauto.
  - destruct (Hall x (or_introl eq_refl)) as [y Hy]. rewrite Hy.
    destruct IH as [ys Hys]; [intros z Hz; apply Hall; right; exact Hz|].
    rewrite Hys. eauto.
Qed.

(** When the elements can only raise [e], and one of them does, the
    comprehension raises [e]. *)
Lemma mapM_raises_only (e : exn) (xs : list A) :
  (forall x, In x xs -> (exists y, f x = Ok y) \/ f x = Raise e) ->
  (exists x, In x xs /\ f x = Raise e) ->
  mapM f xs = Raise e.
Proof.
  induction xs as [|x xs IH]; intros Hall [x0 [Hin Hx0]]; simpl.
  - contradiction.
  - destruct (Hall x (or_introl eq_refl)) as [[y Hy]|Hr].
    + rewrite Hy. rewrite IH; [reflexivity | |].
      * intros z Hz. apply Hall. right. exact Hz.
      * destruct Hin as [Heq|Hin]; [subst x0; congruence | eauto].
    + rewrite Hr. reflexivity.
Qed.
End MapMResults.

Lemma combine_keys (V : Type) (keys : list string) (vals : list V) :
  map fst (combine keys vals) = firstn (List.length vals) keys.
Proof.
  revert vals. induction keys as [|k keys IH]; intros vals; simpl.
  - destruct (List.length vals); reflexivity.
  - destruct vals as [|v vals]; simpl; [reflexivity|]. rewrite IH. reflexivity.
Qed.

Section DictReader.
Import CleanReader.

Variable fieldnames row : list string.

Local Abbreviation zipped := (zipped_items fieldnames row).
Local Abbreviation missing := (missing_fields fieldnames row).

Lemma zipped_values (kv : string * option string) :
  In kv zipped -> exists entry, snd kv = Some entry /\ In entry row.
Proof.
  destruct kv as [k v]. intros Hin. apply in_combine_r in Hin.
  apply in_map_iff in Hin. destruct Hin as [entry [Heq Hin]]. simpl. eauto.
Qed.

Lemma zipped_keys : map fst zipped = firstn (List.length row) fieldnames.
Proof.
  unfold zipped. rewrite combine_keys, length_map. reflexivity.
Qed.

(** A key that is set stays in the dict through later assignments. *)
Lemma fold_set_keeps (V : Type) (items : list (string * V)) (k : string) :
  forall d : dict V,
    (exists v, dict_get k d = Some v) ->
    exists v, dict_get k (fold_left (fun d kv => dict_set (fst kv) (snd kv) d) items d) = Some v.
Proof.
  intros d Hd. apply fold_left_invariant; [exact Hd|].
  intros d' kv _ [v Hv]. rewrite dict_get_set.
  destruct (String.eqb k (fst kv)); eauto.
Qed.

Lemma fold_set_has (V : Type) (items : list (string * V)) (k : string) :
  forall d : dict V,
    In k (map fst items) ->
    exists v, dict_get k (fold_left (fun d kv => dict_set (fst kv) (snd kv) d) items d) = Some v.
Proof.
  induction items as [|kv items IH]; intros d Hin; simpl in *.
  - contradiction.
  - destruct (String.eqb k (fst kv)) eqn:E.
    + apply fold_set_keeps. rewrite dict_get_set, E. eauto.
    + apply IH. destruct Hin as [Heq|Hin]; [|exact Hin].
      subst k. rewrite String.eqb_refl in E. discriminate.
Qed.

(** The entry of a column the row is too short for is [None]. *)
Lemma missing_is_None (col : string) :
  In col missing -> dict_get col (DictReader_row fieldnames row) = Some None.
Proof.
  unfold DictReader_row. fold zipped. fold missing.
  generalize (dict_of_items zipped). induction missing as [|m ms IH]; intros d Hin; simpl.
  - contradiction.
  - destruct (in_dec string_dec col ms) as [Hms|Hms].
    + apply IH, Hms.
    + destruct Hin as [Heq|Hin]; [subst m | contradiction].
      apply fold_left_invariant.
      * apply dict_get_set_same.
      * intros d' key _ Hd'. rewrite dict_get_set.
        destruct (String.eqb col key); [reflexivity | exact Hd'].
Qed.

(** Every other entry is a field of the row. *)
Lemma present_is_field (col : string) (v : option string) :
  dict_get col (DictReader_row fieldnames row) = Some v ->
  (v = None /\ In col missing) \/ (exists entry, v = Some entry /\ In entry row).
Proof.
  unfold DictReader_row. fold zipped. fold missing. revert col v.
  apply fold_left_invariant.
  - unfold dict_of_items. apply fold_left_invariant.
    + intros col v Hget. discriminate.
    + intros d kv Hkv Hd col v. rewrite dict_get_set.
      destruct (String.eqb col (fst kv)); [|apply Hd].
      intros Heq. inversion Heq; subst v. right.
      destruct (zipped_values kv Hkv) as [entry [He Hin]]. eauto.
  - intros d key Hkey Hd col v. rewrite dict_get_set.
    destruct (String.eqb col key) eqn:E; [|apply Hd].
    intros Heq. inversion Heq; subst v. left.
    apply String.eqb_eq in E. subst key. auto.
Qed.

(** Every column of the header has an entry. *)
Lemma fieldname_has_entry (col : string) :
  In col fieldnames -> exists v, dict_get col (DictReader_row fieldnames row) = Some v.
Proof.
  intros Hin. rewrite <- (firstn_skipn (List.length row) fieldnames) in Hin.
  apply in_app_or in Hin. destruct Hin as [Hfirst|Hmiss].
  - unfold DictReader_row. fold zipped.
    apply fold_left_invariant.
    + unfold dict_of_items. apply fold_set_has. rewrite zipped_keys. exact Hfirst.
    + intros d key _ [v Hv]. rewrite dict_get_set.
      destruct (String.eqb col key); eauto.
  - rewrite (missing_is_None col Hmiss). eauto.
Qed.

(** The fields beyond the header are not read. *)
Lemma DictReader_row_long :
  (List.length fieldnames <= List.length row)%nat ->
  DictReader_row fieldnames row
  = DictReader_row fieldnames (firstn (List.length fieldnames) row).
Proof.
  intros Hlen. unfold DictReader_row.
  rewrite (skipn_all2 fieldnames Hlen).
  rewrite length_firstn, Nat.min_l by exact Hlen.
  rewrite skipn_all.
  rewrite <- firstn_map.
  rewrite <- (length_map (@Some string)) in Hlen.
  rewrite (combine_firstn_l fieldnames (map (@Some string) row)) at 1.
  reflexivity.
Qed.

End DictReader.

Section RowReader.
Import CleanReader.

Lemma preprocess_seven_bit (self : CleanReader.t) (entry : string) :
  seven_bit entry -> exists cleaned, preprocess_text self (Some entry) = Ok cleaned.
Proof.
  intros Hascii. unfold preprocess_text, encode_ascii.
  destruct (preprocessing self); simpl.
  - rewrite Hascii. simpl. eauto.
  - eauto.
  - eauto.
Qed.

(** C9, as amended.  [CleanReader] does not compare the number of columns
    of a row with that of the header.  For a row of 7-bit entries and
    selected columns that are columns of the header:
    - the row is read without an exception when each selected column has a
      field in it, whatever its length;
    - the fields beyond the header's length are ignored;
    - a row too short to have a field for some selected column raises
      [AttributeError], and when the row is not empty that exception ends
      the iteration of the reader, in the hands of its caller;
    - an empty row is passed over. *)
Theorem row_length_is_not_checked :
  forall (self : CleanReader.t) (fieldnames row : list string),
    incl (cols self) fieldnames ->
    Forall seven_bit row ->
    ((forall col, In col (cols self) -> ~ In col (skipn (List.length row) fieldnames)) ->
       exists tup, read_row self fieldnames row = Ok tup)
    /\ ((List.length fieldnames <= List.length row)%nat ->
          read_row self fieldnames row
          = read_row self fieldnames (firstn (List.length fieldnames) row))
    /\ ((exists col, In col (cols self) /\ In col (skipn (List.length row) fieldnames)) ->
          read_row self fieldnames row = Raise AttributeError
          /\ (row <> [] ->
              forall rows, read_rows self fieldnames (row :: rows) = ([], Some AttributeError)))
    /\ (forall rows, read_rows self fieldnames ([] :: rows) = read_rows self fieldnames rows).
Proof.
  intros self fieldnames row Hcols Hascii.
  assert (Hcol : forall col, In col (cols self) ->
                 (exists cleaned,
                     (entry <- dict_item col (DictReader_row fieldnames row) ;;
                      preprocess_text self entry) = Ok cleaned
                     /\ ~ In col (skipn (List.length row) fieldnames))
                 \/ ((entry <- dict_item col (DictReader_row fieldnames row) ;;
                      preprocess_text self entry) = Raise AttributeError
                     /\ In col (skipn (List.length row) fieldnames))).
  { intros col Hin. unfold dict_item.
    destruct (fieldname_has_entry fieldnames row col (Hcols col Hin)) as [v Hv].
    rewrite Hv. simpl.
    destruct (present_is_field fieldnames row col Hv) as [[Hnone Hmiss]|[entry [Hsome Hrow]]].
    - subst v. right. split; [reflexivity | exact Hmiss].
    - subst v. left. rewrite Forall_forall in Hascii.
      destruct (preprocess_seven_bit self (Hascii entry Hrow)) as [cleaned Hc].
      exists cleaned. split; [exact Hc|].
      intros Hmiss. rewrite (missing_is_None fieldnames row col Hmiss) in Hv. discriminate. }
  split; [|split; [|split]].
  - intros Hpresent. unfold read_row.
    destruct (mapM_all_Ok (fun col => entry <- dict_item col (DictReader_row fieldnames row) ;;
                                      preprocess_text self entry) (cols self)) as [ys Hys].
    + intros col Hin. destruct (Hcol col Hin) as [[cleaned [Hc _]]|[_ Hmiss]].
      * eauto.
      * exfalso. apply (Hpresent col Hin Hmiss).
    + rewrite Hys. simpl. eauto.
  - intros Hlen. unfold read_row. rewrite <- (DictReader_row_long fieldnames row Hlen).
    reflexivity.
  - intros [col [Hin Hmiss]].
    assert (Hraise : read_row self fieldnames row = Raise AttributeError).
    { unfold read_row. rewrite (@mapM_raises_only _ _ _ AttributeError (cols self)); [reflexivity| |].
      - intros c Hc. destruct (Hcol c Hc) as [[cleaned [Hok _]]|[Hr _]]; eauto.
      - exists col. split; [exact Hin|].
        destruct (Hcol col Hin) as [[cleaned [_ Hnot]]|[Hr _]]; [contradiction | exact Hr]. }
    split; [exact Hraise|].
    intros Hne rows. destruct row as [|x row']; [contradiction|].
    simpl. rewrite Hraise. reflexivity.
  - intros rows. reflexivity.
Qed.

End RowReader.

(* ================================================================== *)
(** * The report *)
(* ================================================================== *)

Section SortedFacts.
Variable A : Type.
Variable le : A -> A -> bool.

Local Abbreviation R := (le_holds le).

Lemma insert_perm (x : A) (l : list A) : Permutation (insert le x l) (x :: l).
Proof.
  induction l as [|y l IH]; simpl.
  - apply Permutation_refl.
  - destruct (le x y).
    + apply Permutation_refl.
    + apply perm_trans with (y :: x :: l).
      * apply perm_skip, IH.
      * apply perm_swap.
Qed.

Lemma sorted_perm (l : list A) : Permutation (sorted le l) l.
Proof.
  induction l as [|x l IH]; simpl.
  - apply perm_nil.
  - apply perm_trans with (x :: sorted le l).
    + apply insert_perm.
    + apply perm_skip, IH.
Qed.

Hypothesis le_total : forall a b, le a b = true \/ le b a = true.
Hypothesis le_trans : forall a b c, le a b = true -> le b c = true -> le a c = true.

Lemma insert_sorted (x : A) (l : list A) :
  StronglySorted R l -> StronglySorted R (insert le x l).
Proof.
  induction l as [|y l IH]; simpl; intros Hs.
  - constructor; constructor.
  - inversion Hs as [|? ? Hs' Hall]; subst.
    destruct (le x y) eqn:Exy.
    + constructor; [exact Hs|]. constructor; [exact Exy|].
      rewrite Forall_forall in *. intros z Hz. apply (@le_trans x y z Exy), Hall, Hz.
    + constructor; [apply IH, Hs'|].
      apply (Permutation_Forall (Permutation_sym (insert_perm x l))).
      constructor; [|exact Hall].
      destruct (le_total x y) as [H|H]; [congruence | exact H].
Qed.

Lemma sorted_sorted (l : list A) : StronglySorted R (sorted le l).
Proof.
  induction l as [|x l IH]; simpl.
  - constructor.
  - apply insert_sorted, IH.
Qed.

(** In a sorted list, what is among the first [k] goes before what is not. *)
Lemma sorted_firstn_skipn (k : nat) (l : list A) :
  StronglySorted R l ->
  forall x y, In x (firstn k l) -> In y (skipn k l) -> le x y = true.
Proof.
  revert l. induction k as [|k IH]; intros l Hs x y Hx Hy.
  - contradiction.
  - destruct l as [|z l]; [contradiction|].
    inversion Hs as [|? ? Hs' Hall]; subst. simpl in Hx, Hy.
    destruct Hx as [Heq|Hx].
    + subst z. rewrite Forall_forall in Hall. apply Hall.
      rewrite <- (firstn_skipn k l). apply in_or_app. right. exact Hy.
    + apply (IH l Hs' x y Hx Hy).
Qed.
End SortedFacts.

Section StringOrder.

Lemma string_leb_trans (a b c : string) :
  String.leb a b = true -> String.leb b c = true -> String.leb a c = true.
Proof.
  unfold String.leb. revert b c.
  induction a as [|x a IH]; intros [|y b] [|z c]; simpl; try congruence.
  unfold Ascii.compare.
  destruct (N.compare_spec (N_of_ascii x) (N_of_ascii y)) as [Hxy|Hxy|Hxy];
    destruct (N.compare_spec (N_of_ascii y) (N_of_ascii z)) as [Hyz|Hyz|Hyz];
    destruct (N.compare_spec (N_of_ascii x) (N_of_ascii z)) as [Hxz|Hxz|Hxz];
    try congruence; try lia; apply IH.
Qed.

Lemma lower_upper_char (c : ascii) :
  lower_char c = c -> lower_char (upper_char c) = c.
Proof.
  destruct c as [[] [] [] [] [] [] [] []]; vm_compute; congruence.
Qed.

(** Upper-casing a lower-case value loses nothing: [lower] gives it back. *)
Lemma lower_upper (s : string) : lower s = s -> lower (upper s) = s.
Proof.
  unfold lower, upper. induction s as [|c s IH]; simpl; intros Heq.
  - reflexivity.
  - injection Heq as Hc Hs. rewrite (lower_upper_char Hc), (IH Hs). reflexivity.
Qed.

End StringOrder.

(** ** The percentage of a count that is part of the total *)

Section FloatFacts.

Lemma pow2_le_1 (k : Z) : k <= 0 -> 2 ^ k <= 1.
Proof.
  intros Hk. destruct k as [|k|k]; [simpl; lia | lia | rewrite Z.pow_neg_r; lia].
Qed.

Lemma pow2_double (k : Z) : 0 < k -> 2 ^ k = 2 * 2 ^ (k - 1).
Proof.
  intros Hk. replace k with (Z.succ (k - 1)) at 1 by lia.
  apply Z.pow_succ_r. lia.
Qed.

Lemma digits2_pos_bound (p : positive) :
  forall k, Zpos p < 2 ^ k -> Zpos (digits2_pos p) <= k.
Proof.
  induction p as [p IH|p IH|]; intros k Hlt; simpl;
    (destruct (Z.le_gt_cases k 0) as [Hle|Hgt];
     [pose proof (pow2_le_1 Hle); lia|]).
  - rewrite (pow2_double Hgt) in Hlt.
    specialize (IH (k - 1)). rewrite Pos2Z.inj_succ. rewrite Pos2Z.inj_xI in Hlt. lia.
  - rewrite (pow2_double Hgt) in Hlt.
    specialize (IH (k - 1)). rewrite Pos2Z.inj_succ. rewrite Pos2Z.inj_xO in Hlt. lia.
  - lia.
Qed.

Lemma Zdigits2_bound (m k : Z) : 0 <= k -> 0 <= m < 2 ^ k -> Zdigits2 m <= k.
Proof.
  intros Hk [Hm Hlt]. destruct m as [|p|p]; simpl; [exact Hk | | lia].
  apply digits2_pos_bound, Hlt.
Qed.

Lemma shr_1_m (mrs : shr_record) : 0 <= shr_m mrs -> shr_m (shr_1 mrs) = shr_m mrs / 2.
Proof.
  destruct mrs as [m r s]. simpl. intros Hm.
  rewrite <- Z.div2_div.
  destruct m as [|[p|p|]|p]; try reflexivity; lia.
Qed.

Lemma iter_shr_m (p : positive) :
  forall mrs, 0 <= shr_m mrs -> shr_m (iter_pos shr_1 p mrs) = shr_m mrs / 2 ^ Zpos p.
Proof.
  induction p as [p IH|p IH|]; intros mrs Hm; simpl iter_pos.
  - assert (H1 : 0 <= shr_m (shr_1 mrs)) by (rewrite shr_1_m by assumption; apply Z.div_pos; lia).
    assert (H2 : 0 <= shr_m (iter_pos shr_1 p (shr_1 mrs))).
    { rewrite IH by assumption. apply Z.div_pos; [assumption | apply Z.pow_pos_nonneg; lia]. }
    assert (E : 2 ^ Zpos p~1 = 2 * 2 ^ Zpos p * 2 ^ Zpos p).
    { rewrite Pos2Z.inj_xI. replace (2 * Zpos p + 1) with (1 + Zpos p + Zpos p) by lia.
      rewrite !Z.pow_add_r by lia. reflexivity. }
    rewrite IH, IH, shr_1_m, E by assumption.
    rewrite !Z.div_div by (try apply Z.pow_pos_nonneg; lia).
    f_equal. ring.
  - assert (H2 : 0 <= shr_m (iter_pos shr_1 p mrs)).
    { rewrite IH by assumption. apply Z.div_pos; [assumption | apply Z.pow_pos_nonneg; lia]. }
    assert (E : 2 ^ Zpos p~0 = 2 ^ Zpos p * 2 ^ Zpos p).
    { replace (Zpos p~0) with (Zpos p + Zpos p) by lia.
      rewrite Z.pow_add_r by lia. reflexivity. }
    rewrite IH, IH, E by assumption.
    rewrite !Z.div_div by (try apply Z.pow_pos_nonneg; lia).
    reflexivity.
  - rewrite shr_1_m by assumption. reflexivity.
Qed.

Lemma shr_fexp_spec (m e : Z) (l : location) :
  0 <= m ->
  snd (shr_fexp prec emax m e l) = Z.max e (fexp prec emax (Zdigits2 m + e))
  /\ shr_m (fst (shr_fexp prec emax m e l))
     = m / 2 ^ (snd (shr_fexp prec emax m e l) - e).
Proof.
  intros Hm. unfold shr_fexp, shr.
  assert (Hrec : shr_m (shr_record_of_loc m l) = m) by (destruct l as [|[]]; reflexivity).
  destruct (fexp prec emax (Zdigits2 m + e) - e) as [|p|p] eqn:En; simpl fst; simpl snd.
  - split; [lia|]. rewrite Z.sub_diag, Z.div_1_r. exact Hrec.
  - split; [lia|]. rewrite iter_shr_m by lia. rewrite Hrec. f_equal. f_equal. lia.
  - split; [lia|]. rewrite Z.sub_diag, Z.div_1_r. exact Hrec.
Qed.

Lemma round_nearest_even_bounds (m : Z) (l : location) :
  m <= round_nearest_even m l <= m + 1.
Proof.
  unfold round_nearest_even. destruct l as [|[]]; try lia.
  destruct (Z.even m); lia.
Qed.

Lemma fexp_small (x : Z) : x <= 2 -> fexp prec emax x <= 0.
Proof. unfold fexp, emin, prec, emax. lia. Qed.

(** A mantissa and exponent that stand for a number at most one do not
    round to an infinity. *)
Lemma binary_round_aux_finite (s : bool) (m e k : Z) (l : location) :
  0 <= m <= 2 ^ k -> 0 <= k -> e + k <= 0 ->
  forall s', binary_round_aux prec emax s m e l <> S754_infinity s'.
Proof.
  intros [Hm Hmk] Hk Hek s'.
  unfold binary_round_aux.
  destruct (shr_fexp_spec e l Hm) as [He' Hm'].
  destruct (shr_fexp prec emax m e l) as [mrs' e']. simpl in He', Hm'.
  set (m1 := round_nearest_even (shr_m mrs') (loc_of_shr_record mrs')).
  assert (Hdiv : 0 <= shr_m mrs').
  { rewrite Hm'. apply Z.div_pos; [exact Hm | apply Z.pow_pos_nonneg; lia]. }
  pose proof (round_nearest_even_bounds (shr_m mrs') (loc_of_shr_record mrs')) as Hround.
  fold m1 in Hround.
  assert (Hdm : Zdigits2 m <= k + 1).
  { apply Zdigits2_bound; [lia|]. split; [exact Hm|].
    rewrite Z.pow_add_r by lia. change (2 ^ 1) with 2.
    pose proof (Z.pow_pos_nonneg 2 k). lia. }
  assert (He0 : e' <= 0).
  { pose proof (@fexp_small (Zdigits2 m + e)). lia. }
  assert (Hd1 : Zdigits2 m1 + e' <= 2).
  { destruct (Z.le_gt_cases (e' - e) k) as [Hj|Hj].
    - assert (shr_m mrs' <= 2 ^ (k - (e' - e))).
      { rewrite Hm'. apply Z.div_le_upper_bound; [apply Z.pow_pos_nonneg; lia|].
        rewrite <- Z.pow_add_r by lia. replace (e' - e + (k - (e' - e))) with k by lia.
        exact Hmk. }
      assert (Zdigits2 m1 <= k - (e' - e) + 2); [|lia].
      apply Zdigits2_bound; [lia|]. split; [lia|].
      replace (k - (e' - e) + 2) with (2 + (k - (e' - e))) by lia.
      rewrite Z.pow_add_r by lia. change (2 ^ 2) with 4.
      pose proof (Z.pow_pos_nonneg 2 (k - (e' - e))). lia.
    - assert (shr_m mrs' = 0).
      { rewrite Hm'. apply Z.div_small. split; [exact Hm|].
        apply Z.le_lt_trans with (2 ^ k); [exact Hmk|].
        apply Z.pow_lt_mono_r; lia. }
      assert (Zdigits2 m1 <= 1); [|lia].
      apply Zdigits2_bound; [lia|]. change (2 ^ 1) with 2. lia. }
  assert (Hm1 : 0 <= m1) by lia.
  destruct (shr_fexp_spec e' loc_Exact Hm1) as [He'' _].
  destruct (shr_fexp prec emax m1 e' loc_Exact) as [mrs'' e'']. simpl in He''.
  assert (He2 : e'' <= emax - prec).
  { pose proof (@fexp_small (Zdigits2 m1 + e')). unfold emax, prec. lia. }
  apply Z.leb_le in He2.
  destruct (shr_m mrs''); [discriminate | rewrite He2; discriminate | discriminate].
Qed.

Lemma int_true_div_fraction (a b : Z) :
  0 < a <= b -> exists f, int_true_div a b = Ok f.
Proof.
  intros [Ha Hab]. unfold int_true_div.
  replace (b =? 0) with false by (symmetry; apply Z.eqb_neq; lia).
  replace (a =? 0) with false by (symmetry; apply Z.eqb_neq; lia).
  rewrite (Z.abs_eq a), (Z.abs_eq b) by lia.
  unfold SFdiv_core_binary.
  set (e' := Z.min (fexp prec emax (Zdigits2 a + 0 - (Zdigits2 b + 0))) (0 - 0)).
  set (m' := match 0 - 0 - e' with Zpos _ => Z.shiftl a (0 - 0 - e') | Z0 => a | Zneg _ => 0 end).
  assert (He' : e' <= 0) by (unfold e'; lia).
  assert (Hm' : m' = a * 2 ^ (- e')).
  { unfold m'. replace (0 - 0 - e') with (- e') by lia.
    destruct (- e') as [|p|p] eqn:E.
    - simpl. lia.
    - rewrite Z.shiftl_mul_pow2 by lia. reflexivity.
    - lia. }
  pose proof (Z.pow_pos_nonneg 2 (- e')) as Hpow.
  assert (Hq : 0 <= m' / b <= 2 ^ (- e')).
  { split.
    - apply Z.div_pos; [rewrite Hm'|]; nia.
    - apply Z.div_le_upper_bound; [lia|]. rewrite Hm'. nia. }
  unfold Z.div in Hq. destruct (Z.div_eucl m' b) as [q r].
  pose proof (@binary_round_aux_finite (xorb (a <? 0) (b <? 0)) q e' (- e')
                (new_location b r) Hq) as Hfin.
  destruct (binary_round_aux prec emax (xorb (a <? 0) (b <? 0)) q e' (new_location b r)) eqn:Er;
    eauto.
  exfalso. apply (Hfin ltac:(lia) ltac:(lia) s). reflexivity.
Qed.

End FloatFacts.

Section Report.
Import h1b_counting.

Lemma rank_le_order (a b : string * Z) : rank_le a b = true <-> report_order a b.
Proof.
  unfold rank_le, report_order.
  rewrite orb_true_iff, andb_true_iff, Z.ltb_lt, Z.eqb_eq. intuition lia.
Qed.

Lemma rank_le_total (a b : string * Z) : rank_le a b = true \/ rank_le b a = true.
Proof.
  rewrite !rank_le_order. unfold report_order.
  destruct (Z.lt_trichotomy (snd a) (snd b)) as [H|[H|H]]; try lia.
  destruct (String.leb_total (fst a) (fst b)); [left | right]; right; split; auto.
Qed.

Lemma rank_le_trans (a b c : string * Z) :
  rank_le a b = true -> rank_le b c = true -> rank_le a c = true.
Proof.
  rewrite !rank_le_order. unfold report_order.
  intros [H1|[H1 L1]] [H2|[H2 L2]]; try lia.
  right. split; [lia|]. eapply string_leb_trans; eassumption.
Qed.

Lemma count_ge_total (a b : string * Z) :
  ExtendedCounter.count_ge a b = true \/ ExtendedCounter.count_ge b a = true.
Proof. unfold ExtendedCounter.count_ge. rewrite !Z.leb_le. lia. Qed.

Lemma count_ge_trans (a b c : string * Z) :
  ExtendedCounter.count_ge a b = true -> ExtendedCounter.count_ge b c = true ->
  ExtendedCounter.count_ge a c = true.
Proof. unfold ExtendedCounter.count_ge. rewrite !Z.leb_le. lia. Qed.

Lemma In_firstn (A : Type) (k : nat) (l : list A) (x : A) : In x (firstn k l) -> In x l.
Proof.
  intros Hin. rewrite <- (firstn_skipn k l). apply in_or_app. left. exact Hin.
Qed.

(** [most_common n] picks [n] entries of the counter (all of them when there
    are fewer), and no entry left out counts more than one picked. *)
Lemma most_common_picks (counter : ExtendedCounter.t) (n : Z) :
  incl (ExtendedCounter.most_common n counter) counter
  /\ List.length (ExtendedCounter.most_common n counter)
     = Nat.min (Z.to_nat n) (List.length counter)
  /\ (forall x y, In x (ExtendedCounter.most_common n counter) -> In y counter ->
        ~ In y (ExtendedCounter.most_common n counter) -> snd y <= snd x)
  /\ (NoDup (dict_keys counter) ->
        NoDup (map fst (ExtendedCounter.most_common n counter))).
Proof.
  unfold ExtendedCounter.most_common.
  pose proof (sorted_perm ExtendedCounter.count_ge counter) as Hperm.
  pose proof (@sorted_sorted _ _ count_ge_total count_ge_trans counter) as Hsorted.
  set (l := sorted ExtendedCounter.count_ge counter) in *.
  split; [|split; [|split]].
  - intros x Hx. eapply Permutation_in; [exact Hperm|]. eapply In_firstn; exact Hx.
  - rewrite length_firstn. rewrite (Permutation_length Hperm). reflexivity.
  - intros x y Hx Hy Hnot.
    assert (Hskip : In y (skipn (Z.to_nat n) l)).
    { eapply Permutation_in in Hy; [|apply Permutation_sym; exact Hperm].
      rewrite <- (firstn_skipn (Z.to_nat n) l) in Hy.
      apply in_app_or in Hy. destruct Hy; [contradiction | assumption]. }
    pose proof (@sorted_firstn_skipn _ _ (Z.to_nat n) _ Hsorted x y Hx Hskip) as Hle.
    unfold ExtendedCounter.count_ge in Hle. apply Z.leb_le in Hle. exact Hle.
  - intros Hnd.
    assert (Hl : NoDup (map fst l)).
    { apply (Permutation_NoDup (l := map fst counter)); [|exact Hnd].
      apply Permutation_map, Permutation_sym, Hperm. }
    rewrite <- (firstn_skipn (Z.to_nat n) l), map_app in Hl.
    apply NoDup_app_remove_r in Hl. exact Hl.
Qed.

Lemma total_bounds (values : list Z) :
  forall a,
    Forall (fun v => 0 < v) values ->
    a <= fold_left Z.add values a
    /\ forall v, In v values -> a + v <= fold_left Z.add values a.
Proof.
  induction values as [|x values IH]; intros a Hpos; simpl.
  - split; [lia | intros v []].
  - inversion Hpos as [|? ? Hx Hrest]; subst.
    destruct (IH (a + x) Hrest) as [Hle Hin]. split; [lia|].
    intros v [Heq|Hv]; [subst; lia | specialize (Hin v Hv); lia].
Qed.

Lemma count_within_total (counter : ExtendedCounter.t) (entry : string * Z) :
  Forall (fun kv => 0 < snd kv) counter ->
  In entry counter -> 0 < snd entry <= ExtendedCounter.total counter.
Proof.
  intros Hpos Hin. unfold ExtendedCounter.total, dict_values.
  assert (Hvals : Forall (fun v => 0 < v) (map snd counter)).
  { rewrite Forall_forall in *. intros v Hv. apply in_map_iff in Hv.
    destruct Hv as [kv [Heq Hkv]]. subst v. apply Hpos, Hkv. }
  destruct (total_bounds 0 Hvals) as [_ Hle].
  rewrite Forall_forall in Hpos. split; [apply Hpos, Hin|].
  apply (Hle (snd entry)). apply in_map, Hin.
Qed.

Lemma percentage_of_part (count total : Z) :
  0 < count <= total -> exists pct, percentage count total = Ok pct.
Proof.
  intros Hc. unfold percentage.
  destruct (@int_true_div_fraction _ _ Hc) as [f Hf]. rewrite Hf. simpl.
  unfold int_mul_float.
  change (float_of_int 100) with (Ok (S754_finite false 7036874417766400 (-46))).
  simpl. eauto.
Qed.

(** The percentage [percent_str] gives for the upper-cased name of an entry
    is that of the entry's count. *)
Lemma percent_str_entry (counter : ExtendedCounter.t) (entry : string * Z) :
  NoDup (dict_keys counter) ->
  lower (fst entry) = fst entry ->
  In entry counter ->
  ExtendedCounter.percent_str counter (upper (fst entry))
  = percentage (snd entry) (ExtendedCounter.total counter).
Proof.
  intros Hnd Hlow Hin.
  unfold ExtendedCounter.percent_str, ExtendedCounter.fraction, percentage.
  rewrite (lower_upper Hlow), Hlow.
  unfold ExtendedCounter.get. destruct entry as [k v]. simpl in *.
  rewrite (@In_dict_get _ k v counter Hnd Hin). reflexivity.
Qed.

(** The three lists of [gen_counter_text], zipped and joined, are the lines
    of the entries. *)
Lemma lines_of_entries (counter : ExtendedCounter.t) (delimiter : string)
    (entries : list (string * Z)) :
  (forall entry, In entry entries ->
     ExtendedCounter.percent_str counter (upper (fst entry))
     = percentage (snd entry) (ExtendedCounter.total counter)) ->
  (percentages <- mapM (fun name => ExtendedCounter.percent_str counter name)
                       (map (fun tup => upper (fst tup)) entries) ;;
   Ok (map (fun row => join delimiter [fst row; fst (snd row); snd (snd row)] ++ LF)
           (combine (map (fun tup => upper (fst tup)) entries)
                    (combine (map (fun tup => str_of_int (snd tup)) entries) percentages))))
  = mapM (report_line delimiter (ExtendedCounter.total counter)) entries.
Proof.
  induction entries as [|entry entries IH]; intros Hpct.
  - reflexivity.
  - simpl. rewrite (Hpct entry (or_introl eq_refl)).
    unfold report_line at 1.
    destruct (percentage (snd entry) (ExtendedCounter.total counter)) as [pct|e];
      [|reflexivity].
    simpl. rewrite <- IH by (intros x Hx; apply Hpct; right; exact Hx).
    destruct (mapM _ (map (fun tup => upper (fst tup)) entries)) as [pcts|e]; reflexivity.
Qed.

Lemma StronglySorted_impl (A : Type) (R R' : A -> A -> Prop) (l : list A) :
  (forall a b, R a b -> R' a b) -> StronglySorted R l -> StronglySorted R' l.
Proof.
  intros Himp. induction 1 as [|x l Hs IH Hall]; constructor; [exact IH|].
  apply (Forall_impl _ (Himp x) Hall).
Qed.

(** C6, as amended.  For a counter as the aggregator builds it (its values
    7-bit and in lower case, its counts positive) and every N,
    [gen_counter_text] returns one line per entry of a top-N selection of
    the counter: N entries (all of them when there are fewer), none of the
    entries left out counting more than one selected.  The line of an entry
    is NAME, COUNT and PERCENTAGE joined by the delimiter and ended by a
    line feed: the upper-cased value, the decimal count, and 100 times the
    count divided by the sum of all counts in binary64, to one decimal
    place with [%].  The lines go by decreasing count; among equal counts
    they go by increasing value, compared in lower case as the counter holds
    it (not upper-cased). *)
Theorem report_lines_of_the_top_entries :
  forall (counter : ExtendedCounter.t) (n : Z) (delimiter : string),
    NoDup (dict_keys counter) ->
    Forall (fun kv => case_normalized (fst kv) /\ 0 < snd kv) counter ->
    exists top lines,
      gen_counter_text counter n delimiter = Ok lines
      /\ mapM (report_line delimiter (ExtendedCounter.total counter)) top = Ok lines
      /\ incl top counter
      /\ NoDup (map fst top)
      /\ List.length top = Nat.min (Z.to_nat n) (List.length counter)
      /\ (forall x y, In x top -> In y counter -> ~ In y top -> snd y <= snd x)
      /\ StronglySorted report_order top.
Proof.
  intros counter n delimiter Hnd Hwf.
  destruct (most_common_picks counter n) as [Hincl [Hlen [Htop Hnodup]]].
  set (picked := ExtendedCounter.most_common n counter) in *.
  pose proof (sorted_perm rank_le picked) as Hperm.
  set (top := sorted rank_le picked) in *.
  assert (Hin : forall x, In x top -> In x counter).
  { intros x Hx. apply Hincl. eapply Permutation_in; [exact Hperm | exact Hx]. }
  assert (Hpos : Forall (fun kv => 0 < snd kv) counter).
  { apply (Forall_impl _ (fun kv H => proj2 H) Hwf). }
  rewrite Forall_forall in Hwf.
  destruct (mapM_all_Ok (report_line delimiter (ExtendedCounter.total counter)) top)
    as [lines Hlines].
  { intros entry Hentry. unfold report_line.
    pose proof (@count_within_total counter entry Hpos (Hin entry Hentry)) as Hc.
    destruct (@percentage_of_part _ _ Hc) as [pct Hp].
    rewrite Hp. simpl. eauto. }
  exists top, lines. repeat split.
  - unfold gen_counter_text. fold picked. fold top.
    rewrite lines_of_entries; [exact Hlines|].
    intros entry Hentry. apply percent_str_entry; auto.
    apply (Hwf entry (Hin entry Hentry)).
  - exact Hlines.
  - exact Hin.
  - apply (Permutation_NoDup (l := map fst picked)); [|apply Hnodup, Hnd].
    apply Permutation_map, Permutation_sym, Hperm.
  - rewrite (Permutation_length Hperm). exact Hlen.
  - intros x y Hx Hy Hnot. apply Htop; auto.
    + eapply Permutation_in; [exact Hperm | exact Hx].
    + intros Hpick. apply Hnot.
      eapply Permutation_in; [apply Permutation_sym; exact Hperm | exact Hpick].
  - apply (StronglySorted_impl (R := fun a b => rank_le a b = true)).
    + intros a b. apply rank_le_order.
    + apply (@sorted_sorted _ _ rank_le_total rank_le_trans).
Qed.

End Report.

(* ================================================================== *)
(** * The properties at work on concrete runs *)
(* ================================================================== *)

Section Runs.
Import MultiFileCounter.
#[local] Existing Instance Plain.library.

(** A run over A, C and B stops at C: A is counted, C and B are not. *)
Example scenario_stops_at_C :
  count (Scenario.mfc [Scenario.file_A; Scenario.file_C; Scenario.file_B])
  = (mk [Scenario.file_A; Scenario.file_C; Scenario.file_B] (Some Scenario.registry)
        [("occupation", [("nurse", 1); ("welder", 1)])]
        [mkConstraint "status" op_eq (PStr "certified")] 1,
     Some RuntimeError).
Proof. vm_compute. reflexivity. Qed.

(** The theorem of C3 on the run over A, C and B: [status] has no candidate in
    the header of C. *)
Lemma missing_candidate_stops_the_run_witness :
  count (Scenario.mfc [Scenario.file_A; Scenario.file_C; Scenario.file_B])
  = (fst (iter (Scenario.mfc [Scenario.file_A; Scenario.file_C; Scenario.file_B])
               [Scenario.file_A]),
     Some match snd (iter (Scenario.mfc [Scenario.file_A; Scenario.file_C; Scenario.file_B])
                          [Scenario.file_A]) with
          | Some e => e
          | None => RuntimeError
          end).
Proof.
  apply (@missing_candidate_stops_the_run Plain.library
           (Scenario.mfc [Scenario.file_A; Scenario.file_C; Scenario.file_B])
           [Scenario.file_A] [Scenario.file_B]
           ["ID"; "OCCUPATION"] [["7"; "nurse"]]
           Scenario.registry "status" ["STATUS"; "CASE_STATUS"]).
  - reflexivity.
  - reflexivity.
  - reflexivity.
  - intros col Hhead Hcand. simpl in Hhead, Hcand.
    destruct Hhead as [H|[H|[]]]; subst col;
      destruct Hcand as [H|[H|[]]]; discriminate.
Defined.

(** C3 does not hold as stated.  [employer] is the alias of a counter; the
    registry has no candidate for it and the header of the file does not
    have the name.  The run does not fail before the rows: the first row is
    counted in the counter of [occupation], and the lookup of [employer] on
    that row ends the run with [AttributeError].  Where the run does fail
    before the rows, on a header without a candidate for [status], the
    exception is the [RuntimeError] that an empty file gives too. *)
Lemma required_alias_outside_the_registry :
  required_alias (add_counter "employer" (Scenario.mfc [Scenario.file_A])) "employer"
  /\ dict_get "employer" Scenario.registry = None
  /\ ~ In "employer" (hd [] Scenario.file_A)
  /\ count (add_counter "employer" (Scenario.mfc [Scenario.file_A]))
     = (mk [Scenario.file_A] (Some Scenario.registry)
           [("occupation", [("nurse", 1)]); ("employer", [])]
           [mkConstraint "status" op_eq (PStr "certified")] 0,
        Some AttributeError)
  /\ snd (count (Scenario.mfc [Scenario.file_C])) = Some RuntimeError
  /\ snd (count (Scenario.mfc [[]])) = Some RuntimeError.
Proof.
  split; [left; simpl; auto|].
  split; [reflexivity|].
  split; [simpl; intuition discriminate|].
  split; [vm_compute; reflexivity|].
  split; vm_compute; reflexivity.
Qed.


Example scenario_twice :
  _counters (fst (count (fst (count (Scenario.mfc [Scenario.file_A; Scenario.file_B])))))
  = [("occupation", [("nurse", 4); ("welder", 6)])].
Proof. vm_compute. reflexivity. Qed.

(** ** Two aliases on one column *)

(** C7 does not hold as stated: both aliases resolve to [SOC_NAME], the
    mapping keeps the later alias there, and [occupation] is not in it. *)
Lemma shared_column_keeps_one_alias :
  alias_dict (init [[shared_header]] (Some shared_registry)) [shared_header]
  = Ok [("SOC_NAME", "job_title")]
  /\ ~ maps_each_alias shared_registry shared_header [("SOC_NAME", "job_title")].
Proof.
  split; [reflexivity|].
  intros Hmaps.
  destruct (Hmaps "occupation" ["SOC_NAME"] eq_refl) as [col [[before [after [_ [Hcand _]]]] Hget]].
  destruct Hcand as [Heq|[]]. subst col. discriminate.
Qed.

Example scenario_alias_dict :
  alias_dict (Scenario.mfc [Scenario.file_A]) Scenario.file_A
  = Ok [("STATUS", "status"); ("OCCUPATION", "occupation")].
Proof. reflexivity. Qed.

(** Where the header has both candidates of an alias, the one that comes
    first in the header is taken, not the one that comes first in the list
    of candidates. *)
Example both_names_alias_dict :
  alias_dict (Scenario.mfc [both_names_file]) both_names_file
  = Ok [("CASE_STATUS", "status"); ("SOC_NAME", "occupation")].
Proof. reflexivity. Qed.

(** ** A row longer than the header *)

(** C9 does not hold as stated: the row has three columns under a header of
    two, and the reader yields it without raising. *)
Lemma long_row_is_read :
  List.length ["CERTIFIED"; "Nurse"; "surplus"] <> List.length ["STATUS"; "SOC_NAME"]
  /\ CleanReader.iter long_row_reader
     = ([[("status", "certified"); ("occupation", "nurse")]], None).
Proof. split; [discriminate | reflexivity]. Qed.

(** The theorem of C9 on a row of two fields under a header of three columns,
    the first two of them selected. *)
Lemma row_length_is_not_checked_witness :
  incl (CleanReader.cols long_row_reader) ["STATUS"; "SOC_NAME"; "WORKSITE_STATE"]
  /\ Forall seven_bit ["CERTIFIED"; "Nurse"]
  /\ exists tup,
       CleanReader.read_row long_row_reader
         ["STATUS"; "SOC_NAME"; "WORKSITE_STATE"] ["CERTIFIED"; "Nurse"] = Ok tup.
Proof.
  assert (Hcols : incl (CleanReader.cols long_row_reader)
                       ["STATUS"; "SOC_NAME"; "WORKSITE_STATE"]).
  { intros col Hin. simpl in Hin. simpl. intuition. }
  assert (Hbits : Forall seven_bit ["CERTIFIED"; "Nurse"]).
  { repeat constructor. }
  split; [exact Hcols|]. split; [exact Hbits|].
  apply (proj1 (@row_length_is_not_checked long_row_reader
                  ["STATUS"; "SOC_NAME"; "WORKSITE_STATE"] ["CERTIFIED"; "Nurse"]
                  Hcols Hbits)).
  intros col Hin Hmiss. simpl in Hin, Hmiss.
  destruct Hmiss as [Heq|[]]. subst col.
  destruct Hin as [H|[H|[]]]; discriminate.
Defined.

(** The long row is counted like any other. *)
Example long_row_is_counted :
  count (mk [[["STATUS"; "SOC_NAME"]; ["CERTIFIED"; "Nurse"; "surplus"]]]
            (Some [("status", ["STATUS"]); ("occupation", ["SOC_NAME"])])
            [("occupation", [])] [mkConstraint "status" op_eq (PStr "certified")] 0)
  = (mk [[["STATUS"; "SOC_NAME"]; ["CERTIFIED"; "Nurse"; "surplus"]]]
        (Some [("status", ["STATUS"]); ("occupation", ["SOC_NAME"])])
        [("occupation", [("nurse", 1)])] [mkConstraint "status" op_eq (PStr "certified")] 1,
     None).
Proof. vm_compute. reflexivity. Qed.

(** A short row that has a field for every selected column is read too. *)
Example short_row_is_read :
  CleanReader.read_row long_row_reader
    ["STATUS"; "SOC_NAME"; "WORKSITE_STATE"] ["CERTIFIED"; "Nurse"]
  = Ok [("status", "certified"); ("occupation", "nurse")].
Proof. reflexivity. Qed.

(** ** Without a registry *)

(** With the registry unset the run fails at the first file; with an empty
    registry no column is read, and the counter's alias is missing from the
    first row. *)
Example no_aliasing_run_fails :
  snd (count (add_counter "occupation" (init [[["occupation"]; ["nurse"]]] None)))
  = Some AttributeError
  /\ snd (count (add_counter "occupation" (init [[["occupation"]; ["nurse"]]] (Some []))))
     = Some AttributeError.
Proof. split; reflexivity. Qed.

(** ** An int as comparison value *)

Example latitude_below_40 :
  constraints_satisfied
    (mk [] None [] [mkConstraint "latitude" op_lt (PInt 40)] 0) [("latitude", "35")]
  = Raise TypeError
  /\ constraints_satisfied
       (mk [] None [] [mkConstraint "latitude" op_eq (PInt 40)] 0) [("latitude", "40")]
     = Ok false.
Proof. split; reflexivity. Qed.

(** ** Equal counts in the report *)

(** The hypotheses of the report theorem are needed: a value that is not in
    lower case is looked up under its lower-case form and gets 0.0%, and
    counts that sum to zero make the percentage raise. *)
Example report_needs_normalized_values :
  h1b_counting.gen_counter_text [("Nurse", 2)] 1 ";" = Ok ["NURSE;2;0.0%" ++ LF]
  /\ h1b_counting.gen_counter_text [("nurse", 0)] 1 ";" = Raise ZeroDivisionError.
Proof. split; vm_compute; reflexivity. Qed.

(** C6 does not hold as stated: with equal counts the line of [a_b] goes
    before the line of [ab], as the lower-case values compare, while the
    upper-cased names compare the other way round. *)
Lemma ties_follow_the_lower_case_value :
  h1b_counting.gen_counter_text tied_counter 2 ";"
  = Ok ["A_B;1;50.0%" ++ LF; "AB;1;50.0%" ++ LF]
  /\ mapM (report_line ";" (ExtendedCounter.total tied_counter)) [("a_b", 1); ("ab", 1)]
     = Ok ["A_B;1;50.0%" ++ LF; "AB;1;50.0%" ++ LF]
  /\ ~ claimed_order ("a_b", 1) ("ab", 1).
Proof.
  split; [vm_compute; reflexivity|]. split; [vm_compute; reflexivity|].
  intros [Hlt|[_ Hle]]; [simpl in Hlt; lia | vm_compute in Hle; discriminate].
Qed.

(** The theorem of C6 on the counter of the scenario. *)
Lemma report_lines_of_the_top_entries_witness :
  NoDup (dict_keys [("nurse", 2); ("welder", 3)])
  /\ Forall (fun kv => case_normalized (fst kv) /\ 0 < snd kv) [("nurse", 2); ("welder", 3)]
  /\ exists top lines,
       h1b_counting.gen_counter_text [("nurse", 2); ("welder", 3)] 2 ";" = Ok lines
       /\ mapM (report_line ";" (ExtendedCounter.total [("nurse", 2); ("welder", 3)])) top
          = Ok lines
       /\ incl top [("nurse", 2); ("welder", 3)]
       /\ NoDup (map fst top)
       /\ List.length top = Nat.min (Z.to_nat 2) (List.length [("nurse", 2); ("welder", 3)])
       /\ (forall x y, In x top -> In y [("nurse", 2); ("welder", 3)] -> ~ In y top ->
             snd y <= snd x)
       /\ StronglySorted report_order top.
Proof.
  assert (Hnd : NoDup (dict_keys [("nurse", 2); ("welder", 3)])) by distinct.
  assert (Hwf : Forall (fun kv => case_normalized (fst kv) /\ 0 < snd kv)
                       [("nurse", 2); ("welder", 3)]).
  { repeat constructor. }
  split; [exact Hnd|]. split; [exact Hwf|].
  apply (@report_lines_of_the_top_entries [("nurse", 2); ("welder", 3)] 2 ";" Hnd Hwf).
Defined.

End Runs.

(* ================================================================== *)
(** * Further properties: the cleaning of an entry *)
(* ================================================================== *)

Section Cleaning.
Import CleanReader.

Lemma lower_char_idem (c : ascii) : lower_char (lower_char c) = lower_char c.
Proof. destruct c as [[] [] [] [] [] [] [] []]; reflexivity. Qed.

Lemma is_space_lower_char (c : ascii) : is_space (lower_char c) = is_space c.
Proof. destruct c as [[] [] [] [] [] [] [] []]; reflexivity. Qed.

Lemma is_ascii_lower_char (c : ascii) : is_ascii_char (lower_char c) = is_ascii_char c.
Proof. destruct c as [[] [] [] [] [] [] [] []]; reflexivity. Qed.

Lemma lower_idem (s : string) : lower (lower s) = lower s.
Proof.
  unfold lower. induction s as [|c s IH]; simpl; [reflexivity|].
  rewrite lower_char_idem, IH. reflexivity.
Qed.

Lemma seven_bit_lower (s : string) : seven_bit s -> seven_bit (lower s).
Proof.
  unfold seven_bit, lower. induction s as [|c s IH]; simpl; [auto|].
  rewrite is_ascii_lower_char. intros H. apply andb_true_iff in H.
  destruct H as [Hc Hs]. rewrite Hc, (IH Hs). reflexivity.
Qed.

Lemma lstrip_lower (s : string) : lstrip (lower s) = lower (lstrip s).
Proof.
  unfold lower. induction s as [|c s IH]; simpl; [reflexivity|].
  rewrite is_space_lower_char. destruct (is_space c); [exact IH | reflexivity].
Qed.

Lemma rstrip_lower (s : string) : rstrip (lower s) = lower (rstrip s).
Proof.
  unfold lower. induction s as [|c s IH]; simpl; [reflexivity|].
  rewrite IH, is_space_lower_char.
  destruct (rstrip s); simpl; [destruct (is_space c)|]; reflexivity.
Qed.

Lemma strip_lower (s : string) : strip (lower s) = lower (strip s).
Proof. unfold strip. rewrite lstrip_lower, rstrip_lower. reflexivity. Qed.

Lemma forall_lstrip (p : ascii -> bool) (s : string) :
  str_forall p s = true -> str_forall p (lstrip s) = true.
Proof.
  induction s as [|c s IH]; simpl; [auto|].
  intros H. destruct (is_space c); [|exact H].
  apply andb_true_iff in H. apply IH, H.
Qed.

Lemma forall_rstrip (p : ascii -> bool) (s : string) :
  str_forall p s = true -> str_forall p (rstrip s) = true.
Proof.
  induction s as [|c s IH]; simpl; [auto|].
  intros H. apply andb_true_iff in H. destruct H as [Hc Hs]. specialize (IH Hs).
  destruct (rstrip s) as [|c' r].
  - destruct (is_space c); simpl; [reflexivity | rewrite Hc; reflexivity].
  - simpl in *. rewrite Hc. exact IH.
Qed.

Lemma seven_bit_strip (s : string) : seven_bit s -> seven_bit (strip s).
Proof. intros H. apply forall_rstrip, forall_lstrip, H. Qed.

Lemma rstrip_idem (s : string) : rstrip (rstrip s) = rstrip s.
Proof.
  induction s as [|c s IH]; simpl; [reflexivity|].
  destruct (rstrip s) as [|c' r] eqn:E.
  - destruct (is_space c) eqn:Ec; simpl; [reflexivity | rewrite Ec; reflexivity].
  - simpl. simpl in IH. rewrite IH. reflexivity.
Qed.

(** What [lstrip] leaves is empty or starts with a character that is not
    white space, and [rstrip] keeps such a start. *)
Lemma lstrip_start (s : string) :
  lstrip s = EmptyString
  \/ exists c r, lstrip s = String c r /\ is_space c = false.
Proof.
  induction s as [|c s IH]; simpl; [auto|].
  destruct (is_space c) eqn:Ec; [exact IH | right; eauto].
Qed.

Lemma rstrip_start (c : ascii) (r : string) :
  is_space c = false -> exists r', rstrip (String c r) = String c r'.
Proof.
  intros Ec. simpl. destruct (rstrip r); [rewrite Ec|]; eauto.
Qed.

Lemma strip_idem (s : string) : strip (strip s) = strip s.
Proof.
  unfold strip. destruct (lstrip_start s) as [E|[c [r [E Ec]]]]; rewrite E.
  - reflexivity.
  - destruct (@rstrip_start c r Ec) as [r' Er]. rewrite Er.
    simpl lstrip. rewrite Ec. rewrite <- Er. apply rstrip_idem.
Qed.

Lemma filter_seven_bit (s : string) : seven_bit (str_filter is_ascii_char s).
Proof.
  unfold seven_bit. induction s as [|c s IH]; simpl; [reflexivity|].
  destruct (is_ascii_char c) eqn:Ec; simpl; [rewrite Ec|]; exact IH.
Qed.

Lemma replace_seven_bit (s : string) :
  seven_bit (str_map (fun c => if is_ascii_char c then c else "?"%char) s).
Proof.
  unfold seven_bit. induction s as [|c s IH]; simpl; [reflexivity|].
  rewrite IH. destruct (is_ascii_char c) eqn:Ec; [rewrite Ec|]; reflexivity.
Qed.

Lemma filter_of_seven_bit (s : string) : seven_bit s -> str_filter is_ascii_char s = s.
Proof.
  unfold seven_bit. induction s as [|c s IH]; simpl; [reflexivity|].
  intros H. apply andb_true_iff in H. destruct H as [Hc Hs].
  rewrite Hc, (IH Hs). reflexivity.
Qed.

Lemma replace_of_seven_bit (s : string) :
  seven_bit s -> str_map (fun c => if is_ascii_char c then c else "?"%char) s = s.
Proof.
  unfold seven_bit. induction s as [|c s IH]; simpl; [reflexivity|].
  intros H. apply andb_true_iff in H. destruct H as [Hc Hs].
  rewrite Hc, (IH Hs). reflexivity.
Qed.

Lemma encode_ascii_seven_bit (mode : errors) (entry encoded : string) :
  encode_ascii mode entry = Ok encoded -> seven_bit encoded.
Proof.
  unfold encode_ascii. destruct mode.
  - destruct (str_forall is_ascii_char entry) eqn:E; [|discriminate].
    intros H. inversion H; subst. exact E.
  - intros H. inversion H. apply filter_seven_bit.
  - intros H. inversion H. apply replace_seven_bit.
Qed.

Lemma encode_ascii_of_seven_bit (mode : errors) (entry : string) :
  seven_bit entry -> encode_ascii mode entry = Ok entry.
Proof.
  intros H. unfold encode_ascii. destruct mode.
  - unfold seven_bit in H. rewrite H. reflexivity.
  - rewrite (@filter_of_seven_bit entry H). reflexivity.
  - rewrite (@replace_of_seven_bit entry H). reflexivity.
Qed.

(** What [preprocess_text] returns is a value as the counters hold it. *)
Lemma preprocess_text_normalized (self : CleanReader.t) (entry cleaned : string) :
  preprocess_text self (Some entry) = Ok cleaned -> case_normalized cleaned.
Proof.
  unfold preprocess_text. intros H.
  destruct (encode_ascii (preprocessing self) entry) as [encoded|e] eqn:E; [|discriminate].
  simpl in H. inversion H; subst cleaned.
  split.
  - apply seven_bit_lower, seven_bit_strip. eapply encode_ascii_seven_bit; exact E.
  - apply lower_idem.
Qed.

(** X1. What [preprocess_text] returns is in normal form: 7-bit, in lower
    case, without white space at either end; cleaning it again, in any mode,
    returns it unchanged. *)
Theorem preprocess_text_is_idempotent :
  forall (self other : CleanReader.t) (entry cleaned : string),
    preprocess_text self (Some entry) = Ok cleaned ->
    seven_bit cleaned
    /\ lower cleaned = cleaned
    /\ strip cleaned = cleaned
    /\ preprocess_text other (Some cleaned) = Ok cleaned.
Proof.
  intros self other entry cleaned H.
  destruct (@preprocess_text_normalized self entry cleaned H) as [Hbits Hlow].
  assert (Hstrip : strip cleaned = cleaned).
  { unfold preprocess_text in H.
    destruct (encode_ascii (preprocessing self) entry) as [encoded|e]; [|discriminate].
    simpl in H. inversion H. rewrite strip_lower, strip_idem. reflexivity. }
  repeat split; try assumption.
  unfold preprocess_text. rewrite (@encode_ascii_of_seven_bit (preprocessing other) cleaned Hbits). simpl.
  rewrite Hstrip, Hlow. reflexivity.
Qed.

(** X2. The mode of the reader matters for text beyond 7 bits only: on a
    7-bit entry the three modes return the same, the entry stripped and in
    lower case; [strict] is the one mode that can raise, and it raises
    [UnicodeEncodeError] exactly on an entry with a character beyond 127. *)
Theorem preprocess_text_modes :
  forall (file : csv_file) (cols aliases : list string) (mode : errors) (entry : string),
    (seven_bit entry ->
       preprocess_text (mk file cols aliases mode) (Some entry) = Ok (lower (strip entry)))
    /\ (forall e, preprocess_text (mk file cols aliases mode) (Some entry) = Raise e ->
          mode = strict /\ e = UnicodeEncodeError /\ ~ seven_bit entry)
    /\ (~ seven_bit entry ->
          preprocess_text (mk file cols aliases strict) (Some entry) = Raise UnicodeEncodeError).
Proof.
  intros file cols aliases mode entry. split; [|split].
  - intros H. unfold preprocess_text. simpl preprocessing.
    rewrite (@encode_ascii_of_seven_bit mode entry H). reflexivity.
  - intros e H. unfold preprocess_text, encode_ascii in H. simpl preprocessing in H.
    destruct mode; simpl in H; try discriminate.
    destruct (str_forall is_ascii_char entry) eqn:E; simpl in H; [discriminate|].
    inversion H. repeat split. unfold seven_bit. rewrite E. discriminate.
  - intros H. unfold preprocess_text, encode_ascii. simpl preprocessing.
    unfold seven_bit in H. destruct (str_forall is_ascii_char entry); [|reflexivity].
    exfalso. apply H. reflexivity.
Qed.

End Cleaning.

(* ================================================================== *)
(** * Further properties: dicts built from items *)
(* ================================================================== *)

Section DictOrder.
Variable V : Type.

(** Assigning to a new key appends. *)
Lemma dict_set_fresh (k : string) (v : V) (d : dict V) :
  ~ In k (dict_keys d) -> dict_set k v d = (d ++ [(k, v)])%list.
Proof.
  induction d as [|[k0 v0] d IH]; simpl; intros Hnot.
  - reflexivity.
  - destruct (String.eqb k k0) eqn:E.
    + apply String.eqb_eq in E. exfalso. apply Hnot. left. congruence.
    + rewrite IH; [reflexivity|]. intros Hin. apply Hnot. right. exact Hin.
Qed.

Lemma dict_set_keys_NoDup (k : string) (v : V) (d : dict V) :
  NoDup (dict_keys d) -> NoDup (dict_keys (dict_set k v d)).
Proof.
  intros Hnd. destruct (in_dec string_dec k (dict_keys d)) as [Hin|Hnot].
  - destruct (dict_get_keys k d Hin) as [v0 Hv0].
    rewrite (@dict_keys_set_present _ k v v0 d Hv0). exact Hnd.
  - rewrite (@dict_set_fresh k v d Hnot). unfold dict_keys. rewrite map_app. simpl.
    apply NoDup_app; [exact Hnd | constructor; [intros [] | constructor] |].
    intros x Hx [Heq|[]]. subst x. contradiction.
Qed.

Lemma fold_set_NoDup (items : list (string * V)) :
  forall acc : dict V,
    NoDup (map fst (acc ++ items)) ->
    fold_left (fun d kv => dict_set (fst kv) (snd kv) d) items acc = (acc ++ items)%list.
Proof.
  induction items as [|[k v] items IH]; intros acc Hnd; simpl.
  - rewrite app_nil_r. reflexivity.
  - assert (Hfresh : ~ In k (dict_keys acc)).
    { rewrite map_app in Hnd. simpl in Hnd. apply NoDup_remove_2 in Hnd.
      intros Hin. apply Hnd. apply in_or_app. left. exact Hin. }
    rewrite (@dict_set_fresh k v acc Hfresh), IH; rewrite <- app_assoc; [reflexivity | exact Hnd].
Qed.

(** Items without a repeated key make the dict that lists them. *)
Lemma dict_of_items_NoDup (items : list (string * V)) :
  NoDup (map fst items) -> dict_of_items items = items.
Proof. intros Hnd. unfold dict_of_items. apply (@fold_set_NoDup items [] Hnd). Qed.

(** What a dict built from items holds at a key is the value of one of the
    items. *)
Lemma dict_of_items_In (items : list (string * V)) (k : string) (v : V) :
  dict_get k (dict_of_items items) = Some v -> In (k, v) items.
Proof.
  unfold dict_of_items.
  assert (H : forall acc,
             (dict_get k acc = Some v -> In (k, v) items) ->
             forall its, incl its items ->
             dict_get k (fold_left (fun d kv => dict_set (fst kv) (snd kv) d) its acc) = Some v ->
             In (k, v) items).
  { intros acc Hacc its. revert acc Hacc.
    induction its as [|[k0 v0] its IH]; intros acc Hacc Hincl; simpl.
    - exact Hacc.
    - apply IH.
      + rewrite dict_get_set. destruct (String.eqb k k0) eqn:E.
        * apply String.eqb_eq in E. subst k0. intros Heq. inversion Heq; subst v0.
          apply Hincl. left. reflexivity.
        * exact Hacc.
      + intros x Hx. apply Hincl. right. exact Hx. }
  apply (H [] ltac:(discriminate) items (incl_refl items)).
Qed.

Lemma dict_get_not_key (k : string) (d : dict V) :
  ~ In k (dict_keys d) -> dict_get k d = None.
Proof.
  intros Hnot. destruct (dict_get k d) as [v|] eqn:E; [|reflexivity].
  exfalso. apply Hnot. apply dict_get_In in E.
  change k with (fst (k, v)). apply in_map, E.
Qed.

End DictOrder.

Lemma In_combine_nth (A B : Type) (l : list A) (l' : list B) (x : A) (y : B) :
  In (x, y) (combine l l') ->
  exists i, nth_error l i = Some x /\ nth_error l' i = Some y.
Proof.
  revert l'. induction l as [|a l IH]; intros l' Hin; simpl in Hin.
  - contradiction.
  - destruct l' as [|b l']; [contradiction|].
    destruct Hin as [Heq|Hin].
    + inversion Heq; subst. exists 0%nat. split; reflexivity.
    + destruct (IH l' Hin) as [i [Hx Hy]]. exists (S i). split; assumption.
Qed.

(* ================================================================== *)
(** * Further properties: the fields of a row *)
(* ================================================================== *)

Section RowFields.
Import CleanReader.

Lemma fold_set_None (keys : list string) :
  forall d : dict (option string),
    fold_left (fun d key => dict_set key None d) keys d
    = fold_left (fun d kv => dict_set (fst kv) (snd kv) d)
                (map (fun key => (key, @None string)) keys) d.
Proof.
  induction keys as [|k keys IH]; intros d; simpl; [reflexivity | apply IH].
Qed.

(** Under a header without a repeated name, [DictReader] pairs the names
    with the fields by position and pads a short row with [None]. *)
Lemma DictReader_row_distinct (fieldnames row : list string) :
  NoDup fieldnames ->
  DictReader_row fieldnames row
  = (zipped_items fieldnames row
     ++ map (fun key => (key, @None string)) (missing_fields fieldnames row))%list.
Proof.
  intros Hnd. unfold DictReader_row. fold (zipped_items fieldnames row).
  fold (missing_fields fieldnames row).
  assert (Hkeys : map fst (zipped_items fieldnames row
                           ++ map (fun key => (key, @None string))
                                  (missing_fields fieldnames row))%list
                  = fieldnames).
  { rewrite map_app, map_map. simpl. rewrite map_id.
    unfold zipped_items, missing_fields. rewrite combine_keys, length_map.
    apply firstn_skipn. }
  rewrite dict_of_items_NoDup.
  - rewrite fold_set_None. apply fold_set_NoDup. rewrite Hkeys. exact Hnd.
  - rewrite map_app in Hkeys. rewrite <- Hkeys in Hnd.
    apply NoDup_app_remove_r in Hnd. exact Hnd.
Qed.

Lemma init_lengths (file : csv_file) (cs : list string) (ad : option (dict string))
    (mode : errors) (self : CleanReader.t) :
  init file cs ad mode = Ok self ->
  cols self = cs /\ List.length (aliases self) = List.length cs
  /\ preprocessing self = mode /\ file_path self = file.
Proof.
  unfold init. destruct ad as [[|kv d]|].
  - intros H. inversion H. simpl. auto.
  - destruct (mapM (fun col => dict_item col (kv :: d)) cs) as [al|e] eqn:E; [|discriminate].
    intros H. inversion H. simpl. repeat split.
    apply mapM_Ok_Forall2 in E. symmetry. apply (Forall2_length E).
  - intros H. inversion H. simpl. auto.
Qed.

Lemma combine_split_exact (A B : Type) (l : list A) (l' : list B) :
  List.length l = List.length l' ->
  map fst (combine l l') = l /\ map snd (combine l l') = l'.
Proof.
  revert l'. induction l as [|a l IH]; intros [|b l'] Hlen; simpl in *; try discriminate.
  - auto.
  - injection Hlen as Hlen. destruct (IH l' Hlen) as [H1 H2]. rewrite H1, H2. auto.
Qed.

(** X3. Under a header without a repeated name, a reader built by
    [__init__] reads a row by position: the row tuple has the aliases of the
    reader as its fields, in their order, and the value of each field is the
    cleaned field of the row that stands where the column of the alias stands
    in the header. *)
Theorem read_row_by_position :
  forall (file : csv_file) (cs : list string) (ad : option (dict string)) (mode : errors)
         (self : CleanReader.t) (fieldnames row : list string) (tup : RowTup),
    init file cs ad mode = Ok self ->
    NoDup fieldnames ->
    read_row self fieldnames row = Ok tup ->
    map fst tup = aliases self
    /\ Forall2 (fun col cleaned =>
                  exists i entry,
                    nth_error fieldnames i = Some col
                    /\ nth_error row i = Some entry
                    /\ preprocess_text self (Some entry) = Ok cleaned)
               cs (map snd tup).
Proof.
  intros file cs ad mode self fieldnames row tup Hinit Hnd Hread.
  destruct (@init_lengths file cs ad mode self Hinit) as [Hcols [Hlen _]].
  unfold read_row in Hread. rewrite Hcols in Hread.
  destruct (mapM _ cs) as [row_data|e] eqn:Em; [|discriminate].
  simpl in Hread. inversion Hread; subst tup. clear Hread.
  apply mapM_Ok_Forall2 in Em.
  assert (Hlen' : List.length (aliases self) = List.length row_data).
  { rewrite Hlen. apply (Forall2_length Em). }
  destruct (@combine_split_exact _ _ _ _ Hlen') as [Hfst Hsnd].
  rewrite Hfst, Hsnd. split; [reflexivity|].
  apply (Forall2_impl (R1 := fun col y =>
           (entry <- dict_item col (DictReader_row fieldnames row) ;;
            preprocess_text self entry) = Ok y)); [|exact Em].
  intros col cleaned Hcol. unfold dict_item in Hcol.
  destruct (dict_get col (DictReader_row fieldnames row)) as [[entry|]|] eqn:Eg;
    simpl in Hcol; try discriminate.
  apply dict_get_In in Eg. rewrite (@DictReader_row_distinct fieldnames row Hnd) in Eg.
  apply in_app_or in Eg. destruct Eg as [Hz|Hm].
  - unfold zipped_items in Hz. apply In_combine_nth in Hz.
    destruct Hz as [i [Hi Hrow]]. exists i, entry. split; [exact Hi|]. split; [|exact Hcol].
    rewrite nth_error_map in Hrow. destruct (nth_error row i); inversion Hrow. reflexivity.
  - apply in_map_iff in Hm. destruct Hm as [key [Heq _]]. discriminate.
Qed.

End RowFields.

(* ================================================================== *)
(** * The schema resolver: the mapping of a file *)
(* ================================================================== *)

Section ExactResolution.
Context {L : Library}.
Import MultiFileCounter.

(** The loop appends one entry for each alias when every alias has a column
    and no column is taken twice. *)
Lemma resolve_loop_exact (d : dict (list string)) (header : list string) :
  forall (items : list (string * list string)) (acc : dict string),
    NoDup (map fst items) ->
    (forall kv, In kv items -> dict_get (fst kv) d = Some (snd kv)) ->
    (forall kv, In kv items -> exists col, first_match header (snd kv) = Ok col) ->
    (forall kv col, In kv items -> first_match header (snd kv) = Ok col ->
       ~ In col (dict_keys acc)) ->
    (forall a b ca cb, dict_get a d = Some ca -> dict_get b d = Some cb -> a <> b ->
       first_match header ca <> first_match header cb) ->
    exists entries,
      foldM (resolve_step d header) (map fst items) acc = Ok (acc ++ entries)%list
      /\ Forall2 (fun kv entry => snd entry = fst kv /\ first_in header (snd kv) (fst entry))
                 items entries.
Proof.
  induction items as [|[a ca] items IH]; intros acc Hnd Hget Hres Hfresh Hinj.
  - exists []. simpl. rewrite app_nil_r. split; [reflexivity | constructor].
  - simpl in Hnd. inversion Hnd as [|? ? Hnotin Hnd']; subst.
    destruct (Hres (a, ca) (or_introl eq_refl)) as [col Hcol]. simpl in Hcol.
    pose proof (Hget (a, ca) (or_introl eq_refl)) as Hga. simpl in Hga.
    destruct (IH (acc ++ [(col, a)])%list Hnd') as [entries [Hfold HF]].
    + intros kv Hkv. apply Hget. right. exact Hkv.
    + intros kv Hkv. apply Hres. right. exact Hkv.
    + intros kv col' Hkv Hcol' Hin.
      unfold dict_keys in Hin. rewrite map_app in Hin. apply in_app_or in Hin.
      destruct Hin as [Hin|[Heq|[]]].
      * apply (Hfresh kv col' (or_intror Hkv) Hcol' Hin).
      * simpl in Heq. subst col'.
        apply (Hinj a (fst kv) ca (snd kv) Hga (Hget kv (or_intror Hkv))).
        -- intros Heq. apply Hnotin. rewrite Heq. apply in_map, Hkv.
        -- rewrite Hcol, Hcol'. reflexivity.
    + intros x y cx cy. apply Hinj.
    + exists ((col, a) :: entries). split.
      * simpl. unfold resolve_step at 1, dict_item. rewrite Hga. simpl. rewrite Hcol. simpl.
        rewrite (@dict_set_fresh _ col a acc (Hfresh (a, ca) col (or_introl eq_refl) Hcol)).
        rewrite Hfold, <- app_assoc. reflexivity.
      * constructor; [|exact HF]. simpl. split; [reflexivity|].
        apply first_match_Ok, Hcol.
Qed.

(** C7, as amended.  When every alias of the registry has a candidate among
    the header names and no two aliases resolve to the same header name,
    [alias_dict] returns a mapping that holds each alias at the first
    header name, in file order, among the alias's candidates, and holds
    nothing else: it has one entry for each alias, in the order of the
    registry.  Whatever the registry, the result depends on the header row
    and the registry only: another call, on any instance with the same
    registry and any file with the same header row, returns the same. *)
Theorem alias_dict_first_match :
  forall (self : MultiFileCounter.t) (header : list string) (rows : list (list string)),
    (forall d : dict (list string),
        colname_list_dict self = Some d ->
        NoDup (dict_keys d) ->
        (forall alias cands, dict_get alias d = Some cands ->
           exists col, In col header /\ In col cands) ->
        (forall a b ca cb, dict_get a d = Some ca -> dict_get b d = Some cb -> a <> b ->
           first_match header ca <> first_match header cb) ->
        exists ad,
          alias_dict self (header :: rows) = Ok ad
          /\ maps_each_alias d header ad
          /\ resolves_exactly d header ad)
    /\ (forall (self' : MultiFileCounter.t) (rows' : list (list string)),
           colname_list_dict self' = colname_list_dict self ->
           alias_dict self' (header :: rows') = alias_dict self (header :: rows)).
Proof.
  intros self header rows. split.
  - intros d Hd Hnd Hall Hinj.
    rewrite (alias_dict_registry self header rows Hd).
    assert (Hres : forall a, In a (dict_keys d) ->
              exists cands col, dict_get a d = Some cands /\ first_match header cands = Ok col).
    { intros a Ha. destruct (dict_get_keys a d Ha) as [cands Hc].
      destruct (Hall a cands Hc) as [col [Hh Hcol]].
      destruct (first_match_some header cands col Hh Hcol) as [col' Hcol'].
      exists cands, col'. split; assumption. }
    destruct (@resolve_loop d header (dict_keys d) [] Hnd Hres) as [ad [Hfold [Hmaps _]]].
    { intros a b ca cb _ _. apply Hinj. }
    exists ad. split; [exact Hfold|]. split.
    + intros alias cands Hget.
      destruct (Hall alias cands Hget) as [col [Hh Hcol]].
      destruct (first_match_some header cands col Hh Hcol) as [col' Hcol'].
      exists col'. split.
      * apply first_match_Ok, Hcol'.
      * apply (Hmaps alias cands col'); auto.
        apply dict_get_In in Hget. change alias with (fst (alias, cands)).
        apply in_map, Hget.
    + destruct (@resolve_loop_exact d header d [] Hnd) as [entries [Hexact HF]].
      * intros [k v] Hkv. apply In_dict_get; assumption.
      * intros [k v] Hkv. simpl.
        destruct (Hres k) as [cands [col [Hg Hf]]].
        { change k with (fst (k, v)). apply in_map, Hkv. }
        rewrite (In_dict_get k v d Hnd Hkv) in Hg. inversion Hg; subst cands. eauto.
      * intros kv col _ _ [].
      * exact Hinj.
      * change (map fst d) with (dict_keys d) in Hexact. rewrite Hfold in Hexact.
        inversion Hexact; subst ad. exact HF.
  - intros self' rows' Hsame.
    unfold alias_dict, aliases. rewrite Hsame. reflexivity.
Qed.

End ExactResolution.

(* ================================================================== *)
(** * Further properties: the reader of a file *)
(* ================================================================== *)

Section ReaderOfAFile.
Context {L : Library}.
Import MultiFileCounter.

(** The aliases of [d] resolve under [header]: each has a candidate among the
    names of the header. *)
Lemma resolve_loop_total (d : dict (list string)) (header : list string) :
  forall (als : list string) (acc : dict string),
    (forall a, In a als ->
       exists cands col, dict_get a d = Some cands /\ first_match header cands = Ok col) ->
    exists ad, foldM (resolve_step d header) als acc = Ok ad.
Proof.
  induction als as [|a als IH]; intros acc Hres; simpl.
  - eauto.
  - destruct (Hres a (or_introl eq_refl)) as [ca [col [Hga Hfa]]].
    unfold resolve_step at 1, dict_item. rewrite Hga. simpl. rewrite Hfa. simpl.
    apply IH. intros b Hb. apply Hres. right. exact Hb.
Qed.

(** What the loop leaves in the mapping: the keys stay distinct, an entry
    is one the loop found or one that was there, and a column that was
    assigned stays assigned. *)
Lemma resolve_loop_entries (d : dict (list string)) (header : list string) :
  forall (als : list string) (acc ad : dict string),
    foldM (resolve_step d header) als acc = Ok ad ->
    (NoDup (dict_keys acc) -> NoDup (dict_keys ad))
    /\ (forall c x, dict_get c ad = Some x ->
          dict_get c acc = Some x
          \/ (In x als /\ exists cands,
                dict_get x d = Some cands /\ first_match header cands = Ok c))
    /\ (forall c, (exists x, dict_get c acc = Some x) -> exists x, dict_get c ad = Some x)
    /\ (forall a cands c, In a als -> dict_get a d = Some cands ->
          first_match header cands = Ok c -> exists x, dict_get c ad = Some x).
Proof.
  induction als as [|a als IH]; intros acc ad Hfold; simpl in Hfold.
  - inversion Hfold; subst ad. repeat split; auto.
    intros a cands c [].
  - unfold resolve_step at 1, dict_item in Hfold.
    destruct (dict_get a d) as [ca|] eqn:Hga; simpl in Hfold; [|discriminate].
    destruct (first_match header ca) as [cola|e] eqn:Hfa; simpl in Hfold; [|discriminate].
    destruct (IH _ _ Hfold) as [Hnd [Hent [Hkeep Hset]]].
    split; [|split; [|split]].
    + intros Hacc. apply Hnd. apply dict_set_keys_NoDup, Hacc.
    + intros c x Hx. destruct (Hent c x Hx) as [Hprev|[Hin Hres]].
      * rewrite dict_get_set in Hprev. destruct (String.eqb c cola) eqn:E.
        -- apply String.eqb_eq in E. subst c. inversion Hprev; subst x.
           right. split; [left; reflexivity | eauto].
        -- left. exact Hprev.
      * right. split; [right; exact Hin | exact Hres].
    + intros c [x Hx]. apply Hkeep. rewrite dict_get_set.
      destruct (String.eqb c cola); eauto.
    + intros b cands c [Heq|Hin] Hgb Hfb.
      * subst b. rewrite Hga in Hgb. inversion Hgb; subst cands.
        rewrite Hfa in Hfb. inversion Hfb; subst c.
        apply Hkeep. rewrite dict_get_set_same. eauto.
      * apply (Hset b cands c Hin Hgb Hfb).
Qed.

(** [colname_dict] holds an alias exactly when [alias_dict] has it as a
    value, and holds it at a column that [alias_dict] maps to it. *)
Lemma colname_dict_get (ad : dict string) (alias : string) :
  NoDup (dict_keys ad) ->
  match dict_get alias (dict_of_items (map (fun item => (snd item, fst item)) ad)) with
  | Some col => dict_get col ad = Some alias
  | None => forall col, dict_get col ad <> Some alias
  end.
Proof.
  intros Hnd.
  destruct (dict_get alias (dict_of_items (map (fun item => (snd item, fst item)) ad)))
    as [col|] eqn:E.
  - apply dict_of_items_In in E. apply in_map_iff in E.
    destruct E as [[c x] [Heq Hin]]. simpl in Heq. inversion Heq; subst.
    apply In_dict_get; assumption.
  - intros col Hcol. apply dict_get_In in Hcol.
    assert (Hin : In alias (map fst (map (fun item : string * string => (snd item, fst item)) ad))).
    { rewrite map_map. simpl. change alias with (snd (col, alias)). apply in_map, Hcol. }
    destruct (@fold_set_has _ _ alias [] Hin) as [v Hv].
    unfold dict_of_items in E. congruence.
Qed.

Lemma open_reader_unfold (self : MultiFileCounter.t) (d : dict (list string))
    (header : list string) (rows : list (list string)) (ad : dict string) :
  colname_list_dict self = Some d ->
  foldM (resolve_step d header) (dict_keys d) [] = Ok ad ->
  open_reader self (header :: rows)
  = (colnames <- mapM (fun alias =>
                         dict_item alias
                           (dict_of_items (map (fun item => (snd item, fst item)) ad)))
                      (dict_keys d) ;;
     CleanReader.init (header :: rows) colnames (Some ad) CleanReader.strict).
Proof.
  intros Hd Hfold. unfold open_reader, colname_dict.
  rewrite (alias_dict_registry self header rows Hd), Hfold. simpl.
  unfold aliases. rewrite Hd. reflexivity.
Qed.

(** Two aliases whose first candidates in the header are the same column:
    the later one takes the column in [alias_dict], the other one has no
    column in [colname_dict], and looking it up there raises. *)
Lemma open_reader_shared_column (self : MultiFileCounter.t) (d : dict (list string))
    (header : list string) (rows : list (list string))
    (a b : string) (ca cb : list string) (col : string) :
  colname_list_dict self = Some d ->
  (forall alias cands, dict_get alias d = Some cands ->
     exists c, In c header /\ In c cands) ->
  dict_get a d = Some ca -> dict_get b d = Some cb -> a <> b ->
  first_match header ca = Ok col -> first_match header cb = Ok col ->
  open_reader self (header :: rows) = Raise KeyError.
Proof.
  intros Hd Hall Hga Hgb Hne Hfa Hfb.
  destruct (@resolve_loop_total d header (dict_keys d) []) as [ad Hfold].
  { intros x Hx. destruct (dict_get_keys x d Hx) as [cands Hc].
    destruct (Hall x cands Hc) as [c [Hh Hcand]].
    destruct (first_match_some header cands c Hh Hcand) as [c' Hc'].
    exists cands, c'. split; assumption. }
  rewrite (@open_reader_unfold self d header rows ad Hd Hfold).
  destruct (@resolve_loop_entries d header (dict_keys d) [] ad Hfold)
    as [Hnd [Hent [_ Hset]]].
  specialize (Hnd (NoDup_nil _)).
  assert (Hina : In a (dict_keys d)).
  { apply dict_get_In in Hga. change a with (fst (a, ca)). apply in_map, Hga. }
  assert (Hinb : In b (dict_keys d)).
  { apply dict_get_In in Hgb. change b with (fst (b, cb)). apply in_map, Hgb. }
  destruct (Hset a ca col Hina Hga Hfa) as [z Hz].
  assert (Hmiss : forall w cw, dict_get w d = Some cw -> first_match header cw = Ok col ->
                               w <> z -> forall c, dict_get c ad <> Some w).
  { intros w cw Hgw Hfw Hwz c Hc.
    destruct (Hent c w Hc) as [Hnil|[_ [cands [Hg Hf]]]]; [discriminate|].
    rewrite Hgw in Hg. inversion Hg; subst cands.
    rewrite Hfw in Hf. inversion Hf; subst c. congruence. }
  assert (Hw : exists w, In w (dict_keys d) /\ forall c, dict_get c ad <> Some w).
  { destruct (string_dec a z) as [Haz|Haz].
    - exists b. split; [exact Hinb|]. apply (Hmiss b cb Hgb Hfb). congruence.
    - exists a. split; [exact Hina|]. apply (Hmiss a ca Hga Hfa Haz). }
  destruct Hw as [w [Hinw Hnone]].
  rewrite (@mapM_raises_only _ _ _ KeyError (dict_keys d)); [reflexivity| |].
  - intros x _. unfold dict_item. destruct (dict_get x _); eauto.
  - exists w. split; [exact Hinw|]. unfold dict_item.
    pose proof (@colname_dict_get ad w Hnd) as Hcd.
    destruct (dict_get w _) as [c|]; [|reflexivity].
    exfalso. apply (Hnone c Hcd).
Qed.

(** X4. When two aliases of the registry resolve to the same column of a
    file, every alias having a candidate in its header, the run fails at
    that file with a [KeyError]: the alias that lost the column in
    [alias_dict] is missing from [colname_dict].  The instance is left as the
    files before it left it; a run that an earlier file had already stopped
    keeps that file's exception. *)
Theorem shared_column_stops_the_run :
  forall (self : MultiFileCounter.t) (before after : list csv_file)
         (header : list string) (rows : list (list string))
         (d : dict (list string)) (a b : string) (ca cb : list string) (col : string),
    files self = (before ++ (header :: rows) :: after)%list ->
    colname_list_dict self = Some d ->
    (forall alias cands, dict_get alias d = Some cands ->
       exists c, In c header /\ In c cands) ->
    dict_get a d = Some ca -> dict_get b d = Some cb -> a <> b ->
    first_match header ca = Ok col -> first_match header cb = Ok col ->
    count self
    = (fst (iter self before),
       Some match snd (iter self before) with
            | Some e => e
            | None => KeyError
            end).
Proof.
  intros self before after header rows d a b ca cb col Hfiles Hd Hall Hga Hgb Hne Hfa Hfb.
  unfold count. rewrite Hfiles, iter_app.
  destruct (iter_keeps_configuration before self) as [Hreg _].
  destruct (iter self before) as [self' [e|]]; cbn [fst snd] in *.
  - reflexivity.
  - rewrite iter_cons. unfold run_file.
    rewrite (@open_reader_shared_column self' d header rows a b ca cb col); auto.
    + destruct self'; reflexivity.
    + rewrite Hreg. exact Hd.
Qed.

(** X5. When every alias of the registry has a candidate in the header of
    a file and no two aliases resolve to the same column, the reader that
    [__iter__] builds for the file reads, for each alias of the registry in
    order, the first header name among the candidates of the alias, names
    the fields of its rows by the aliases, and cleans in [strict] mode. *)
Theorem open_reader_selects_the_first_matches :
  forall (self : MultiFileCounter.t) (d : dict (list string))
         (header : list string) (rows : list (list string)),
    colname_list_dict self = Some d ->
    NoDup (dict_keys d) ->
    (forall alias cands, dict_get alias d = Some cands ->
       exists c, In c header /\ In c cands) ->
    (forall a b ca cb, dict_get a d = Some ca -> dict_get b d = Some cb -> a <> b ->
       first_match header ca <> first_match header cb) ->
    exists reader,
      open_reader self (header :: rows) = Ok reader
      /\ CleanReader.file_path reader = header :: rows
      /\ CleanReader.aliases reader = dict_keys d
      /\ Forall2 (fun alias col =>
                    exists cands, dict_get alias d = Some cands /\ first_in header cands col)
                 (dict_keys d) (CleanReader.cols reader)
      /\ CleanReader.preprocessing reader = CleanReader.strict.
Proof.
  intros self d header rows Hd Hndd Hall Hinj.
  assert (Hres : forall a, In a (dict_keys d) ->
            exists cands col, dict_get a d = Some cands /\ first_match header cands = Ok col).
  { intros x Hx. destruct (dict_get_keys x d Hx) as [cands Hc].
    destruct (Hall x cands Hc) as [c [Hh Hcand]].
    destruct (first_match_some header cands c Hh Hcand) as [c' Hc'].
    exists cands, c'. split; assumption. }
  destruct (@resolve_loop d header (dict_keys d) [] Hndd Hres) as [ad [Hfold [Hmaps _]]].
  { intros a b ca cb _ _. apply Hinj. }
  rewrite (@open_reader_unfold self d header rows ad Hd Hfold).
  destruct (@resolve_loop_entries d header (dict_keys d) [] ad Hfold) as [Hnd [Hent _]].
  specialize (Hnd (NoDup_nil _)).
  (* the column of each alias *)
  assert (Hcol : forall alias, In alias (dict_keys d) ->
            exists cands col,
              dict_get alias d = Some cands /\ first_match header cands = Ok col
              /\ dict_item alias (dict_of_items (map (fun item => (snd item, fst item)) ad)) = Ok col
              /\ dict_item col ad = Ok alias).
  { intros alias Hin. destruct (Hres alias Hin) as [cands [col [Hg Hf]]].
    exists cands, col. split; [exact Hg|]. split; [exact Hf|].
    pose proof (Hmaps alias cands col Hin Hg Hf) as Hget.
    pose proof (@colname_dict_get ad alias Hnd) as Hcd. unfold dict_item.
    destruct (dict_get alias (dict_of_items _)) as [col'|].
    - destruct (Hent col' alias Hcd) as [Hnil|[_ [cands' [Hg' Hf']]]]; [discriminate|].
      rewrite Hg in Hg'. inversion Hg'; subst cands'.
      rewrite Hf in Hf'. inversion Hf'; subst col'. rewrite Hget. auto.
    - exfalso. apply (Hcd col Hget). }
  clear Hfold Hmaps Hent Hres.
  assert (Hlists : forall als, incl als (dict_keys d) ->
            exists colnames,
              mapM (fun alias =>
                      dict_item alias (dict_of_items (map (fun item => (snd item, fst item)) ad)))
                   als = Ok colnames
              /\ mapM (fun col => dict_item col ad) colnames = Ok als
              /\ Forall2 (fun alias col =>
                            exists cands, dict_get alias d = Some cands /\ first_in header cands col)
                         als colnames).
  { induction als as [|alias als IH]; intros Hincl.
    - exists []. repeat split. constructor.
    - destruct (Hcol alias (Hincl alias (or_introl eq_refl))) as [cands [col [Hg [Hf [Hc Ha]]]]].
      destruct IH as [colnames [Hm1 [Hm2 HF]]].
      { intros x Hx. apply Hincl. right. exact Hx. }
      exists (col :: colnames). simpl. rewrite Hc, Hm1, Ha, Hm2.
      repeat split. constructor; [|exact HF].
      exists cands. split; [exact Hg | apply first_match_Ok, Hf]. }
  destruct (Hlists (dict_keys d) (incl_refl _)) as [colnames [Hm1 [Hm2 HF]]].
  rewrite Hm1. simpl. unfold CleanReader.init.
  destruct ad as [|kv ad'].
  - (* no alias at all *)
    destruct (dict_keys d) as [|alias als] eqn:Ek.
    + inversion HF; subst. eexists. repeat split. simpl. constructor.
    + exfalso. destruct (Hcol alias (or_introl eq_refl)) as [_ [col [_ [_ [_ Ha]]]]].
      discriminate.
  - rewrite Hm2. simpl. eexists. repeat split. simpl. exact HF.
Qed.

End ReaderOfAFile.

(* ================================================================== *)
(** * Further properties: what a run counts *)
(* ================================================================== *)

Section Counting.
Context {L : Library}.
Import MultiFileCounter.

(** ** The files parsed *)

Lemma iter_files_parsed (fs : list csv_file) :
  forall self : MultiFileCounter.t,
    match snd (iter self fs) with
    | None => _files_parsed (fst (iter self fs)) = _files_parsed self + Z.of_nat (List.length fs)
    | Some e =>
        exists before file after done,
          fs = (before ++ file :: after)%list
          /\ iter self before = (done, None)
          /\ snd (run_file done file) = Some e
          /\ _files_parsed (fst (iter self fs))
             = _files_parsed self + Z.of_nat (List.length before)
    end.
Proof.
  induction fs as [|f fs IH]; intros self.
  - simpl. lia.
  - rewrite iter_cons. destruct (run_file self f) as [cs [e|]] eqn:Er.
    + simpl. exists [], f, fs, self. rewrite Er. simpl. repeat split. lia.
    + specialize (IH (file_done (with_counters self cs))).
      destruct (snd (iter (file_done (with_counters self cs)) fs)) as [e|].
      * destruct IH as [before [file [after [done [Hfs [Hbefore [Hfile Hparsed]]]]]]].
        exists (f :: before), file, after, done. subst fs. repeat split.
        -- rewrite iter_cons, Er. exact Hbefore.
        -- exact Hfile.
        -- rewrite Hparsed. simpl _files_parsed. simpl List.length. lia.
      * rewrite IH. simpl _files_parsed. simpl List.length. lia.
Qed.

(** ** The counts *)




(** ** The totals *)







(** ** A whole run *)




(** X7. [files_parsed] advances by one for each file read to its end:
    after a run that completes it has grown by [len(self)]; after a run that
    fails it has grown by the number of files that come before the file
    whose turn raised. *)
Theorem files_parsed_counts_the_completed_files :
  forall self : MultiFileCounter.t,
    match snd (count self) with
    | None => files_parsed (fst (count self)) = files_parsed self + len self
    | Some e =>
        exists before file after done,
          files self = (before ++ file :: after)%list
          /\ iter self before = (done, None)
          /\ snd (run_file done file) = Some e
          /\ files_parsed (fst (count self))
             = files_parsed self + Z.of_nat (List.length before)
    end.
Proof. intros self. unfold count, files_parsed, len. apply iter_files_parsed. Qed.

End Counting.

(* ================================================================== *)
(** * Further properties: the counters a run leaves *)
(* ================================================================== *)

Section CountersOfARun.
Context {L : Library}.
Import MultiFileCounter.

(** ** The rows of a reader *)

Lemma Forall2_In_r (A B : Type) (R : A -> B -> Prop) (xs : list A) (ys : list B) (y : B) :
  Forall2 R xs ys -> In y ys -> exists x, In x xs /\ R x y.
Proof.
  induction 1 as [|x0 y0 xs ys HR HF IH]; intros Hin.
  - contradiction.
  - destruct Hin as [Heq|Hin].
    + subst y0. exists x0. split; [left; reflexivity | exact HR].
    + destruct (IH Hin) as [x [Hx HRx]]. exists x. split; [right; exact Hx | exact HRx].
Qed.

Lemma Forall2_back (A B : Type) (R1 : A -> B -> Prop) (R2 : B -> A -> Prop)
    (xs : list A) (ys : list B) (zs : list A) :
  Forall2 R1 xs ys -> Forall2 R2 ys zs ->
  (forall x y z, R1 x y -> R2 y z -> z = x) ->
  zs = xs.
Proof.
  intros H1. revert zs. induction H1 as [|x y xs ys Hxy _ IH]; intros zs H2 Hback.
  - inversion H2. reflexivity.
  - inversion H2 as [|? z ? zs' Hyz H2']; subst.
    rewrite (Hback x y z Hxy Hyz), (IH zs' H2' Hback). reflexivity.
Qed.

(** The reader of a file names the fields of its rows by the aliases of the
    registry, all of them, in the order of the registry. *)
Lemma open_reader_names_the_aliases (self : MultiFileCounter.t) (d : dict (list string))
    (file : csv_file) (reader : CleanReader.t) :
  colname_list_dict self = Some d ->
  open_reader self file = Ok reader ->
  CleanReader.aliases reader = dict_keys d
  /\ List.length (CleanReader.aliases reader) = List.length (CleanReader.cols reader).
Proof.
  intros Hd Hopen. destruct file as [|header rows]; [discriminate|].
  destruct (foldM (resolve_step d header) (dict_keys d) []) as [ad|e] eqn:Hfold.
  - rewrite (@open_reader_unfold _ self d header rows ad Hd Hfold) in Hopen.
    destruct (@resolve_loop_entries d header (dict_keys d) [] ad Hfold) as [Hnd _].
    specialize (Hnd (NoDup_nil _)).
    destruct (mapM _ (dict_keys d)) as [colnames|e] eqn:Em; [|discriminate].
    change (CleanReader.init (header :: rows) colnames (Some ad) CleanReader.strict
            = Ok reader) in Hopen.
    destruct (@init_lengths _ _ _ _ _ Hopen) as [Hcols [Hlen _]].
    split; [|rewrite Hcols; exact Hlen].
    unfold CleanReader.init in Hopen.
    apply mapM_Ok_Forall2 in Em.
    destruct ad as [|kv ad'].
    + inversion Hopen. simpl.
      destruct Em as [|alias col als cols' Hitem _]; [reflexivity | discriminate].
    + destruct (mapM (fun col => dict_item col (kv :: ad')) colnames) as [al|e] eqn:Ea;
        [|discriminate].
      inversion Hopen. simpl. apply mapM_Ok_Forall2 in Ea.
      apply (Forall2_back Em Ea).
      intros alias col x Hcol Hx. unfold dict_item in Hcol, Hx.
      pose proof (@colname_dict_get (kv :: ad') alias Hnd) as Hcd.
      destruct (dict_get alias (dict_of_items _)) as [col'|]; [|discriminate].
      inversion Hcol; subst col'. rewrite Hcd in Hx. inversion Hx. reflexivity.
  - unfold open_reader in Hopen.
    rewrite (alias_dict_registry self header rows Hd), Hfold in Hopen. discriminate.
Qed.

Lemma read_rows_keys (self : CleanReader.t) (fieldnames : list string)
    (rows : list (list string)) (tup : CleanReader.RowTup) :
  List.length (CleanReader.aliases self) = List.length (CleanReader.cols self) ->
  In tup (fst (CleanReader.read_rows self fieldnames rows)) ->
  dict_keys tup = CleanReader.aliases self.
Proof.
  intros Hlen. induction rows as [|row rows IH]; simpl; [contradiction|].
  destruct row as [|x row]; [exact IH|].
  destruct (CleanReader.read_row self fieldnames (x :: row)) as [t|e] eqn:Er; [|contradiction].
  destruct (CleanReader.read_rows self fieldnames rows) as [tups e]. simpl in *.
  intros [Heq|Hin]; [|apply IH, Hin]. subst t.
  unfold CleanReader.read_row in Er.
  destruct (mapM _ (CleanReader.cols self)) as [row_data|e'] eqn:Em; [|discriminate].
  simpl in Er. inversion Er. apply mapM_Ok_Forall2, Forall2_length in Em.
  apply combine_split_exact. congruence.
Qed.

(** Under [counters_by_field] the lookup of a counter on a row of the run
    is one that [CleanReader.getattr] describes: the alias is a field of the
    row, or a name outside [CleanReader.tuple_member]. *)
Lemma lookups_by_field (self : MultiFileCounter.t) (file : csv_file)
    (row : CleanReader.RowTup) (alias : string) :
  counters_by_field self ->
  In alias (dict_keys (_counters self)) ->
  In row (rows_read self file) ->
  (exists entry, CleanReader.getattr row alias = Ok entry)
  \/ CleanReader.tuple_member alias = false.
Proof.
  intros Hby Hin Hrow. unfold counters_by_field in Hby. rewrite Forall_forall in Hby.
  destruct (Hby alias Hin) as [Hreg|Hplain]; [left | right; exact Hplain].
  unfold registry_of in Hreg.
  destruct (colname_list_dict self) as [d|] eqn:Hd; [|contradiction].
  unfold rows_read in Hrow.
  destruct (open_reader self file) as [reader|e] eqn:Hopen; [|contradiction].
  destruct (@open_reader_names_the_aliases self d file reader Hd Hopen) as [Hal Hlen].
  assert (Hkeys : dict_keys row = dict_keys d).
  { rewrite <- Hal. unfold CleanReader.iter in Hrow.
    destruct (CleanReader.namedtuple_ok _); [|contradiction].
    destruct (CleanReader.file_path reader) as [|h rows]; [contradiction|].
    eapply read_rows_keys; eassumption. }
  rewrite <- Hkeys in Hreg. destruct (dict_get_keys alias row Hreg) as [entry Hentry].
  exists entry. unfold CleanReader.getattr. rewrite Hentry. reflexivity.
Qed.

Lemma read_row_normalized (self : CleanReader.t) (fieldnames row : list string)
    (tup : CleanReader.RowTup) :
  CleanReader.read_row self fieldnames row = Ok tup ->
  Forall (fun kv => case_normalized (snd kv)) tup.
Proof.
  unfold CleanReader.read_row. intros H.
  destruct (mapM _ (CleanReader.cols self)) as [row_data|e] eqn:Em; [|discriminate].
  simpl in H. inversion H; subst tup. clear H.
  apply mapM_Ok_Forall2 in Em. rewrite Forall_forall. intros [k v] Hin.
  apply in_combine_r in Hin. simpl.
  destruct (@Forall2_In_r _ _ _ _ _ _ Em Hin) as [col [_ Hcol]]. simpl in Hcol.
  unfold dict_item in Hcol.
  destruct (dict_get col _) as [[entry|]|]; simpl in Hcol; try discriminate.
  eapply preprocess_text_normalized. exact Hcol.
Qed.

Lemma read_rows_normalized (self : CleanReader.t) (fieldnames : list string)
    (rows : list (list string)) :
  Forall (Forall (fun kv => case_normalized (snd kv)))
         (fst (CleanReader.read_rows self fieldnames rows)).
Proof.
  induction rows as [|row rows IH]; simpl.
  - constructor.
  - destruct row as [|x row]; [exact IH|].
    destruct (CleanReader.read_row self fieldnames (x :: row)) as [tup|e] eqn:Er.
    + destruct (CleanReader.read_rows self fieldnames rows) as [tups e]. simpl in *.
      constructor; [|exact IH]. eapply read_row_normalized. exact Er.
    + constructor.
Qed.

Lemma iter_normalized (self : CleanReader.t) :
  Forall (Forall (fun kv => case_normalized (snd kv))) (fst (CleanReader.iter self)).
Proof.
  unfold CleanReader.iter. destruct (CleanReader.namedtuple_ok _); [|constructor].
  destruct (CleanReader.file_path self) as [|h rows]; [constructor|].
  apply read_rows_normalized.
Qed.

(** ** One more item *)

Lemma Forall_dict_set (V : Type) (P : string * V -> Prop) (k : string) (v : V) (d : dict V) :
  P (k, v) -> Forall P d -> Forall P (dict_set k v d).
Proof.
  intros Hkv. induction d as [|[k0 v0] d IH]; simpl; intros Hd.
  - constructor; [exact Hkv | constructor].
  - inversion Hd as [|? ? H0 Hd']; subst.
    destruct (String.eqb k k0); constructor; auto.
Qed.

Lemma get_nonneg (counter : ExtendedCounter.t) (item : string) :
  Forall (fun kv => case_normalized (fst kv) /\ 0 < snd kv) counter ->
  0 <= ExtendedCounter.get counter item.
Proof.
  intros Hpos. unfold ExtendedCounter.get.
  destruct (dict_get item counter) as [n|] eqn:E; [|lia].
  apply dict_get_In in E. rewrite Forall_forall in Hpos.
  apply Hpos in E. simpl in E. lia.
Qed.

Lemma incr_well_formed (item : string) (counter : ExtendedCounter.t) :
  case_normalized item -> well_formed counter ->
  well_formed (ExtendedCounter.incr item counter).
Proof.
  intros Hitem [Hnd Hall]. unfold ExtendedCounter.incr. split.
  - apply dict_set_keys_NoDup, Hnd.
  - apply Forall_dict_set; [|exact Hall]. simpl. split; [exact Hitem|].
    pose proof (@get_nonneg counter item Hall). lia.
Qed.

(** ** The loops *)

Lemma update_counters_well_formed (row : CleanReader.RowTup) :
  Forall (fun kv => case_normalized (snd kv)) row ->
  forall (als : list string) (cs : dict ExtendedCounter.t),
    Forall (fun kv => well_formed (snd kv)) cs ->
    Forall (fun kv => well_formed (snd kv)) (fst (update_counters row als cs)).
Proof.
  intros Hrow. induction als as [|a als IH]; intros cs Hcs; simpl; [exact Hcs|].
  unfold dict_item. destruct (dict_get a cs) as [c|] eqn:Ec; [|exact Hcs].
  unfold CleanReader.getattr. destruct (dict_get a row) as [it|] eqn:Eit; [|exact Hcs].
  apply IH. apply Forall_dict_set; [|exact Hcs]. simpl.
  apply incr_well_formed.
  - apply dict_get_In in Eit. rewrite Forall_forall in Hrow. apply (Hrow _ Eit).
  - apply dict_get_In in Ec. rewrite Forall_forall in Hcs. apply (Hcs _ Ec).
Qed.

Lemma count_rows_well_formed (self : MultiFileCounter.t) (rows : list CleanReader.RowTup) :
  Forall (Forall (fun kv => case_normalized (snd kv))) rows ->
  forall cs : dict ExtendedCounter.t,
    Forall (fun kv => well_formed (snd kv)) cs ->
    Forall (fun kv => well_formed (snd kv)) (fst (count_rows self rows cs)).
Proof.
  induction rows as [|row rows IH]; intros Hrows cs Hcs; simpl; [exact Hcs|].
  inversion Hrows as [|? ? Hrow Hrows']; subst.
  destruct (constraints_satisfied self row) as [[|]|e]; [| apply IH; assumption | exact Hcs].
  pose proof (@update_counters_well_formed row Hrow (dict_keys cs) cs Hcs) as Hup.
  destruct (update_counters row (dict_keys cs) cs) as [cs1 [e|]]; simpl in Hup; [exact Hup|].
  apply IH; assumption.
Qed.

Lemma run_file_well_formed (self : MultiFileCounter.t) (file : csv_file) :
  Forall (fun kv => well_formed (snd kv)) (_counters self) ->
  Forall (fun kv => well_formed (snd kv)) (fst (run_file self file)).
Proof.
  intros Hcs. unfold run_file.
  destruct (open_reader self file) as [r|e]; [|exact Hcs].
  pose proof (iter_normalized r) as Hrows.
  destruct (CleanReader.iter r) as [tups stopped]. simpl in Hrows.
  pose proof (@count_rows_well_formed self tups Hrows (_counters self) Hcs) as Hrun.
  destruct (count_rows self tups (_counters self)) as [cs raised]. exact Hrun.
Qed.

Lemma iter_well_formed (fs : list csv_file) :
  forall self : MultiFileCounter.t,
    Forall (fun kv => well_formed (snd kv)) (_counters self) ->
    Forall (fun kv => well_formed (snd kv)) (_counters (fst (iter self fs))).
Proof.
  induction fs as [|f fs IH]; intros self Hcs; [exact Hcs|].
  rewrite iter_cons. pose proof (@run_file_well_formed self f Hcs) as Hrun.
  destruct (run_file self f) as [cs [e|]]; simpl in Hrun; [exact Hrun|].
  apply IH. exact Hrun.
Qed.

Lemma empty_counters_well_formed (cs : dict ExtendedCounter.t) :
  Forall (fun kv => snd kv = ExtendedCounter.empty) cs ->
  Forall (fun kv => well_formed (snd kv)) cs.
Proof.
  apply Forall_impl. intros kv Heq. rewrite Heq. split; constructor.
Qed.

(** ** The report of a counter *)

(** The body of the report of a well-formed counter: no percentage raises,
    and there is a line for each of the top entries. *)
Lemma gen_counter_text_well_formed (counter : ExtendedCounter.t) (n : Z) (delimiter : string) :
  well_formed counter ->
  exists lines,
    h1b_counting.gen_counter_text counter n delimiter = Ok lines
    /\ List.length lines = Nat.min (Z.to_nat n) (List.length counter).
Proof.
  intros [Hnd Hwf].
  destruct (most_common_picks counter n) as [Hincl [Hlen _]].
  set (picked := ExtendedCounter.most_common n counter) in *.
  pose proof (sorted_perm h1b_counting.rank_le picked) as Hperm.
  set (top := sorted h1b_counting.rank_le picked) in *.
  assert (Hin : forall x, In x top -> In x counter).
  { intros x Hx. apply Hincl. eapply Permutation_in; [exact Hperm | exact Hx]. }
  assert (Hpos : Forall (fun kv => 0 < snd kv) counter).
  { apply (Forall_impl _ (fun kv H => proj2 H) Hwf). }
  rewrite Forall_forall in Hwf.
  destruct (mapM_all_Ok (report_line delimiter (ExtendedCounter.total counter)) top)
    as [lines Hlines].
  { intros entry Hentry. unfold report_line.
    pose proof (@count_within_total counter entry Hpos (Hin entry Hentry)) as Hc.
    destruct (@percentage_of_part _ _ Hc) as [pct Hp].
    rewrite Hp. simpl. eauto. }
  exists lines. split.
  - unfold h1b_counting.gen_counter_text. fold picked. fold top.
    rewrite lines_of_entries; [exact Hlines|].
    intros entry Hentry. apply percent_str_entry; auto.
    apply (Hwf entry (Hin entry Hentry)).
  - apply mapM_Ok_Forall2 in Hlines. rewrite <- (Forall2_length Hlines).
    rewrite (Permutation_length Hperm). exact Hlen.
Qed.

(** X8. The counters stay as the report needs them.  On an instance whose
    counters are looked up by field (each on an alias of the registry, or on
    a name a row answers only as a field), if every counter is well formed
    before [count] (no value twice, every value 7-bit and in lower case,
    every count positive), every counter is well formed after it, whether
    the run completes or fails.  A counter on [count], [index] or an
    underscore name outside the registry is left out: there the row answers
    with a method or a tuple, and that object would be counted.  On the
    instances that are left every lookup of a counter is on a field or
    raises ([lookups_by_field]). *)
Theorem count_keeps_the_counters_well_formed :
  forall self : MultiFileCounter.t,
    counters_by_field self ->
    Forall (fun kv => well_formed (snd kv)) (_counters self) ->
    Forall (fun kv => well_formed (snd kv)) (_counters (fst (count self))).
Proof. intros self _. apply iter_well_formed. Qed.

(** X9. The report of a counter filled by [count] never raises: on an
    instance whose counters were empty and are looked up by field, whatever
    the outcome of the run, [gen_counter_text] returns for every counter of
    the instance, every N and every delimiter, and gives min(N, number of
    values) lines. *)
Theorem report_of_a_counted_counter :
  forall (self : MultiFileCounter.t) (alias : string) (counter : ExtendedCounter.t)
         (n : Z) (delimiter : string),
    counters_by_field self ->
    Forall (fun kv => snd kv = ExtendedCounter.empty) (_counters self) ->
    dict_get alias (counters (fst (count self))) = Some counter ->
    exists lines,
      h1b_counting.gen_counter_text counter n delimiter = Ok lines
      /\ List.length lines = Nat.min (Z.to_nat n) (List.length counter).
Proof.
  intros self alias counter n delimiter _ Hempty Hget.
  apply gen_counter_text_well_formed.
  pose proof (@iter_well_formed (files self) self (empty_counters_well_formed Hempty)) as Hwf.
  apply dict_get_In in Hget. rewrite Forall_forall in Hwf. apply (Hwf _ Hget).
Qed.

End CountersOfARun.

(* ================================================================== *)
(** * Further properties: the program *)
(* ================================================================== *)

Section Program.
Context {L : Library}.
Import MultiFileCounter h1b_counting.

Lemma dict_set_twice (V : Type) (k : string) (v v' : V) (d : dict V) :
  dict_set k v (dict_set k v' d) = dict_set k v d.
Proof.
  induction d as [|[k0 v0] d IH]; simpl.
  - rewrite String.eqb_refl. reflexivity.
  - destruct (String.eqb k k0) eqn:E; simpl.
    + rewrite String.eqb_refl. reflexivity.
    + rewrite E, IH. reflexivity.
Qed.

Lemma dict_set_held (V : Type) (k : string) (v : V) (d : dict V) :
  dict_get k d = Some v -> dict_set k v d = d.
Proof.
  induction d as [|[k0 v0] d IH]; simpl.
  - discriminate.
  - destruct (String.eqb k k0) eqn:E.
    + apply String.eqb_eq in E. intros H. inversion H. subst. reflexivity.
    + intros H. rewrite (IH H). reflexivity.
Qed.

(** Writing two files again, with the same contents, changes nothing. *)
Lemma write_twice (V : Type) (k1 k2 : string) (v1 v2 : V) (d : dict V) :
  dict_set k2 v2 (dict_set k1 v1 (dict_set k2 v2 (dict_set k1 v1 d)))
  = dict_set k2 v2 (dict_set k1 v1 d).
Proof.
  destruct (String.eqb k1 k2) eqn:E.
  - apply String.eqb_eq in E. subst k2. rewrite !dict_set_twice. reflexivity.
  - assert (H1 : dict_get k1 (dict_set k2 v2 (dict_set k1 v1 d)) = Some v1).
    { rewrite dict_get_set, E. apply dict_get_set_same. }
    rewrite (dict_set_held _ _ H1). apply dict_set_twice.
Qed.

Lemma main_unfold (input_files : list csv_file) (o1 o2 : string) (disk : dict string) :
  main input_files o1 o2 disk
  = match count (configured input_files) with
    | (_, Some e) => (disk, Some e)
    | (mfc, None) =>
        match dict_item "occupation" (counters mfc) with
        | Raise e => (disk, Some e)
        | Ok counter_1 =>
            match dict_item "state" (counters mfc) with
            | Raise e => (disk, Some e)
            | Ok counter_2 =>
                match write_output_file disk o1 header_1 counter_1 10 ";" with
                | Raise e => (disk, Some e)
                | Ok disk =>
                    match write_output_file disk o2 header_2 counter_2 10 ";" with
                    | Raise e => (disk, Some e)
                    | Ok disk => (disk, None)
                    end
                end
            end
        end
    end.
Proof. reflexivity. Qed.

(** What [main] does, from the run of its counter. *)
Lemma main_outcome (input_files : list csv_file) (o1 o2 : string) (disk : dict string) :
  match snd (count (configured input_files)) with
  | Some e => main input_files o1 o2 disk = (disk, Some e)
  | None =>
      exists occupations states body_1 body_2,
        dict_get "occupation" (counters (fst (count (configured input_files))))
        = Some occupations
        /\ dict_get "state" (counters (fst (count (configured input_files)))) = Some states
        /\ gen_counter_text occupations 10 ";" = Ok body_1
        /\ gen_counter_text states 10 ";" = Ok body_2
        /\ main input_files o1 o2 disk
           = (dict_set o2 (report_text header_2 body_2)
                (dict_set o1 (report_text header_1 body_1) disk), None)
  end.
Proof.
  rewrite main_unfold.
  pose proof (iter_keys input_files (configured input_files)) as Hkeys.
  pose proof (@iter_well_formed _ input_files (configured input_files)) as Hwf.
  unfold count. change (files (configured input_files)) with input_files.
  destruct (iter (configured input_files) input_files) as [mfc [e|]]; simpl fst in *; simpl snd.
  - reflexivity.
  - specialize (Hwf ltac:(repeat constructor)).
    unfold counters, dict_item.
    destruct (_counters mfc) as [|[k1 c1] [|[k2 c2] [|kv cs]]]; try discriminate.
    simpl in Hkeys. injection Hkeys as Hk1 Hk2. subst k1 k2. simpl.
    inversion Hwf as [|? ? Hc1 Hwf']; subst. inversion Hwf' as [|? ? Hc2 _]; subst.
    simpl in Hc1, Hc2.
    destruct (@gen_counter_text_well_formed c1 10 ";" Hc1) as [body_1 [Hb1 _]].
    destruct (@gen_counter_text_well_formed c2 10 ";" Hc2) as [body_2 [Hb2 _]].
    exists c1, c2, body_1, body_2. unfold write_output_file. rewrite Hb1, Hb2. simpl.
    repeat split.
Qed.

(** X10. [main] fails only while counting.  When the run of its counter
    (the registry of [main], the constraint [status == certified], the
    counters of [occupation] and [state]) raises, [main] ends with that
    exception and writes nothing.  Otherwise it ends without an exception,
    and the disk is the one it found with, at the first path, the header
    line of the occupations followed by the top ten lines of the occupation
    counter and then, at the second path, the same for the states. *)
Theorem main_fails_only_while_counting :
  forall (input_files : list csv_file) (output_filepath_1 output_filepath_2 : string)
         (disk : dict string),
    match snd (count (configured input_files)) with
    | Some e => main input_files output_filepath_1 output_filepath_2 disk = (disk, Some e)
    | None =>
        exists occupations states body_1 body_2,
          dict_get "occupation" (counters (fst (count (configured input_files))))
          = Some occupations
          /\ dict_get "state" (counters (fst (count (configured input_files)))) = Some states
          /\ gen_counter_text occupations 10 ";" = Ok body_1
          /\ gen_counter_text states 10 ";" = Ok body_2
          /\ main input_files output_filepath_1 output_filepath_2 disk
             = (dict_set output_filepath_2 (report_text header_2 body_2)
                  (dict_set output_filepath_1 (report_text header_1 body_1) disk), None)
    end.
Proof. intros. apply main_outcome. Qed.

(** X11. Running [main] again on the same input files, with the output
    files of the first run in place, gives the same outcome and leaves the
    disk as the first run left it. *)
Theorem main_is_idempotent :
  forall (input_files : list csv_file) (output_filepath_1 output_filepath_2 : string)
         (disk : dict string),
    main input_files output_filepath_1 output_filepath_2
         (fst (main input_files output_filepath_1 output_filepath_2 disk))
    = main input_files output_filepath_1 output_filepath_2 disk.
Proof.
  intros input_files o1 o2 disk.
  pose proof (main_outcome input_files o1 o2 disk) as H1.
  pose proof (main_outcome input_files o1 o2 (fst (main input_files o1 o2 disk))) as H2.
  destruct (snd (count (configured input_files))) as [e|].
  - rewrite H2, H1. reflexivity.
  - destruct H1 as [c1 [c2 [b1 [b2 [Hc1 [Hc2 [Hb1 [Hb2 Hm1]]]]]]]].
    destruct H2 as [c1' [c2' [b1' [b2' [Hc1' [Hc2' [Hb1' [Hb2' Hm2]]]]]]]].
    rewrite Hc1 in Hc1'. inversion Hc1'; subst c1'.
    rewrite Hc2 in Hc2'. inversion Hc2'; subst c2'.
    rewrite Hb1 in Hb1'. inversion Hb1'; subst b1'.
    rewrite Hb2 in Hb2'. inversion Hb2'; subst b2'.
    rewrite Hm2, Hm1. simpl fst. rewrite write_twice. reflexivity.
Qed.

End Program.

(* ================================================================== *)
(** * Further properties: the order of the files *)
(* ================================================================== *)

Section FileOrder.
Context {L : Library}.
Import MultiFileCounter.

Lemma alike_refl (s : MultiFileCounter.t) : alike s s.
Proof. repeat split. intros. lia. Qed.

Lemma alike_trans (s1 s2 s3 : MultiFileCounter.t) : alike s1 s2 -> alike s2 s3 -> alike s1 s3.
Proof.
  intros [Hr1 [Hc1 [Hk1 Hn1]]] [Hr2 [Hc2 [Hk2 Hn2]]]. repeat split; try congruence.
  intros alias item. rewrite Hn2, Hn1. lia.
Qed.

Lemma iter_alike (fs : list csv_file) (s1 s2 : MultiFileCounter.t) :
  alike s1 s2 ->
  snd (iter s2 fs) = snd (iter s1 fs) /\ alike (fst (iter s1 fs)) (fst (iter s2 fs)).
Proof.
  intros [Hreg [Hcons Hs]].
  destruct (@iter_shifted _ (fun _ _ => 0) fs s1 s2 Hreg Hcons Hs) as [He Hs'].
  destruct (iter_keeps_configuration fs s1) as [Hr1 [Hc1 _]].
  destruct (iter_keeps_configuration fs s2) as [Hr2 [Hc2 _]].
  split; [exact He|]. repeat split; try congruence; apply Hs'.
Qed.

(** The counts a file adds do not depend on the counts it finds. *)
Lemma run_file_adds (s1 s2 : MultiFileCounter.t) (file : csv_file) :
  colname_list_dict s1 = colname_list_dict s2 ->
  _constraints s1 = _constraints s2 ->
  dict_keys (_counters s1) = dict_keys (_counters s2) ->
  snd (run_file s2 file) = snd (run_file s1 file)
  /\ forall alias item,
       counted (fst (run_file s2 file)) alias item
       = counted (fst (run_file s1 file)) alias item
         + (counted (_counters s2) alias item - counted (_counters s1) alias item).
Proof.
  intros Hreg Hcons Hkeys.
  destruct (@run_file_shifted _
              (fun alias item => counted (_counters s2) alias item
                                 - counted (_counters s1) alias item)
              s1 s2 file Hreg Hcons) as [He [_ Hs]].
  - split; [exact Hkeys | intros; lia].
  - split; [exact He | exact Hs].
Qed.

Lemma iter_swap (x y : csv_file) (l : list csv_file) (s1 s2 : MultiFileCounter.t) :
  alike s1 s2 ->
  (snd (iter s1 (y :: x :: l)) = None <-> snd (iter s2 (x :: y :: l)) = None)
  /\ (snd (iter s1 (y :: x :: l)) = None ->
      alike (fst (iter s1 (y :: x :: l))) (fst (iter s2 (x :: y :: l)))).
Proof.
  intros [Hreg [Hcons [Hkeys Hsame]]].
  rewrite (iter_cons s1 y), (iter_cons s2 x).
  (* the two files, each from the first instance *)
  pose proof (run_file_keys s1 x) as Hkx. pose proof (run_file_keys s1 y) as Hky.
  destruct (@run_file_adds s1 s2 x Hreg Hcons Hkeys) as [Hex2 Hcx2].
  pose proof (run_file_keys s2 x) as Hkx2.
  destruct (run_file s1 x) as [Ax ex] eqn:Ex. destruct (run_file s1 y) as [Ay ey] eqn:Ey.
  destruct (run_file s2 x) as [Bx ex2] eqn:Ex2.
  simpl in Hkx, Hky, Hex2, Hcx2, Hkx2. subst ex2.
  destruct ey as [ey|]; destruct ex as [ex|].
  - simpl. split; [split; discriminate | discriminate].
  - (* y fails: it fails after x as well *)
    simpl snd at 1. rewrite iter_cons.
    destruct (@run_file_adds s1 (file_done (with_counters s2 Bx)) y) as [Hey _];
      try (simpl; congruence).
    rewrite Ey in Hey. simpl in Hey.
    destruct (run_file (file_done (with_counters s2 Bx)) y) as [Bxy exy]. simpl in Hey.
    subst exy. simpl. split; [split; discriminate | discriminate].
  - (* x fails: it fails after y as well *)
    rewrite iter_cons.
    destruct (@run_file_adds s1 (file_done (with_counters s1 Ay)) x) as [Hex _];
      try (simpl; congruence).
    rewrite Ex in Hex. simpl in Hex.
    destruct (run_file (file_done (with_counters s1 Ay)) x) as [Ayx eyx]. simpl in Hex.
    subst eyx. simpl. split; [split; discriminate | discriminate].
  - rewrite !iter_cons.
    destruct (@run_file_adds s1 (file_done (with_counters s1 Ay)) x) as [Hex Hcx];
      try (simpl; congruence).
    destruct (@run_file_adds s1 (file_done (with_counters s2 Bx)) y) as [Hey Hcy];
      try (simpl; congruence).
    pose proof (run_file_keys (file_done (with_counters s1 Ay)) x) as Hk1.
    pose proof (run_file_keys (file_done (with_counters s2 Bx)) y) as Hk2.
    rewrite Ex in Hex, Hcx. rewrite Ey in Hey, Hcy. simpl in Hex, Hcx, Hey, Hcy, Hk1, Hk2.
    destruct (run_file (file_done (with_counters s1 Ay)) x) as [Ayx eyx].
    destruct (run_file (file_done (with_counters s2 Bx)) y) as [Bxy exy].
    simpl in Hex, Hcx, Hey, Hcy, Hk1, Hk2. subst eyx exy.
    assert (Hal : alike (file_done (with_counters (file_done (with_counters s1 Ay)) Ayx))
                        (file_done (with_counters (file_done (with_counters s2 Bx)) Bxy))).
    { repeat split; simpl; try assumption; try congruence.
      intros alias item. rewrite Hcy, Hcx, Hcx2, Hsame. lia. }
    destruct (iter_alike l Hal) as [He Hal'].
    split; [rewrite He; tauto | intros _; exact Hal'].
Qed.

Lemma iter_permuted (fs fs' : list csv_file) :
  Permutation fs fs' ->
  forall s1 s2 : MultiFileCounter.t,
    alike s1 s2 ->
    (snd (iter s1 fs) = None <-> snd (iter s2 fs') = None)
    /\ (snd (iter s1 fs) = None -> alike (fst (iter s1 fs)) (fst (iter s2 fs'))).
Proof.
  induction 1 as [|x l l' Hperm IH|x y l|l l' l'' H1 IH1 H2 IH2]; intros s1 s2 Hal.
  - simpl. split; [tauto | intros _; exact Hal].
  - rewrite !iter_cons. destruct Hal as [Hreg [Hcons Hs]].
    destruct (@run_file_shifted _ (fun _ _ => 0) s1 s2 x Hreg Hcons Hs) as [He Hs'].
    destruct (run_file s1 x) as [A eA]. destruct (run_file s2 x) as [B eB].
    simpl in He, Hs'. subst eB. destruct eA as [e|].
    + simpl. split; [split; discriminate | discriminate].
    + apply IH. repeat split; simpl; try assumption; apply Hs'.
  - apply iter_swap, Hal.
  - destruct (IH1 s1 s1 (alike_refl s1)) as [Hiff1 Hal1].
    destruct (IH2 s1 s2 Hal) as [Hiff2 Hal2].
    split; [tauto|]. intros Hnone.
    apply (alike_trans (Hal1 Hnone)). apply Hal2. tauto.
Qed.

(** X12. The order of the files does not change what is counted: over a
    permutation of the files the run completes exactly when it completes
    over the original order, and then it tracks the same aliases and has
    the same count for every item of every counter. *)
Theorem file_order_does_not_change_the_counts :
  forall (self : MultiFileCounter.t) (reordered : list csv_file),
    Permutation (files self) reordered ->
    let other := mk reordered (colname_list_dict self) (_counters self)
                    (_constraints self) (_files_parsed self) in
    (snd (count self) = None <-> snd (count other) = None)
    /\ (snd (count self) = None ->
        dict_keys (_counters (fst (count other))) = dict_keys (_counters (fst (count self)))
        /\ forall alias item,
             counted (_counters (fst (count other))) alias item
             = counted (_counters (fst (count self))) alias item).
Proof.
  intros self reordered Hperm other. unfold count. simpl files.
  destruct (@iter_permuted (files self) reordered Hperm self other) as [Hiff Hal].
  { repeat split. intros. simpl. lia. }
  split; [exact Hiff|]. intros Hnone.
  destruct (Hal Hnone) as [_ [_ [Hkeys Hsame]]].
  split; [symmetry; exact Hkeys|]. intros alias item. rewrite Hsame. lia.
Qed.

End FileOrder.

(* ================================================================== *)
(** * Further properties: the constraints *)
(* ================================================================== *)

Section MapMOrder.
Variables A B : Type.
Variable f : A -> result B.

(** A comprehension raises the exception of its first failing element. *)
Lemma mapM_Raise_first (xs : list A) (e : exn) :
  mapM f xs = Raise e
  <-> exists before x after,
        xs = (before ++ x :: after)%list
        /\ Forall (fun y => exists b, f y = Ok b) before
        /\ f x = Raise e.
Proof.
  induction xs as [|x0 xs IH]; simpl.
  - split; [discriminate|]. intros [before [x [after [Heq _]]]]. destruct before; discriminate.
  - destruct (f x0) as [y|e0] eqn:E0.
    + destruct (mapM f xs) as [ys|e1] eqn:Em.
      * split; [discriminate|].
        intros [before [x [after [Heq [Hok Hx]]]]].
        destruct before as [|b before]; simpl in Heq; inversion Heq; subst.
        -- congruence.
        -- inversion Hok; subst.
           assert (H : Ok ys = @Raise (list B) e) by (apply IH; exists before, x, after; repeat split; auto).
           discriminate.
      * split.
        -- intros Heq. inversion Heq; subst e1.
           destruct (proj1 IH eq_refl) as [before [x [after [Hxs [Hok Hx]]]]].
           exists (x0 :: before), x, after. subst xs. repeat split; auto.
           constructor; eauto.
        -- intros [before [x [after [Heq [Hok Hx]]]]].
           destruct before as [|b before]; simpl in Heq; inversion Heq; subst.
           ++ congruence.
           ++ inversion Hok; subst. apply IH. exists before, x, after. repeat split; auto.
    + split.
      * intros Heq. inversion Heq; subst e0. exists [], x0, xs. repeat split; auto.
      * intros [before [x [after [Heq [Hok Hx]]]]].
        destruct before as [|b before]; simpl in Heq; inversion Heq; subst.
        -- congruence.
        -- inversion Hok as [|? ? [b' Hb'] _]; subst. congruence.
Qed.

Lemma mapM_Ok_permuted (xs xs' : list A) :
  Permutation xs xs' ->
  forall ys, mapM f xs = Ok ys -> exists ys', mapM f xs' = Ok ys' /\ Permutation ys ys'.
Proof.
  induction 1 as [|x l l' Hperm IH|x y l|l l' l'' H1 IH1 H2 IH2]; intros ys Hys; simpl in *.
  - inversion Hys. exists []. split; [reflexivity | constructor].
  - destruct (f x) as [b|e]; [|discriminate].
    destruct (mapM f l) as [bs|e]; [|discriminate].
    inversion Hys; subst ys. destruct (IH bs eq_refl) as [bs' [Hbs' Hp]].
    rewrite Hbs'. exists (b :: bs'). split; [reflexivity | constructor; exact Hp].
  - destruct (f y) as [b|e]; [|discriminate].
    destruct (f x) as [a|e]; [|discriminate].
    destruct (mapM f l) as [bs|e]; [|discriminate].
    inversion Hys; subst ys. exists (a :: b :: bs). split; [reflexivity | constructor].
  - destruct (IH1 ys Hys) as [ys' [Hys' Hp1]].
    destruct (IH2 ys' Hys') as [ys'' [Hys'' Hp2]].
    exists ys''. split; [exact Hys'' | eapply perm_trans; eassumption].
Qed.
End MapMOrder.

Lemma all_permuted (bools bools' : list bool) :
  Permutation bools bools' ->
  forallb (fun b => b) bools = forallb (fun b => b) bools'.
Proof.
  induction 1 as [|x l l' Hperm IH|x y l|l l' l'' H1 IH1 H2 IH2]; simpl.
  - reflexivity.
  - rewrite IH. reflexivity.
  - destruct x, y; reflexivity.
  - congruence.
Qed.

Section Constraints.
Context {L : Library}.
Import MultiFileCounter.

Lemma admits_iff (self : MultiFileCounter.t) (row : CleanReader.RowTup) :
  constraints_satisfied self row = Ok true
  <-> Forall (fun con => check_constraint row con = Ok true) (_constraints self).
Proof.
  unfold constraints_satisfied.
  destruct (_constraints self) as [|con cons] eqn:Econs.
  - split; [intros _; constructor | reflexivity].
  - rewrite <- all_true_iff. unfold bind.
    destruct (mapM (check_constraint row) (con :: cons)) as [bools|e].
    + split.
      * intros Heq. inversion Heq as [Hall]. exists bools. rewrite Hall. split; reflexivity.
      * intros [bools' [Heq Hall]]. inversion Heq; subst. rewrite Hall. reflexivity.
    + split; [discriminate | intros [bools' [Heq _]]; discriminate].
Qed.

(** X13. [constraints_satisfied] evaluates every constraint, also after
    one of them has answered [False]: it raises exactly when the check of
    some constraint raises, with the exception of the first constraint whose
    check does; and when it returns, its answer does not depend on the order
    of the constraints. *)
Theorem constraints_are_all_evaluated :
  forall (self : MultiFileCounter.t) (row : CleanReader.RowTup),
    (forall e,
        constraints_satisfied self row = Raise e
        <-> exists before con after,
              _constraints self = (before ++ con :: after)%list
              /\ Forall (fun c => exists b, check_constraint row c = Ok b) before
              /\ check_constraint row con = Raise e)
    /\ (forall (other : MultiFileCounter.t) (b : bool),
           Permutation (_constraints self) (_constraints other) ->
           constraints_satisfied self row = Ok b ->
           constraints_satisfied other row = Ok b).
Proof.
  intros self row. split.
  - intros e. rewrite <- mapM_Raise_first. unfold constraints_satisfied.
    destruct (_constraints self) as [|con cons].
    + simpl. split; discriminate.
    + destruct (mapM (check_constraint row) (con :: cons)) as [bools|e0]; simpl.
      * split; discriminate.
      * split; intros H; inversion H; reflexivity.
  - intros other b Hperm. unfold constraints_satisfied.
    destruct (_constraints self) as [|con cons].
    + apply Permutation_nil in Hperm. rewrite Hperm. auto.
    + destruct (mapM (check_constraint row) (con :: cons)) as [bools|e0] eqn:Em;
        [|discriminate].
      destruct (mapM_Ok_permuted (check_constraint row) Hperm Em) as [bools' [Hm' Hp]].
      destruct (_constraints other) as [|con' cons'].
      * apply Permutation_sym, Permutation_nil in Hperm. discriminate.
      * rewrite Hm'. simpl. rewrite (all_permuted Hp). auto.
Qed.

(** X14. [add_constraint] accepts the five comparators [==], [<=], [>=],
    [<] and [>].  With any other string it raises [KeyError].  With one of
    them it appends the constraint and leaves the counters, the registry,
    the files and the number of files parsed alone; from then on a row
    satisfies the constraints exactly when it satisfied them before and
    passes the new constraint. *)
Theorem add_constraint_checks_the_comparator :
  forall (alias cmp : string) (val : pyobj) (self : MultiFileCounter.t),
    match add_constraint alias cmp val self with
    | Raise e => e = KeyError /\ ~ In cmp ["=="; "<="; ">="; "<"; ">"]
    | Ok self' =>
        In cmp ["=="; "<="; ">="; "<"; ">"]
        /\ exists op,
             dict_get cmp cmp_dict = Some op
             /\ constraints self' = (constraints self ++ [mkConstraint alias op val])%list
             /\ counters self' = counters self
             /\ colname_list_dict self' = colname_list_dict self
             /\ files self' = files self
             /\ files_parsed self' = files_parsed self
             /\ forall row,
                  constraints_satisfied self' row = Ok true
                  <-> (constraints_satisfied self row = Ok true
                       /\ check_constraint row (mkConstraint alias op val) = Ok true)
    end.
Proof.
  intros alias cmp val self. unfold add_constraint, dict_item.
  destruct (dict_get cmp cmp_dict) as [op|] eqn:E; simpl.
  - split.
    + apply dict_get_In in E. simpl in E.
      repeat (destruct E as [E|E]; [inversion E; subst; simpl; tauto|]). contradiction.
    + exists op. do 6 (split; [reflexivity|]).
      intros row. rewrite !admits_iff. simpl _constraints. rewrite Forall_app. split.
      * intros [H1 H2]. split; [exact H1|]. inversion H2. assumption.
      * intros [H1 H2]. split; [exact H1|]. constructor; [exact H2 | constructor].
  - split; [reflexivity|]. intros Hin. simpl in Hin, E.
    repeat (destruct Hin as [Hin|Hin]; [subst cmp; discriminate|]). contradiction.
Qed.

End Constraints.

(* ================================================================== *)
(** * Further properties: the registry *)
(* ================================================================== *)

Section Registry.
Context {L : Library}.
Import MultiFileCounter.

Lemma add_alias_registry (alias colname : string) (self : MultiFileCounter.t) :
  registry_of (add_alias alias colname self)
  = match dict_get alias (registry_of self) with
    | Some colnames => dict_set alias (colnames ++ [colname])%list (registry_of self)
    | None => dict_set alias [colname] (registry_of self)
    end.
Proof.
  unfold add_alias, registry_of.
  destruct (colname_list_dict self) as [[|kv d]|]; reflexivity.
Qed.

Lemma add_alias_get (alias colname other : string) (self : MultiFileCounter.t) :
  dict_get other (registry_of (add_alias alias colname self))
  = if String.eqb other alias
    then Some (match dict_get alias (registry_of self) with
               | Some known => known ++ [colname]
               | None => [colname]
               end)%list
    else dict_get other (registry_of self).
Proof.
  rewrite add_alias_registry.
  destruct (dict_get alias (registry_of self)) as [known|]; rewrite dict_get_set;
    destruct (String.eqb other alias); reflexivity.
Qed.

Lemma add_alias_keeps (alias colname : string) (self : MultiFileCounter.t) :
  _counters (add_alias alias colname self) = _counters self
  /\ _constraints (add_alias alias colname self) = _constraints self
  /\ files (add_alias alias colname self) = files self
  /\ _files_parsed (add_alias alias colname self) = _files_parsed self.
Proof. unfold add_alias. simpl. auto. Qed.

(** X15. After a sequence of [add_alias] calls the registry holds, for
    each alias, the candidates it held before followed by the column names
    the calls gave for it, in the order of the calls; an alias that no call
    names is as before, and an unset registry counts as an empty one.  The
    counters, the constraints, the files and the number of files parsed are
    not touched. *)
Theorem add_alias_collects_the_candidates :
  forall (pairs : list (string * string)) (self : MultiFileCounter.t) (alias : string),
    dict_get alias (registry_of (add_aliases pairs self))
    = match dict_get alias (registry_of self), candidates_given alias pairs with
      | None, [] => None
      | None, given => Some given
      | Some known, given => Some (known ++ given)%list
      end
    /\ counters (add_aliases pairs self) = counters self
    /\ constraints (add_aliases pairs self) = constraints self
    /\ files (add_aliases pairs self) = files self
    /\ files_parsed (add_aliases pairs self) = files_parsed self.
Proof.
  unfold counters, constraints, files_parsed.
  induction pairs as [|[a c] pairs IH]; intros self alias.
  - simpl. destruct (dict_get alias (registry_of self)) as [known|];
      [rewrite app_nil_r|]; auto.
  - unfold add_aliases in *. simpl fold_left.
    destruct (IH (add_alias a c self) alias) as [Hget [H1 [H2 [H3 H4]]]].
    destruct (add_alias_keeps a c self) as [K1 [K2 [K3 K4]]].
    split; [|repeat split; congruence].
    rewrite Hget, add_alias_get. unfold candidates_given. simpl filter.
    rewrite (String.eqb_sym a alias).
    destruct (String.eqb alias a) eqn:E.
    + apply String.eqb_eq in E. subst a.
      destruct (dict_get alias (registry_of self)) as [known|]; simpl map.
      * rewrite <- app_assoc. reflexivity.
      * reflexivity.
    + destruct (dict_get alias (registry_of self)) as [known|]; reflexivity.
Qed.

(** ** The order of the candidates *)

Lemma first_match_members (header c1 c2 : list string) :
  (forall c, In c c1 <-> In c c2) -> first_match header c1 = first_match header c2.
Proof.
  intros Hsame. unfold first_match.
  assert (Hfind : find (fun col => str_in col c1) header = find (fun col => str_in col c2) header).
  { induction header as [|h header IH]; simpl; [reflexivity|].
    assert (Hh : str_in h c1 = str_in h c2).
    { destruct (str_in h c1) eqn:E1; destruct (str_in h c2) eqn:E2; try reflexivity.
      - apply str_in_In, Hsame, str_in_In in E1. congruence.
      - apply str_in_In, Hsame, str_in_In in E2. congruence. }
    rewrite Hh, IH. reflexivity. }
  rewrite Hfind. reflexivity.
Qed.

Lemma same_candidates_keys (d d' : dict (list string)) :
  same_candidates d d' -> dict_keys d = dict_keys d'.
Proof.
  induction 1 as [|kv kv' d d' [Hk _] _ IH]; simpl; [reflexivity|]. rewrite Hk, IH. reflexivity.
Qed.

Lemma same_candidates_get (d d' : dict (list string)) (alias : string) :
  same_candidates d d' ->
  match dict_get alias d, dict_get alias d' with
  | Some c, Some c' => forall x, In x c <-> In x c'
  | None, None => True
  | _, _ => False
  end.
Proof.
  induction 1 as [|[k c] [k' c'] d d' [Hk Hc] _ IH]; simpl; [exact I|].
  simpl in Hk, Hc. subst k'. destruct (String.eqb alias k); [exact Hc | exact IH].
Qed.

Lemma foldM_ext (A S : Type) (f g : S -> A -> result S) (xs : list A) :
  (forall s x, f s x = g s x) -> forall s, foldM f xs s = foldM g xs s.
Proof.
  intros Hext. induction xs as [|x xs IH]; intros s; simpl; [reflexivity|].
  rewrite Hext. destruct (g s x); [apply IH | reflexivity].
Qed.

(** X16. The order and the repetition of the candidates of an alias do
    not matter: two registries with the same aliases in the same order, each
    alias with the same set of candidates, resolve every file alike
    ([alias_dict]) and give the same reader for it.  The column read for an
    alias is the first one in the header, whatever the order of the
    candidates. *)
Theorem candidate_order_does_not_matter :
  forall (self other : MultiFileCounter.t) (d d' : dict (list string)) (file : csv_file),
    colname_list_dict self = Some d ->
    colname_list_dict other = Some d' ->
    same_candidates d d' ->
    alias_dict self file = alias_dict other file
    /\ open_reader self file = open_reader other file.
Proof.
  intros self other d d' file Hd Hd' Hsame.
  assert (Had : alias_dict self file = alias_dict other file).
  { destruct file as [|header rows]; [reflexivity|].
    rewrite (alias_dict_registry self header rows Hd).
    rewrite (alias_dict_registry other header rows Hd').
    rewrite (@same_candidates_keys d d' Hsame). apply foldM_ext.
    intros acc a. unfold resolve_step, dict_item.
    pose proof (@same_candidates_get d d' a Hsame) as Hget.
    destruct (dict_get a d) as [c|]; destruct (dict_get a d') as [c'|];
      try contradiction; [|reflexivity].
    simpl. rewrite (@first_match_members header c c' Hget). reflexivity. }
  split; [exact Had|].
  unfold open_reader, colname_dict. rewrite Had. unfold aliases. rewrite Hd, Hd'.
  rewrite (@same_candidates_keys d d' Hsame). reflexivity.
Qed.

End Registry.

(* ================================================================== *)
(** * Further properties: the edges of the report *)
(* ================================================================== *)

Section ReportEdges.
Import h1b_counting.

Lemma lower_upper_char_any (c : ascii) : lower_char (upper_char c) = lower_char c.
Proof. destruct c as [[] [] [] [] [] [] [] []]; reflexivity. Qed.

Lemma lower_upper_any (s : string) : lower (upper s) = lower s.
Proof.
  unfold lower, upper. induction s as [|c s IH]; simpl; [reflexivity|].
  rewrite lower_upper_char_any, IH. reflexivity.
Qed.

Lemma insert_length (A : Type) (le : A -> A -> bool) (x : A) (l : list A) :
  List.length (insert le x l) = S (List.length l).
Proof.
  induction l as [|y l IH]; simpl; [reflexivity|].
  destruct (le x y); simpl; [reflexivity | rewrite IH; reflexivity].
Qed.

Lemma sorted_length (A : Type) (le : A -> A -> bool) (l : list A) :
  List.length (sorted le l) = List.length l.
Proof.
  induction l as [|x l IH]; simpl; [reflexivity|]. rewrite insert_length, IH. reflexivity.
Qed.

Lemma most_common_length (counter : ExtendedCounter.t) (n : Z) :
  List.length (ExtendedCounter.most_common n counter)
  = Nat.min (Z.to_nat n) (List.length counter).
Proof.
  unfold ExtendedCounter.most_common. rewrite length_firstn, sorted_length. reflexivity.
Qed.

(** X17. Whenever [gen_counter_text] returns, the body has min(N, number
    of values) lines.  With N <= 0 or an empty counter it returns no line
    and does not raise: no percentage is asked for, so the zero total of an
    empty counter divides nothing. *)
Theorem report_body_length :
  forall (counter : ExtendedCounter.t) (n : Z) (delimiter : string),
    (forall lines,
        gen_counter_text counter n delimiter = Ok lines ->
        List.length lines = Nat.min (Z.to_nat n) (List.length counter))
    /\ (n <= 0 \/ counter = [] -> gen_counter_text counter n delimiter = Ok []).
Proof.
  intros counter n delimiter. split.
  - intros lines. unfold gen_counter_text.
    set (top_n := sorted rank_le (ExtendedCounter.most_common n counter)).
    assert (Hlen : List.length top_n = Nat.min (Z.to_nat n) (List.length counter)).
    { unfold top_n. rewrite sorted_length. apply most_common_length. }
    destruct (mapM _ (map (fun tup => upper (fst tup)) top_n)) as [pcts|e] eqn:Em;
      [|discriminate].
    simpl. intros H. inversion H. clear H.
    apply mapM_Ok_Forall2 in Em. apply Forall2_length in Em. rewrite length_map in Em.
    rewrite length_map, !length_combine, !length_map, <- Em, !Nat.min_id. exact Hlen.
  - intros Hedge. unfold gen_counter_text.
    assert (Hnone : ExtendedCounter.most_common n counter = []).
    { apply length_zero_iff_nil. rewrite most_common_length.
      destruct Hedge as [Hn|Hc].
      - replace (Z.to_nat n) with 0%nat by lia. reflexivity.
      - subst counter. apply Nat.min_0_r. }
    rewrite Hnone. reflexivity.
Qed.

(** X18. [percent_str] looks a 7-bit item up in lower case: two 7-bit
    items with the same lower-case form get the same answer, and so does
    the upper-cased form of a 7-bit item; a 7-bit item whose lower-case form
    was not counted, on a counter with a positive total, gets [0.0%].  On a
    counter whose counts sum to zero (an empty counter is one) every item
    raises [ZeroDivisionError]. *)
Theorem percent_str_of_an_item :
  forall (counter : ExtendedCounter.t) (item : string),
    (seven_bit item ->
     forall other, seven_bit other -> lower other = lower item ->
       ExtendedCounter.percent_str counter other = ExtendedCounter.percent_str counter item)
    /\ (seven_bit item ->
        ExtendedCounter.percent_str counter (upper item)
        = ExtendedCounter.percent_str counter item)
    /\ (ExtendedCounter.total counter = 0 ->
        ExtendedCounter.percent_str counter item = Raise ZeroDivisionError)
    /\ (seven_bit item ->
        dict_get (lower item) counter = None ->
        0 < ExtendedCounter.total counter ->
        ExtendedCounter.percent_str counter item = Ok "0.0%").
Proof.
  intros counter item.
  assert (Hcase : forall other, lower other = lower item ->
            ExtendedCounter.percent_str counter other
            = ExtendedCounter.percent_str counter item).
  { intros other Heq. unfold ExtendedCounter.percent_str, ExtendedCounter.fraction.
    rewrite Heq. reflexivity. }
  split; [intros _ other _; apply Hcase|].
  split; [intros _; apply Hcase, lower_upper_any|]. split.
  - intros Hzero. unfold ExtendedCounter.percent_str, ExtendedCounter.fraction, int_true_div.
    rewrite Hzero. reflexivity.
  - intros _ Hnone Hpos.
    unfold ExtendedCounter.percent_str, ExtendedCounter.fraction, ExtendedCounter.get.
    rewrite (lower_idem item), Hnone. unfold int_true_div.
    replace (ExtendedCounter.total counter =? 0) with false by (symmetry; apply Z.eqb_neq; lia).
    replace (ExtendedCounter.total counter <? 0) with false by (symmetry; apply Z.ltb_ge; lia).
    reflexivity.
Qed.

End ReportEdges.

(* ================================================================== *)
(** * Further properties: runs that cannot count *)
(* ================================================================== *)

Section FailingRuns.
Context {L : Library}.
Import MultiFileCounter.

(** ** An empty file *)

(** X19. An empty file (one without a header row) stops the run:
    [next(reader)] raises [StopIteration] in [alias_dict], and the exception
    leaves the generator as a [RuntimeError].  The instance is left as the
    files before it left it; a run that an earlier file had already stopped
    keeps that file's exception. *)
Theorem empty_file_stops_the_run :
  forall (self : MultiFileCounter.t) (before after : list csv_file),
    files self = (before ++ [] :: after)%list ->
    count self
    = (fst (iter self before),
       Some match snd (iter self before) with
            | Some e => e
            | None => RuntimeError
            end).
Proof.
  intros self before after Hfiles. unfold count. rewrite Hfiles, iter_app.
  destruct (iter self before) as [self' [e|]]; cbn [fst snd].
  - reflexivity.
  - rewrite iter_cons. unfold run_file.
    change (open_reader self' []) with (@Raise CleanReader.t StopIteration).
    destruct self'; reflexivity.
Qed.

(** ** A counter on an alias the rows do not have *)

Lemma update_counters_missing_field (row : CleanReader.RowTup) (alias : string) :
  dict_get alias row = None ->
  forall (als : list string) (cs : dict ExtendedCounter.t),
    incl als (dict_keys cs) ->
    In alias als ->
    snd (update_counters row als cs) = Some AttributeError.
Proof.
  intros Hnone. induction als as [|a als IH]; intros cs Hincl Hin; [contradiction|].
  simpl. unfold dict_item.
  destruct (dict_get_keys a cs (Hincl a (or_introl eq_refl))) as [c Hc]. rewrite Hc.
  unfold CleanReader.getattr. destruct (dict_get a row) as [it|] eqn:Eit; [|reflexivity].
  apply IH.
  - rewrite (@dict_keys_set_present _ a _ c cs Hc). intros x Hx. apply Hincl. right. exact Hx.
  - destruct Hin as [Heq|Hin]; [subst a; congruence | exact Hin].
Qed.

Lemma count_rows_skipped (self : MultiFileCounter.t) (skipped : list CleanReader.RowTup) :
  Forall (fun row => constraints_satisfied self row = Ok false) skipped ->
  forall cs, count_rows self skipped cs = (cs, None).
Proof.
  induction 1 as [|row rows Hrow _ IH]; intros cs; simpl; [reflexivity|].
  rewrite Hrow. apply IH.
Qed.

(** The fields of the rows of a reader are its aliases. *)
Lemma read_rows_fields (self : CleanReader.t) (fieldnames : list string)
    (rows : list (list string)) (tup : CleanReader.RowTup) :
  In tup (fst (CleanReader.read_rows self fieldnames rows)) ->
  incl (dict_keys tup) (CleanReader.aliases self).
Proof.
  induction rows as [|row rows IH]; simpl; [contradiction|].
  destruct row as [|x row]; [exact IH|].
  destruct (CleanReader.read_row self fieldnames (x :: row)) as [t|e] eqn:Er; [|contradiction].
  destruct (CleanReader.read_rows self fieldnames rows) as [tups e]. simpl in *.
  intros [Heq|Hin]; [|apply IH, Hin]. subst t.
  unfold CleanReader.read_row in Er.
  destruct (mapM _ (CleanReader.cols self)) as [row_data|e']; [|discriminate].
  simpl in Er. inversion Er. intros k Hk. unfold dict_keys in Hk.
  apply in_map_iff in Hk. destruct Hk as [[k' v] [Heq Hkv]]. simpl in Heq. subst k'.
  apply in_combine_l in Hkv. exact Hkv.
Qed.

(** The aliases of the reader of a file are aliases of the registry. *)
Lemma open_reader_aliases (self : MultiFileCounter.t) (d : dict (list string))
    (file : csv_file) (reader : CleanReader.t) :
  colname_list_dict self = Some d ->
  open_reader self file = Ok reader ->
  incl (CleanReader.aliases reader) (dict_keys d).
Proof.
  intros Hd Hopen. destruct file as [|header rows]; [discriminate|].
  destruct (foldM (resolve_step d header) (dict_keys d) []) as [ad|e] eqn:Hfold.
  - rewrite (@open_reader_unfold _ self d header rows ad Hd Hfold) in Hopen.
    destruct (@resolve_loop_entries d header (dict_keys d) [] ad Hfold) as [_ [Hent _]].
    destruct (mapM _ (dict_keys d)) as [colnames|e] eqn:Em; [|discriminate].
    simpl in Hopen. unfold CleanReader.init in Hopen.
    destruct ad as [|kv ad'].
    + inversion Hopen. simpl.
      destruct (dict_keys d) as [|a als]; [|discriminate].
      simpl in Em. inversion Em. intros x [].
    + destruct (mapM (fun col => dict_item col (kv :: ad')) colnames) as [al|e] eqn:Ea;
        [|discriminate].
      inversion Hopen. simpl. apply mapM_Ok_Forall2 in Ea.
      intros x Hx. destruct (@Forall2_In_r _ _ _ _ _ _ Ea Hx) as [col [_ Hcol]].
      unfold dict_item in Hcol.
      destruct (dict_get col (kv :: ad')) as [x'|] eqn:Eg; [|discriminate].
      inversion Hcol; subst x'.
      destruct (Hent col x Eg) as [Hnil|[Hin _]]; [discriminate | exact Hin].
  - unfold open_reader in Hopen.
    rewrite (alias_dict_registry self header rows Hd), Hfold in Hopen. discriminate.
Qed.

(** X20. A counter must be on an alias of the registry.  When the instance
    tracks an alias that is not a key of the registry (the name of a column,
    say), the turn of a file ends with [AttributeError] at the first row of
    the file that satisfies the constraints, the rows before it having been
    rejected.  This is for counters that are looked up by field: [count],
    [index] and the underscore names, which a row answers without having
    them as a field, are left out. *)
Theorem counter_alias_must_be_in_the_registry :
  forall (self : MultiFileCounter.t) (d : dict (list string)) (file : csv_file)
         (alias : string) (skipped : list CleanReader.RowTup) (row : CleanReader.RowTup)
         (rest : list CleanReader.RowTup),
    colname_list_dict self = Some d ->
    counters_by_field self ->
    In alias (dict_keys (counters self)) ->
    ~ In alias (dict_keys d) ->
    rows_read self file = (skipped ++ row :: rest)%list ->
    Forall (fun r => constraints_satisfied self r = Ok false) skipped ->
    constraints_satisfied self row = Ok true ->
    snd (run_file self file) = Some AttributeError.
Proof.
  intros self d file alias skipped row rest Hd _ Hin Hnot Hrows Hskip Hrow.
  unfold counters in Hin. unfold rows_read in Hrows. unfold run_file.
  destruct (open_reader self file) as [reader|e] eqn:Hopen;
    [|destruct skipped; discriminate].
  pose proof (@open_reader_aliases self d file reader Hd Hopen) as Hal.
  assert (Hfields : incl (dict_keys row) (CleanReader.aliases reader)).
  { assert (Hmem : In row (fst (CleanReader.iter reader))).
    { rewrite Hrows. apply in_or_app. right. left. reflexivity. }
    unfold CleanReader.iter in Hmem.
    destruct (CleanReader.namedtuple_ok _); [|contradiction].
    destruct (CleanReader.file_path reader) as [|h rows]; [contradiction|].
    eapply read_rows_fields. exact Hmem. }
  assert (Hnone : dict_get alias row = None).
  { apply dict_get_not_key. intros Hk. apply Hnot, Hal, Hfields, Hk. }
  destruct (CleanReader.iter reader) as [tups stopped]. simpl in Hrows. subst tups.
  rewrite count_rows_app, (@count_rows_skipped self skipped Hskip). simpl count_rows. rewrite Hrow.
  pose proof (@update_counters_missing_field row alias Hnone (dict_keys (_counters self))
                (_counters self) (incl_refl _) Hin) as Hup.
  destruct (update_counters row (dict_keys (_counters self)) (_counters self)) as [cs' e].
  simpl in Hup. subst e. reflexivity.
Qed.

End FailingRuns.

(* ================================================================== *)
(** * The further properties at work on concrete runs *)
(* ================================================================== *)

Section FurtherRuns.
Import MultiFileCounter.
#[local] Existing Instance Plain.library.

(** ** The program *)

Example main_writes_the_reports :
  h1b_counting.main [h1b_2014; h1b_2016] "top_10_occupations.txt" "top_10_states.txt" []
  = ([("top_10_occupations.txt",
       "TOP_OCCUPATIONS;NUMBER_CERTIFIED_APPLICATIONS;PERCENTAGE" ++ LF
       ++ "COMPUTER SYSTEMS ANALYSTS;2;66.7%" ++ LF
       ++ "ACCOUNTANTS AND AUDITORS;1;33.3%" ++ LF);
      ("top_10_states.txt",
       "TOP_STATES;NUMBER_CERTIFIED_APPLICATIONS;PERCENTAGE" ++ LF
       ++ "CA;2;66.7%" ++ LF
       ++ "FL;1;33.3%" ++ LF)],
     None).
Proof. vm_compute. reflexivity. Qed.

(** Without a certified application the reports have their header line
    only. *)
Example main_without_certified_rows :
  h1b_counting.main [[["STATUS"; "SOC_NAME"; "WORKSITE_STATE"]; ["DENIED"; "Clerks"; "NY"]]]
    "occupations.txt" "states.txt" []
  = ([("occupations.txt", "TOP_OCCUPATIONS;NUMBER_CERTIFIED_APPLICATIONS;PERCENTAGE" ++ LF);
      ("states.txt", "TOP_STATES;NUMBER_CERTIFIED_APPLICATIONS;PERCENTAGE" ++ LF)],
     None).
Proof. vm_compute. reflexivity. Qed.

(** A file without one of the columns stops the program before it writes. *)
Example main_stops_on_a_missing_column :
  h1b_counting.main [h1b_2014; [["CASE_STATUS"; "SOC_NAME"]; ["CERTIFIED"; "Clerks"]]]
    "occupations.txt" "states.txt" [("occupations.txt", "kept")]
  = ([("occupations.txt", "kept")], Some RuntimeError).
Proof. vm_compute. reflexivity. Qed.

(** A failed run has counted the rows before the failure, in the counters
    that come before the failing one. *)
Example failed_run_keeps_partial_counts :
  count (add_counter "OCCUPATION" (Scenario.mfc [Scenario.file_A]))
  = (mk [Scenario.file_A] (Some Scenario.registry)
        [("occupation", [("nurse", 1)]); ("OCCUPATION", [])]
        [mkConstraint "status" op_eq (PStr "certified")] 0,
     Some AttributeError).
Proof. vm_compute. reflexivity. Qed.

(** The registry of [main], built by [add_alias] from an instance without
    one. *)
Example registry_by_add_alias :
  colname_list_dict
    (add_aliases [("status", "STATUS"); ("status", "CASE_STATUS");
                  ("occupation", "SOC_NAME"); ("occupation", "LCA_CASE_SOC_NAME");
                  ("state", "LCA_CASE_WORKLOC1_STATE"); ("state", "WORKSITE_STATE")]
                 (init [] None))
  = Some h1b_counting.colname_dict.
Proof. reflexivity. Qed.

(** ** The hypotheses on the scenario *)

Lemma scenario_candidates (alias : string) (cands : list string) :
  dict_get alias Scenario.registry = Some cands ->
  exists c, In c ["ID"; "STATUS"; "OCCUPATION"] /\ In c cands.
Proof.
  intros Hget. simpl in Hget.
  destruct (String.eqb alias "status").
  - injection Hget as <-. exists "STATUS". simpl. auto.
  - destruct (String.eqb alias "occupation"); [|discriminate].
    injection Hget as <-. exists "OCCUPATION". simpl. auto.
Defined.

Lemma scenario_columns_differ (a b : string) (ca cb : list string) :
  dict_get a Scenario.registry = Some ca -> dict_get b Scenario.registry = Some cb ->
  a <> b ->
  first_match ["ID"; "STATUS"; "OCCUPATION"] ca <> first_match ["ID"; "STATUS"; "OCCUPATION"] cb.
Proof.
  intros Ha Hb Hne. simpl in Ha, Hb.
  destruct (String.eqb a "status") eqn:Ea; destruct (String.eqb b "status") eqn:Eb.
  - apply String.eqb_eq in Ea, Eb. congruence.
  - destruct (String.eqb b "occupation"); [|discriminate].
    injection Ha as <-. injection Hb as <-. discriminate.
  - destruct (String.eqb a "occupation"); [|discriminate].
    injection Ha as <-. injection Hb as <-. discriminate.
  - destruct (String.eqb a "occupation") eqn:Ea'; [|discriminate].
    destruct (String.eqb b "occupation") eqn:Eb'; [|discriminate].
    apply String.eqb_eq in Ea', Eb'. congruence.
Defined.

(** ** The witnesses *)

(** The theorem of C7 on the registry of the scenario and a header that has
    both candidates of each alias: [status] is held at [CASE_STATUS] and
    [occupation] at [SOC_NAME], the names that come first in the header. *)
Lemma alias_dict_first_match_witness :
  NoDup (dict_keys Scenario.registry)
  /\ exists ad,
       alias_dict (Scenario.mfc [both_names_file]) both_names_file = Ok ad
       /\ maps_each_alias Scenario.registry both_names_header ad
       /\ resolves_exactly Scenario.registry both_names_header ad.
Proof.
  assert (Hnd : NoDup (dict_keys Scenario.registry)) by distinct.
  split; [exact Hnd|].
  apply (proj1 (@alias_dict_first_match Plain.library (Scenario.mfc [both_names_file])
                  both_names_header [["certified"; "nurse"; "denied"; "welder"]])
               Scenario.registry eq_refl Hnd).
  - intros alias cands Hget. simpl in Hget.
    destruct (String.eqb alias "status").
    + injection Hget as <-. exists "STATUS". simpl. auto.
    + destruct (String.eqb alias "occupation"); [|discriminate].
      injection Hget as <-. exists "OCCUPATION". simpl. auto 6.
  - intros a b ca cb Ha Hb Hne. simpl in Ha, Hb.
    destruct (String.eqb a "status") eqn:Ea; destruct (String.eqb b "status") eqn:Eb.
    + apply String.eqb_eq in Ea, Eb. congruence.
    + destruct (String.eqb b "occupation"); [|discriminate].
      injection Ha as <-. injection Hb as <-. discriminate.
    + destruct (String.eqb a "occupation"); [|discriminate].
      injection Ha as <-. injection Hb as <-. discriminate.
    + destruct (String.eqb a "occupation") eqn:Ea'; [|discriminate].
      destruct (String.eqb b "occupation") eqn:Eb'; [|discriminate].
      apply String.eqb_eq in Ea', Eb'. congruence.
Defined.

(** The theorem of X1 on an entry with blanks and a capital. *)
Lemma preprocess_text_is_idempotent_witness :
  seven_bit "nurse" /\ lower "nurse" = "nurse" /\ strip "nurse" = "nurse"
  /\ CleanReader.preprocess_text long_row_reader (Some "nurse") = Ok "nurse".
Proof.
  apply (@preprocess_text_is_idempotent long_row_reader long_row_reader "  Nurse " "nurse").
  reflexivity.
Defined.

(** The theorem of X3 on a row of three fields, two of them selected. *)
Lemma read_row_by_position_witness :
  map fst [("status", "certified"); ("occupation", "nurse")]
  = CleanReader.aliases long_row_reader
  /\ Forall2 (fun col cleaned =>
                exists i entry,
                  nth_error ["STATUS"; "SOC_NAME"; "WORKSITE_STATE"] i = Some col
                  /\ nth_error ["CERTIFIED"; "Nurse"; "CA"] i = Some entry
                  /\ CleanReader.preprocess_text long_row_reader (Some entry) = Ok cleaned)
             ["STATUS"; "SOC_NAME"]
             (map snd [("status", "certified"); ("occupation", "nurse")]).
Proof.
  apply (@read_row_by_position
           [["STATUS"; "SOC_NAME"]; ["CERTIFIED"; "Nurse"; "surplus"]] ["STATUS"; "SOC_NAME"]
           (Some [("STATUS", "status"); ("SOC_NAME", "occupation")]) CleanReader.strict
           long_row_reader ["STATUS"; "SOC_NAME"; "WORKSITE_STATE"] ["CERTIFIED"; "Nurse"; "CA"]
           [("status", "certified"); ("occupation", "nurse")]).
  - reflexivity.
  - distinct.
  - reflexivity.
Defined.

(** The theorem of X5 on the first file of the scenario. *)
Lemma open_reader_selects_the_first_matches_witness :
  exists reader,
    open_reader (Scenario.mfc [Scenario.file_A]) Scenario.file_A = Ok reader
    /\ CleanReader.file_path reader = Scenario.file_A
    /\ CleanReader.aliases reader = dict_keys Scenario.registry
    /\ Forall2 (fun alias col =>
                  exists cands,
                    dict_get alias Scenario.registry = Some cands
                    /\ first_in ["ID"; "STATUS"; "OCCUPATION"] cands col)
               (dict_keys Scenario.registry) (CleanReader.cols reader)
    /\ CleanReader.preprocessing reader = CleanReader.strict.
Proof.
  apply (@open_reader_selects_the_first_matches Plain.library
           (Scenario.mfc [Scenario.file_A]) Scenario.registry ["ID"; "STATUS"; "OCCUPATION"]
           [["1"; "certified"; "nurse"]; ["2"; "denied"; "nurse"]; ["3"; "certified"; "welder"]]).
  - reflexivity.
  - distinct.
  - exact scenario_candidates.
  - exact scenario_columns_differ.
Defined.

(** The theorem of X4 on the registry with a shared candidate. *)
Lemma shared_column_stops_the_run_witness :
  count (init [[shared_header]] (Some shared_registry))
  = (fst (iter (init [[shared_header]] (Some shared_registry)) []),
     Some match snd (iter (init [[shared_header]] (Some shared_registry)) []) with
          | Some e => e
          | None => KeyError
          end).
Proof.
  apply (@shared_column_stops_the_run Plain.library
           (init [[shared_header]] (Some shared_registry)) [] [] shared_header []
           shared_registry "occupation" "job_title" ["SOC_NAME"] ["JOB_TITLE"; "SOC_NAME"]
           "SOC_NAME").
  - reflexivity.
  - reflexivity.
  - intros alias cands Hget. exists "SOC_NAME". simpl in Hget.
    destruct (String.eqb alias "occupation").
    + injection Hget as <-. simpl. auto.
    + destruct (String.eqb alias "job_title"); [|discriminate].
      injection Hget as <-. simpl. auto.
  - reflexivity.
  - reflexivity.
  - discriminate.
  - reflexivity.
  - reflexivity.
Defined.


(** The theorem of X8 on the two-file scenario. *)
Lemma count_keeps_the_counters_well_formed_witness :
  Forall (fun kv => well_formed (snd kv))
         (_counters (fst (count (Scenario.mfc [Scenario.file_A; Scenario.file_B])))).
Proof.
  apply (@count_keeps_the_counters_well_formed Plain.library
           (Scenario.mfc [Scenario.file_A; Scenario.file_B])).
  - constructor; [left; simpl; auto | constructor].
  - repeat constructor.
Defined.

(** The theorem of X9 on the counter of the two-file scenario. *)
Lemma report_of_a_counted_counter_witness :
  exists lines,
    h1b_counting.gen_counter_text [("nurse", 2); ("welder", 3)] 10 ";" = Ok lines
    /\ List.length lines
       = Nat.min (Z.to_nat 10) (List.length [("nurse", 2); ("welder", 3)]).
Proof.
  apply (@report_of_a_counted_counter Plain.library
           (Scenario.mfc [Scenario.file_A; Scenario.file_B]) "occupation").
  - constructor; [left; simpl; auto | constructor].
  - repeat constructor.
  - vm_compute. reflexivity.
Defined.

(** The theorem of X12 on the two files of the scenario, swapped. *)
Lemma file_order_does_not_change_the_counts_witness :
  let self := Scenario.mfc [Scenario.file_A; Scenario.file_B] in
  let other := mk [Scenario.file_B; Scenario.file_A] (colname_list_dict self)
                  (_counters self) (_constraints self) (_files_parsed self) in
  (snd (count self) = None <-> snd (count other) = None)
  /\ (snd (count self) = None ->
      dict_keys (_counters (fst (count other))) = dict_keys (_counters (fst (count self)))
      /\ forall alias item,
           counted (_counters (fst (count other))) alias item
           = counted (_counters (fst (count self))) alias item).
Proof.
  apply (@file_order_does_not_change_the_counts Plain.library
           (Scenario.mfc [Scenario.file_A; Scenario.file_B])
           [Scenario.file_B; Scenario.file_A]).
  apply perm_swap.
Defined.

(** The theorem of X16 on the registry of the scenario and its reverse. *)
Lemma candidate_order_does_not_matter_witness :
  alias_dict (init [Scenario.file_A] (Some Scenario.registry)) Scenario.file_A
  = alias_dict (init [Scenario.file_A] (Some reversed_registry)) Scenario.file_A
  /\ open_reader (init [Scenario.file_A] (Some Scenario.registry)) Scenario.file_A
     = open_reader (init [Scenario.file_A] (Some reversed_registry)) Scenario.file_A.
Proof.
  apply (@candidate_order_does_not_matter Plain.library
           (init [Scenario.file_A] (Some Scenario.registry))
           (init [Scenario.file_A] (Some reversed_registry))
           Scenario.registry reversed_registry Scenario.file_A).
  - reflexivity.
  - reflexivity.
  - unfold same_candidates, Scenario.registry, reversed_registry.
    constructor; [split; [reflexivity | intros c; simpl; tauto]|].
    constructor; [split; [reflexivity | intros c; simpl; tauto]|].
    constructor.
Defined.

(** The theorem of X19 on a run over A, an empty file and B. *)
Lemma empty_file_stops_the_run_witness :
  count (Scenario.mfc [Scenario.file_A; []; Scenario.file_B])
  = (fst (iter (Scenario.mfc [Scenario.file_A; []; Scenario.file_B]) [Scenario.file_A]),
     Some match snd (iter (Scenario.mfc [Scenario.file_A; []; Scenario.file_B])
                          [Scenario.file_A]) with
          | Some e => e
          | None => RuntimeError
          end).
Proof.
  apply (@empty_file_stops_the_run Plain.library
           (Scenario.mfc [Scenario.file_A; []; Scenario.file_B])
           [Scenario.file_A] [Scenario.file_B]).
  reflexivity.
Defined.

(** A lookup by field on the rows of the scenario: [occupation] is an alias
    of the registry, and the first row has it. *)
Example scenario_lookup :
  counters_by_field (Scenario.mfc [Scenario.file_A])
  /\ CleanReader.getattr [("status", "certified"); ("occupation", "nurse")] "occupation"
     = Ok "nurse"
  /\ CleanReader.tuple_member "OCCUPATION" = false
  /\ CleanReader.tuple_member "count" = true
  /\ CleanReader.tuple_member "_fields" = true.
Proof.
  split; [constructor; [left; simpl; auto | constructor]|].
  repeat split.
Qed.

(** The theorem of X20 on a counter on the column name [OCCUPATION]. *)
Lemma counter_alias_must_be_in_the_registry_witness :
  snd (run_file (add_counter "OCCUPATION" (Scenario.mfc [Scenario.file_A])) Scenario.file_A)
  = Some AttributeError.
Proof.
  apply (@counter_alias_must_be_in_the_registry Plain.library
           (add_counter "OCCUPATION" (Scenario.mfc [Scenario.file_A])) Scenario.registry
           Scenario.file_A "OCCUPATION"
           []
           [("status", "certified"); ("occupation", "nurse")]
           [[("status", "denied"); ("occupation", "nurse")];
            [("status", "certified"); ("occupation", "welder")]]).
  - reflexivity.
  - constructor; [left; simpl; auto|]. constructor; [right; reflexivity | constructor].
  - simpl. auto.
  - simpl. intuition discriminate.
  - vm_compute. reflexivity.
  - constructor.
  - reflexivity.
Defined.

End FurtherRuns.
